(** * Cat-Printer: the server-side image pipeline ([server_image.py])

    A shallow embedding of [server_image.py] and machine-checked statements
    about it.  The Python functions are embedded one for one, under their own
    names, in [Module server_image].  What they call is embedded below them:

    - [Module Py]: the Python built-ins the pipeline uses: exceptions, the
      [int]/[float] arithmetic of the brightness curve and of the resize
      computation (binary64, through the executable IEEE-754 specification
      [SpecFloat] of the Standard Library), [min], [max], [int()], [%d].
    - [Module Pillow]: the Pillow operations the pipeline calls ([convert],
      [alpha_composite], [point], [resize], [tobytes]), following the C
      kernels of Pillow (Convert.c, AlphaComposite.c, Point.c, Pack.c).
    - [Module Requests]: the response object, and what [requests.get]
      does with a URL before it sends anything (the scheme it parses and
      the adapters of a new session).
    - [Module Interp]: object references.  A Python variable holds a
      reference to an image object; every Pillow call of the pipeline
      allocates a fresh object and leaves its receiver alone.  The state also
      records the HTTP requests handed to the [requests] client.

    The theorems follow the definitions.  The height computed by
    [resize_image] is characterised from the rounding of the binary64
    division and multiplication, which is proved for [SpecFloat] here. *)

From Stdlib Require Import ZArith List String Ascii Bool Lia ZifyNat DecimalString.
From Stdlib Require Import Floats.SpecFloat.
From Stdlib Require DecimalPos DecimalN.
From stdpp Require Import base option list.

Local Open Scope Z_scope.

(* ===================================================================== *)
(** * Python built-ins                                                     *)
(* ===================================================================== *)

Module Py.

(** The exception classes that can leave the pipeline. *)
Inductive exn : Type :=
  | ValueError (msg : string)
  | TypeError (msg : string)
  | OverflowError (msg : string)
  | ZeroDivisionError (msg : string)
  | OSError (msg : string)
  | ReferenceError (msg : string)
  | MemoryError (msg : string)
  | RequestException (msg : string).

(** [str(e)] *)
Definition str_exn (e : exn) : string :=
  match e with
  | ValueError m | TypeError m | OverflowError m | ZeroDivisionError m
  | OSError m | ReferenceError m | MemoryError m | RequestException m => m
  end.

(** An evaluation either returns a value or raises. *)
Inductive result (A : Type) : Type :=
  | Ok (a : A)
  | Raise (e : exn).
Arguments Ok {A} a.
Arguments Raise {A} e.

#[global] Instance result_ret : MRet result := fun A a => Ok a.
#[global] Instance result_bind : MBind result := fun A B f m =>
  match m with
  | Ok a => f a
  | Raise e => Raise e
  end.

(** ** [float]: IEEE-754 binary64 *)

Definition float : Type := spec_float.
Definition prec : Z := 53.
Definition emax : Z := 1024.

(** A float literal with an integral value, such as [255.0]. *)
Definition flit (n : Z) : float := binary_normalize prec emax n 0 false.

(** [float(n)] for an [int]: correctly rounded, [OverflowError] beyond the
    range of a double. *)
Definition float_of_int (n : Z) : result float :=
  match binary_normalize prec emax n 0 false with
  | S754_infinity _ => Raise (OverflowError "int too large to convert to float")
  | x => Ok x
  end.

Definition is_zero (x : float) : bool :=
  match x with
  | S754_zero _ => true
  | _ => false
  end.

(** ** Numbers: [int] and [float] under Python's mixed arithmetic *)

Inductive num : Type :=
  | Int (n : Z)
  | Float (x : float).

Definition to_float (a : num) : result float :=
  match a with
  | Int n => float_of_int n
  | Float x => Ok x
  end.

(** [+], [-], [*]: exact on two ints, otherwise both operands become
    floats and the float operation rounds to nearest even. *)
Definition arith (iop : Z -> Z -> Z) (fop : float -> float -> float)
    (a b : num) : result num :=
  match a, b with
  | Int x, Int y => Ok (Int (iop x y))
  | _, _ => x ← to_float a; y ← to_float b; Ok (Float (fop x y))
  end.

Definition add_num : num -> num -> result num := arith Z.add (SFadd prec emax).
Definition sub_num : num -> num -> result num := arith Z.sub (SFsub prec emax).
Definition mul_num : num -> num -> result num := arith Z.mul (SFmul prec emax).

(** [int / int]: the correctly rounded quotient. *)
Definition long_true_divide (x y : Z) : result num :=
  if y =? 0 then Raise (ZeroDivisionError "division by zero")
  else if x =? 0 then Ok (Float (S754_zero (y <? 0)))
  else
    let '(q, e, l) := SFdiv_core_binary prec emax (Z.abs x) 0 (Z.abs y) 0 in
    match binary_round_aux prec emax (xorb (x <? 0) (y <? 0)) q e l with
    | S754_infinity _ =>
        Raise (OverflowError "integer division result too large for a float")
    | r => Ok (Float r)
    end.

(** [/]: with a float operand, both become floats; a zero divisor raises. *)
Definition truediv_num (a b : num) : result num :=
  match a, b with
  | Int x, Int y => long_true_divide x y
  | _, _ =>
      x ← to_float a; y ← to_float b;
      if is_zero y then Raise (ZeroDivisionError "float division by zero")
      else Ok (Float (SFdiv prec emax x y))
  end.

(** Comparison of an int with a float is exact (no conversion of the int). *)
Definition compare_int_float (n : Z) (x : float) : option comparison :=
  match x with
  | S754_nan => None
  | S754_infinity s => Some (if s then Gt else Lt)
  | S754_zero _ => Some (n ?= 0)
  | S754_finite s m e =>
      let v := if s then Zneg m else Zpos m in
      Some (if 0 <=? e then n ?= v * 2 ^ e else n * 2 ^ (- e) ?= v)
  end.

Definition compare (a b : num) : option comparison :=
  match a, b with
  | Int x, Int y => Some (x ?= y)
  | Int x, Float y => compare_int_float x y
  | Float x, Int y => option_map CompOpp (compare_int_float y x)
  | Float x, Float y => SFcompare x y
  end.

Definition lt (a b : num) : bool :=
  match compare a b with
  | Some Lt => true
  | _ => false
  end.

Definition gt (a b : num) : bool :=
  match compare a b with
  | Some Gt => true
  | _ => false
  end.

(** [min(a, b)] and [max(a, b)]: the first argument is kept unless the
    second is strictly smaller (larger); the result keeps its own type. *)
Definition min_num (a b : num) : num := if lt b a then b else a.
Definition max_num (a b : num) : num := if gt b a then b else a.

(** [int(x)]: truncation toward zero. *)
Definition trunc (x : float) : result Z :=
  match x with
  | S754_nan => Raise (ValueError "cannot convert float NaN to integer")
  | S754_infinity _ =>
      Raise (OverflowError "cannot convert float infinity to integer")
  | S754_zero _ => Ok 0
  | S754_finite s m e =>
      let a := if 0 <=? e then Zpos m * 2 ^ e else Zpos m / 2 ^ (- e) in
      Ok (if s then - a else a)
  end.

Definition int_num (a : num) : result Z :=
  match a with
  | Int n => Ok n
  | Float x => trunc x
  end.

(** ** Expressions

    An expression evaluates its operands left to right and raises as soon
    as one of them does. *)

Definition expr : Type := result num.

Definition lift2 (op : num -> num -> result num) (a b : expr) : expr :=
  x ← a; y ← b; op x y.

Definition add : expr -> expr -> expr := lift2 add_num.
Definition sub : expr -> expr -> expr := lift2 sub_num.
Definition mul : expr -> expr -> expr := lift2 mul_num.
Definition truediv : expr -> expr -> expr := lift2 truediv_num.
Definition min : expr -> expr -> expr := lift2 (fun x y => Ok (min_num x y)).
Definition max : expr -> expr -> expr := lift2 (fun x y => Ok (max_num x y)).

(** [float(x)] and [int(x)] *)
Definition float_ (a : expr) : expr := x ← a; y ← to_float x; Ok (Float y).
Definition int (a : expr) : result Z := x ← a; int_num x.

(** An [int] value and a float literal as expressions. *)
Definition ival (n : Z) : expr := Ok (Int n).
Definition fval (n : Z) : expr := Ok (Float (flit n)).

(** ** Strings and bytes *)

Definition bytes : Type := list Z.

Definition LF : string := String (ascii_of_nat 10) EmptyString.

(** A bytes literal of ASCII characters. *)
Definition ascii (s : string) : bytes :=
  map (fun c => Z.of_nat (nat_of_ascii c)) (list_ascii_of_string s).

(** [%d] *)
Definition format_d (n : Z) : string := NilZero.string_of_int (Z.to_int n).

(** [s.startswith(p)] *)
Definition startswith (s p : string) : bool := String.prefix p s.

(** Truth value of a string: non-empty. *)
Definition truthy (s : string) : bool :=
  match s with
  | EmptyString => false
  | _ => true
  end.

(** [s.lower()], for characters below 256: the capital letters of ASCII
    and those of Latin-1. *)
Definition lower_char (c : Ascii.ascii) : Ascii.ascii :=
  let n := nat_of_ascii c in
  if ((65 <=? n) && (n <=? 90) || (192 <=? n) && (n <=? 222) && negb (n =? 215))%nat
  then ascii_of_nat (n + 32)
  else c.

Fixpoint lower (s : string) : string :=
  match s with
  | EmptyString => EmptyString
  | String c rest => String (lower_char c) (lower rest)
  end.

(** [c.isspace()], for characters below 256. *)
Definition isspace (c : Ascii.ascii) : bool :=
  let n := nat_of_ascii c in
  ((9 <=? n) && (n <=? 13) || (28 <=? n) && (n <=? 32) || (n =? 133) || (n =? 160))%nat.

(** [s.lstrip()] *)
Fixpoint lstrip (s : string) : string :=
  match s with
  | EmptyString => EmptyString
  | String c rest => if isspace c then lstrip rest else s
  end.

(** [c in s] for a character [c] *)
Fixpoint contains (c : Ascii.ascii) (s : string) : bool :=
  match s with
  | EmptyString => false
  | String c' rest => Ascii.eqb c' c || contains c rest
  end.

End Py.

Declare Scope py_scope.
Delimit Scope py_scope with py.
Infix "+" := Py.add : py_scope.
Infix "-" := Py.sub : py_scope.
Infix "*" := Py.mul : py_scope.
Infix "/" := Py.truediv : py_scope.

(* ===================================================================== *)
(** * Pillow                                                               *)
(* ===================================================================== *)

Module Pillow.
Import Py.

(** The image modes of the pipeline: bilevel, 8-bit grey, and the two
    colour modes stored as four bytes per pixel. *)
Inductive modes : Type := M_1 | M_L | M_RGB | M_RGBA.

Definition mode_eqb (m1 m2 : modes) : bool :=
  match m1, m2 with
  | M_1, M_1 | M_L, M_L | M_RGB, M_RGB | M_RGBA, M_RGBA => true
  | _, _ => false
  end.

Definition mode_name (m : modes) : string :=
  match m with
  | M_1 => "1"
  | M_L => "L"
  | M_RGB => "RGB"
  | M_RGBA => "RGBA"
  end.

Inductive Dither : Type := NONE | ORDERED | RASTERIZE | FLOYDSTEINBERG.
Inductive Resampling : Type :=
  NEAREST | BOX | BILINEAR | HAMMING | BICUBIC | LANCZOS.

Definition dither_flag (d : Dither) : bool :=
  match d with
  | NONE => false
  | _ => true
  end.

(** Pixel storage: one byte per pixel ([image8], modes "1" and "L") or four
    ([image32], modes "RGB" and "RGBA"), as rows of pixels.  A byte is an
    integer in 0..255; a mode "1" pixel is stored as 0 (black) or 255. *)
Definition pixel32 : Type := Z * Z * Z * Z.

Inductive storage : Type :=
  | image8 (rows : list (list Z))
  | image32 (rows : list (list pixel32)).

Record Image : Type := { mode : modes; size : Z * Z; im : storage }.

Definition xsize (img : Image) : Z := fst (size img).
Definition ysize (img : Image) : Z := snd (size img).

Definition byte_ok (v : Z) : Prop := 0 <= v <= 255.

Definition pixel32_ok (p : pixel32) : Prop :=
  let '(r, g, b, a) := p in byte_ok r /\ byte_ok g /\ byte_ok b /\ byte_ok a.

(** The invariant of an image object: the storage fits the mode and has
    [ysize] rows of [xsize] pixels. *)
Definition shape_ok {A : Type} (sz : Z * Z) (rows : list (list A)) : Prop :=
  Z.of_nat (length rows) = snd sz /\
  Forall (fun row => Z.of_nat (length row) = fst sz) rows.

Definition wf_image (img : Image) : Prop :=
  match mode img, im img with
  | (M_1 | M_L), image8 rows =>
      shape_ok (size img) rows /\ Forall (Forall byte_ok) rows
  | (M_RGB | M_RGBA), image32 rows =>
      shape_ok (size img) rows /\ Forall (Forall pixel32_ok) rows
  | _, _ => False
  end.

(** ** Convert.c *)

Definition CLIP8 (v : Z) : Z :=
  if v <=? 0 then 0 else if v <? 256 then v else 255.

(** ITU-R 601-2 luma, in thousandths ([L]) and in 16.16 fixed point
    ([L24], already holding the rounding term 0x8000). *)
Definition L (p : pixel32) : Z :=
  let '(r, g, b, _) := p in r * 299 + g * 587 + b * 114.

Definition L24 (p : pixel32) : Z :=
  let '(r, g, b, _) := p in r * 19595 + g * 38470 + b * 7471 + 32768.

Definition bit2l (row : list Z) : list Z :=
  map (fun v => if v =? 0 then 0 else 255) row.

Definition bit2rgb (row : list Z) : list pixel32 :=
  map (fun v => let v := if v =? 0 then 0 else 255 in (v, v, v, 255)) row.

Definition l2bit (row : list Z) : list Z :=
  map (fun v => if 128 <=? v then 255 else 0) row.

Definition l2rgb (row : list Z) : list pixel32 :=
  map (fun v => (v, v, v, 255)) row.

Definition rgb2bit (row : list pixel32) : list Z :=
  map (fun p => if 128000 <=? L p then 255 else 0) row.

Definition rgb2l (row : list pixel32) : list Z :=
  map (fun p => Z.shiftr (L24 p) 16) row.

Definition rgb2rgba (row : list pixel32) : list pixel32 :=
  map (fun p => let '(r, g, b, _) := p in (r, g, b, 255)) row.

Definition rgba2rgb (row : list pixel32) : list pixel32 :=
  map (fun p => let '(r, g, b, _) := p in (r, g, b, 255)) row.

(** The table of line converters ([converters] in Convert.c). *)
Definition standard_convert (img : Image) (to : modes) : result storage :=
  match mode img, to, im img with
  | M_1, M_L, image8 rows => Ok (image8 (map bit2l rows))
  | M_1, (M_RGB | M_RGBA), image8 rows => Ok (image32 (map bit2rgb rows))
  | M_L, M_1, image8 rows => Ok (image8 (map l2bit rows))
  | M_L, (M_RGB | M_RGBA), image8 rows => Ok (image32 (map l2rgb rows))
  | (M_RGB | M_RGBA), M_1, image32 rows => Ok (image8 (map rgb2bit rows))
  | (M_RGB | M_RGBA), M_L, image32 rows => Ok (image8 (map rgb2l rows))
  | M_RGB, M_RGBA, image32 rows => Ok (image32 (map rgb2rgba rows))
  | M_RGBA, M_RGB, image32 rows => Ok (image32 (map rgba2rgb rows))
  | _, _, _ => Raise (ValueError "conversion not supported")
  end.

(** *** [tobilevel]: Floyd-Steinberg error diffusion

    The scan keeps the running error [l], the two carries [l0] and [l1], and
    the array [errors] of [xsize + 1] cells, which lives across the rows.
    All quantities stay far inside a 32-bit [int]. *)
Record fs_state : Type :=
  { fs_l : Z; fs_l0 : Z; fs_l1 : Z; fs_errors : list Z; fs_out : list Z }.

Definition tobilevel_pixel (st : fs_state) (xv : nat * Z) : fs_state :=
  let '(x, v) := xv in
  (* pick closest colour *)
  let l := CLIP8 (v + Z.quot (fs_l st + fs_errors st !!! S x) 16) in
  let out := if 128 <? l then 255 else 0 in
  (* propagate errors *)
  let l := l - out in
  let l2 := l in
  let d2 := l + l in
  let l := l + d2 in
  let errors := <[x := l + fs_l0 st]> (fs_errors st) in
  let l := l + d2 in
  let l0 := l + fs_l1 st in
  let l1 := l2 in
  let l := l + d2 in
  {| fs_l := l; fs_l0 := l0; fs_l1 := l1; fs_errors := errors;
     fs_out := fs_out st ++ [out] |}.

Definition tobilevel_row (errors : list Z) (row : list Z) : list Z * list Z :=
  let st :=
    fold_left tobilevel_pixel (zip (seq 0 (length row)) row)
      {| fs_l := 0; fs_l0 := 0; fs_l1 := 0; fs_errors := errors; fs_out := [] |} in
  (<[length row := fs_l0 st]> (fs_errors st), fs_out st).

Definition tobilevel_scan (xs : Z) (rows : list (list Z)) : list (list Z) :=
  snd (fold_left
         (fun '(errors, outs) row =>
            let '(errors, out) := tobilevel_row errors row in
            (errors, outs ++ [out]))
         rows (replicate (Z.to_nat (xs + 1)) 0, [])).

Definition tobilevel (img : Image) : result storage :=
  match mode img, im img with
  | M_L, image8 rows => Ok (image8 (tobilevel_scan (xsize img) rows))
  | M_RGB, image32 rows =>
      Ok (image8 (tobilevel_scan (xsize img)
                    (map (map (fun p => L p / 1000)) rows)))
  | _, _ => Raise (ValueError "conversion not supported")
  end.

(** [ImagingConvert]: same mode copies; a dithered conversion to "1" is
    [tobilevel]; everything else goes through the converter table. *)
Definition ImagingConvert (img : Image) (to : modes) (dither : bool)
    : result Image :=
  if mode_eqb (mode img) to then Ok img
  else
    st ← (if dither && mode_eqb to M_1 then tobilevel img
          else standard_convert img to);
    Ok {| mode := to; size := size img; im := st |}.

Definition getmodebase (m : modes) : modes :=
  match m with
  | M_1 | M_L => M_L
  | M_RGB | M_RGBA => M_RGB
  end.

(** [Image.convert(mode, dither=None)]: the dither defaults to
    Floyd-Steinberg; a conversion the C layer refuses is retried through
    the base mode of the source. *)
Definition convert (img : Image) (to : modes) (dither : option Dither)
    : result Image :=
  if mode_eqb to (mode img) then Ok img
  else
    let dither := dither_flag (default FLOYDSTEINBERG dither) in
    match ImagingConvert img to dither with
    | Raise (ValueError msg) =>
        let modebase := getmodebase (mode img) in
        if mode_eqb modebase (mode img) then Raise (ValueError msg)
        else
          img' ← ImagingConvert img modebase false;
          ImagingConvert img' to dither
    | r => r
    end.

(** ** [Image.new] *)
Definition new (m : modes) (sz : Z * Z) (color : pixel32) : result Image :=
  if (fst sz <? 0) || (snd sz <? 0)
  then Raise (ValueError "Width and height must be >= 0")
  else
    match m with
    | M_RGB | M_RGBA =>
        Ok {| mode := m; size := sz;
              im := image32 (replicate (Z.to_nat (snd sz))
                               (replicate (Z.to_nat (fst sz)) color)) |}
    | _ => Raise (TypeError "color must be int or single-element tuple")
    end.

(** ** AlphaComposite.c

    [src] over [dst], in integers with 7 extra bits of precision. *)
Definition PRECISION_BITS : Z := 7.

Definition SHIFTFORDIV255 (a : Z) : Z := Z.shiftr (Z.shiftr a 8 + a) 8.

Definition composite_pixel (dst src : pixel32) : pixel32 :=
  let '(dr, dg, db, da) := dst in
  let '(sr, sg, sb, sa) := src in
  if sa =? 0 then dst
  else
    let blend := da * (255 - sa) in
    let outa255 := sa * 255 + blend in
    let coef1 := sa * 255 * 255 * Z.shiftl 1 PRECISION_BITS / outa255 in
    let coef2 := 255 * Z.shiftl 1 PRECISION_BITS - coef1 in
    let tmpr := sr * coef1 + dr * coef2 in
    let tmpg := sg * coef1 + dg * coef2 in
    let tmpb := sb * coef1 + db * coef2 in
    let half := Z.shiftl 128 PRECISION_BITS in
    (Z.shiftr (SHIFTFORDIV255 (tmpr + half)) PRECISION_BITS,
     Z.shiftr (SHIFTFORDIV255 (tmpg + half)) PRECISION_BITS,
     Z.shiftr (SHIFTFORDIV255 (tmpb + half)) PRECISION_BITS,
     SHIFTFORDIV255 (outa255 + 128)).

Definition alpha_composite (im1 im2 : Image) : result Image :=
  match mode im1, im im1, mode im2, im im2 with
  | M_RGBA, image32 dst, M_RGBA, image32 src =>
      if (xsize im1 =? xsize im2) && (ysize im1 =? ysize im2)
      then Ok {| mode := M_RGBA; size := size im1;
                 im := image32 (zip_with (zip_with composite_pixel) dst src) |}
      else Raise (ValueError "images do not match")
  | M_RGBA, _, _, _ => Raise (ValueError "images do not match")
  | _, _, _, _ => Raise (ValueError "image has wrong mode")
  end.

(** ** [Image.point] with a function

    The function is tabulated over [range(256)] (an exception of the
    function leaves [point]); the table is stored as bytes ([CLIP8]) and
    applied to every band. *)
Fixpoint tabulate (lut : Z -> result Z) (xs : list Z) : result (list Z) :=
  match xs with
  | [] => Ok []
  | x :: xs' => v ← lut x; vs ← tabulate lut xs'; Ok (CLIP8 v :: vs)
  end.

Definition lookup_table (table : list Z) (v : Z) : Z := table !!! Z.to_nat v.

Definition point (img : Image) (lut : Z -> result Z) : result Image :=
  table ← tabulate lut (seqZ 0 256);
  let t := lookup_table table in
  Ok {| mode := mode img; size := size img;
        im := match mode img, im img with
              | M_RGB, image32 rows =>
                  image32 (map (map (fun '(r, g, b, _) => (t r, t g, t b, 0))) rows)
              | _, image32 rows =>
                  image32 (map (map (fun '(r, g, b, a) => (t r, t g, t b, t a))) rows)
              | _, image8 rows => image8 (map (map t) rows)
              end |}.

(** ** Pack.c and [Image.tobytes("raw", rawmode)]

    [pack1] and [pack1I] pack a row of bilevel pixels most significant bit
    first, flushing a byte every eight pixels and a last partial byte at the
    end of the row.  [pack1I] sets a bit for a pixel that is 0 (black is 1),
    [pack1] for one that is not 0. *)
Definition pack_step (ink : Z -> bool) (st : list Z * Z * Z) (v : Z)
    : list Z * Z * Z :=
  let '(out, b, m) := st in
  let b := if ink v then Z.lor b m else b in
  let m := Z.shiftr m 1 in
  if m =? 0 then (out ++ [b], 0, 128) else (out, b, m).

Definition pack_row (ink : Z -> bool) (row : list Z) : list Z :=
  let '(out, b, m) := fold_left (pack_step ink) row ([], 0, 128) in
  if m =? 128 then out else out ++ [b].

Definition pack1 : list Z -> list Z := pack_row (fun v => negb (v =? 0)).
Definition pack1I : list Z -> list Z := pack_row (fun v => v =? 0).

Definition tobytes_raw (img : Image) (rawmode : string) : result bytes :=
  if (xsize img =? 0) || (ysize img =? 0) then Ok []
  else
    match mode img, im img with
    | M_1, image8 rows =>
        if String.eqb rawmode "1;I" then Ok (concat (map pack1I rows))
        else if String.eqb rawmode "1" then Ok (concat (map pack1 rows))
        else Raise (ValueError "No packer found")
    | _, _ => Raise (ValueError "No packer found")
    end.

(** ** [Image.resize]

    A request for the size the image has is answered with a copy.
    Otherwise the size goes to the C layer, which reads both components as
    C [int]s (the [i] format of [PyArg_ParseTuple], here with a 64-bit
    [long]) and wants both to be at least 1.  The resampling itself is a
    capability of the imaging library ([resample] below): it fills an
    image of the requested size, or raises, as it does with [MemoryError]
    when the table of coefficients or the image cannot be allocated (a
    side near [INT_MAX] is always too much). *)
Definition INT_MIN : Z := - 2 ^ 31.
Definition INT_MAX : Z := 2 ^ 31 - 1.
Definition LONG_MIN : Z := - 2 ^ 63.
Definition LONG_MAX : Z := 2 ^ 63 - 1.

Definition fits_int (n : Z) : bool := (INT_MIN <=? n) && (n <=? INT_MAX).

(** The [i] format: a Python [int] as a C [int]. *)
Definition as_int (n : Z) : result Z :=
  if (n <? LONG_MIN) || (LONG_MAX <? n)
  then Raise (OverflowError "Python int too large to convert to C long")
  else if INT_MAX <? n
  then Raise (OverflowError "signed integer is greater than maximum")
  else if n <? INT_MIN
  then Raise (OverflowError "signed integer is less than minimum")
  else Ok n.

Definition resize (resample : Resampling -> Image -> Z * Z -> result storage)
    (img : Image) (sz : Z * Z) (filter : Resampling) : result Image :=
  if (fst sz =? xsize img) && (snd sz =? ysize img) then Ok img
  else
    xs ← as_int (fst sz);
    ys ← as_int (snd sz);
    if (xs <? 1) || (ys <? 1)
    then Raise (ValueError "height and width must be > 0")
    else
      st ← resample filter img (xs, ys);
      Ok {| mode := mode img; size := (xs, ys); im := st |}.

End Pillow.

(* ===================================================================== *)
(** * The [requests] client and the other outside capabilities            *)
(* ===================================================================== *)

Module Requests.
Import Py.

(** A response, through the three things the fetcher asks of it. *)
Record Response : Type :=
  { raise_for_status : result unit;
    headers_get : string -> option string;
    content : result bytes }.

(** ** [requests.get] before anything is sent

    [requests.get] opens a new session and prepares the request
    ([PreparedRequest.prepare_url]): leading white space is dropped; a URL
    with a colon that does not begin with "http", in any case, is kept as
    it is; any other URL is parsed by urllib3's [parse_url], whose scheme
    is the text before the first colon when that text is a letter followed
    by letters, digits, "+" and "-", put in lower case (a "." in it,
    which one of the two patterns of [parse_url] allows, would make no
    difference below: such a scheme has no adapter); without a scheme
    the call raises [MissingSchema], and when the rest cannot be used
    (no host, a bad port or label) [InvalidURL]; the URL is put together
    again as the scheme, "://" and the rest.  The session then looks for
    the adapter mounted on a prefix of the URL in lower case
    ([Session.get_adapter]); a new session has one on "https://" and one
    on "http://", and [InvalidSchema] is raised when neither fits.  Only
    an adapter uses the network.  The three exceptions are
    [RequestException]s.

    The network is what answers an adapter; the texts of the refusals and
    the part of a URL after its scheme are left to it as well. *)
Record Network : Type :=
  { (** the message of [MissingSchema] or [InvalidSchema] for a URL *)
    refusal : string -> string;
    (** what follows "://" in the prepared URL, or the message of
        [InvalidURL] *)
    netloc_path : string -> string + string;
    (** the answer to a request that an adapter sends *)
    send : string -> Z -> result Response }.

Definition is_letter (c : Ascii.ascii) : bool :=
  let n := nat_of_ascii c in
  ((65 <=? n) && (n <=? 90) || (97 <=? n) && (n <=? 122))%nat.

Definition scheme_char (c : Ascii.ascii) : bool :=
  let n := nat_of_ascii c in
  is_letter c || ((48 <=? n) && (n <=? 57) || (n =? 43) || (n =? 45))%nat.

(** The characters of a scheme up to the colon that ends it. *)
Fixpoint scheme_rest (s : string) : option string :=
  match s with
  | EmptyString => None
  | String c rest =>
      if Ascii.eqb c ":" then Some EmptyString
      else if scheme_char c then option_map (String c) (scheme_rest rest)
      else None
  end.

(** The scheme that [parse_url] finds. *)
Definition parse_scheme (url : string) : option string :=
  match url with
  | EmptyString => None
  | String c rest =>
      if is_letter c then option_map (fun s => lower (String c s)) (scheme_rest rest)
      else None
  end.

(** [Session.get_adapter] of a new session *)
Definition has_adapter (url : string) : bool :=
  startswith (lower url) "https://" || startswith (lower url) "http://".

(** [requests.get(url, stream=True, timeout=timeout)]: what it returns or
    raises, and the request that was handed to an adapter for it, if one
    was, with its URL and timeout. *)
Definition get (net : Network) (url : string) (timeout : Z)
    : result Response * list (string * Z) :=
  let url := lstrip url in
  if contains ":" url && negb (startswith (lower url) "http")
  then
    if has_adapter url then (send net url timeout, [(url, timeout)])
    else (Raise (RequestException (refusal net url)), [])
  else
    match parse_scheme url with
    | None => (Raise (RequestException (refusal net url)), [])
    | Some scheme =>
        match netloc_path net url with
        | inr msg => (Raise (RequestException msg), [])
        | inl rest =>
            let prepared := (scheme ++ "://" ++ rest)%string in
            if has_adapter prepared
            then (send net prepared timeout, [(prepared, timeout)])
            else (Raise (RequestException (refusal net prepared)), [])
        end
    end.

End Requests.

(** What the pipeline takes from outside the repository: the HTTP client,
    the image decoder, Python's [int()] on a header string, and the
    resampling filter of the imaging library, which returns the pixels of
    the new image or raises. *)
Class World : Type :=
  { requests_get : string -> Z -> Py.result Requests.Response;
    Image_open : Py.bytes -> Py.result Pillow.Image;
    int_of_str : string -> Py.result Z;
    resample : Pillow.Resampling -> Pillow.Image -> Z * Z
               -> Py.result Pillow.storage }.

(** The outside world [W] with the [requests] client put in front of a
    network: [requests_get] is [requests.get] over [net]. *)
Definition over (net : Requests.Network) (W : World) : World :=
  {| requests_get := fun url timeout => fst (Requests.get net url timeout);
     Image_open := @Image_open W;
     int_of_str := @int_of_str W;
     resample := @resample W |}.

(** The requests that were handed to an adapter, and so went out to the
    network, for the calls of [requests.get] of a log. *)
Definition sent (net : Requests.Network) (log : list (string * Z)) : list (string * Z) :=
  flat_map (fun '(url, timeout) => snd (Requests.get net url timeout)) log.

(* ===================================================================== *)
(** * Objects and references                                              *)
(* ===================================================================== *)

Module Interp.
Import Py Pillow.

Definition loc : Type := nat.

(** The image objects allocated so far, and the requests handed to the
    HTTP client so far (URL and timeout). *)
Record state : Type :=
  { heap : list Image; requests : list (string * Z) }.

Definition M (A : Type) : Type := state -> result A * state.

#[global] Instance M_ret : MRet M := fun A a s => (Ok a, s).
#[global] Instance M_bind : MBind M := fun A B k m s =>
  match m s with
  | (Ok a, s') => k a s'
  | (Raise e, s') => (Raise e, s')
  end.

Definition raise {A : Type} (e : exn) : M A := fun s => (Raise e, s).

Definition lift {A : Type} (r : result A) : M A := fun s => (r, s).

(** [try: body except E as e: handler]; [handler] answers [None] for an
    exception the clause does not catch. *)
Definition try_except {A : Type} (body : M A) (handler : exn -> option (M A))
    : M A := fun s =>
  match body s with
  | (Raise e, s') =>
      match handler e with
      | Some h => h s'
      | None => (Raise e, s')
      end
  | r => r
  end.

Definition deref (r : loc) : M Image := fun s =>
  match heap s !! r with
  | Some img => (Ok img, s)
  | None => (Raise (ReferenceError "no such object"), s)
  end.

Definition alloc (img : Image) : M loc := fun s =>
  (Ok (length (heap s)),
   {| heap := heap s ++ [img]; requests := requests s |}).

(** The methods of an image object.  Each reads its receiver and returns a
    reference to a new object. *)
Definition Image_mode (r : loc) : M modes := img ← deref r; mret (mode img).

Definition Image_size (r : loc) : M (Z * Z) := img ← deref r; mret (size img).

Definition Image_convert (r : loc) (to : modes) (dither : option Dither)
    : M loc :=
  img ← deref r; img' ← lift (convert img to dither); alloc img'.

Definition Image_new (m : modes) (sz : Z * Z) (color : pixel32) : M loc :=
  img ← lift (new m sz color); alloc img.

Definition Image_alpha_composite (r1 r2 : loc) : M loc :=
  im1 ← deref r1; im2 ← deref r2;
  img ← lift (alpha_composite im1 im2); alloc img.

Definition Image_point (r : loc) (lut : Z -> result Z) : M loc :=
  img ← deref r; img' ← lift (point img lut); alloc img'.

Definition Image_resize `{World} (r : loc) (sz : Z * Z) (filter : Resampling)
    : M loc :=
  img ← deref r; img' ← lift (resize resample img sz filter); alloc img'.

Definition Image_tobytes (r : loc) (encoder_name rawmode : string) : M bytes :=
  img ← deref r;
  if String.eqb encoder_name "raw" then lift (tobytes_raw img rawmode)
  else raise (OSError "encoder not available").

(** [Image.open(io.BytesIO(data))] *)
Definition Image_open_ `{World} (data : bytes) : M loc :=
  img ← lift (Image_open data); alloc img.

(** [requests.get(url, stream=True, timeout=timeout)]: the request is
    handed to the client and recorded. *)
Definition requests_get_ `{World} (url : string) (timeout : Z)
    : M Requests.Response := fun s =>
  (requests_get url timeout,
   {| heap := heap s; requests := requests s ++ [(url, timeout)] |}).

End Interp.

(* ===================================================================== *)
(** * server_image.py                                                     *)
(* ===================================================================== *)

Module server_image.
Import Py Pillow Requests Interp.

Section Pipeline.
Context `{World}.

Definition MiB10 : Z := 10 * 1024 * 1024.

(** [download_image(url, timeout=10)] *)
Definition download_image (url : string) (timeout : option Z) : M loc :=
  let timeout := default 10 timeout in
  if negb (startswith url "http")
  then raise (ValueError "URL must start with http/https")
  else
    try_except
      (* Stream download to check headers before body *)
      (response ← requests_get_ url timeout;
       _ ← lift (raise_for_status response);
       let content_type := default ""%string (headers_get response "Content-Type") in
       if negb (startswith content_type "image/")
       then raise (ValueError ("Invalid Content-Type: " ++ content_type))
       else
         let content_length := headers_get response "Content-Length" in
         declared_too_large ←
           match content_length with
           | Some cl =>
               if truthy cl
               then n ← lift (int_of_str cl); mret (MiB10 <? n)
               else mret false
           | None => mret false
           end;
         if (declared_too_large : bool)
         then raise (ValueError "Image too large (>10MB)")
         else
           (* Download content *)
           image_data ← lift (content response);
           (* Double check size after download *)
           if MiB10 <? Z.of_nat (length image_data)
           then raise (ValueError "Image too large (>10MB)")
           else Image_open_ image_data)
      (fun e =>
         match e with
         | RequestException msg =>
             Some (raise (ValueError ("Download failed: " ++ msg)))
         | _ => None
         end).

(** [resize_image(img, target_width=384)] *)
Definition resize_image (img : loc) (target_width : option Z) : M loc :=
  let target_width := default 384 target_width in
  size ← Image_size img;
  width_percent ← lift (ival target_width / float_ (ival (fst size)))%py;
  target_height ←
    lift (int (float_ (ival (snd size)) * float_ (Ok width_percent))%py);
  (* Use LANCZOS (high quality) *)
  Image_resize img (target_width, target_height) LANCZOS.

(** The local [factor] of [adjust], and [adjust] itself, closed over
    [brightness]. *)
Definition adjust_factor (brightness : Z) (m : Z) : expr :=
  ((ival brightness - ival 128) * (ival 1 - ival m / fval 255)
   * (ival m / fval 255) * ival 2)%py.

Definition adjust (brightness : Z) (x : Z) : result Z :=
  let m := x in
  let factor := adjust_factor brightness m in
  int (max (ival 0) (min (ival 255) (ival m + factor)%py)).

(** [to_grayscale(img, brightness=127, alpha_as_white=True)] *)
Definition to_grayscale (img : loc) (brightness : option Z)
    (alpha_as_white : option bool) : M loc :=
  let brightness := default 127 brightness in
  let alpha_as_white := default true alpha_as_white in
  (* Ensure RGBA for consistency *)
  img ← Image_convert img M_RGBA None;
  (* Create a white background if handling transparency *)
  img ← (if alpha_as_white
         then
           size ← Image_size img;
           background ← Image_new M_RGBA size (255, 255, 255, 255);
           Image_alpha_composite background img
         else mret img);
  img ← Image_convert img M_L None;
  (* Adjust brightness *)
  img ← (if negb (brightness =? 128)
         then Image_point img (adjust brightness)
         else mret img);
  mret img.

(** [dither_direct(img)]: thresholds at 128 *)
Definition dither_direct (img : loc) : M loc :=
  Image_convert img M_1 (Some NONE).

(** [dither_floyd_steinberg(img)]: error diffusion *)
Definition dither_floyd_steinberg (img : loc) : M loc :=
  Image_convert img M_1 (Some FLOYDSTEINBERG).

(** [dither_halftone(img)] *)
Definition dither_halftone (img : loc) : M loc :=
  Image_convert img M_1 (Some FLOYDSTEINBERG).

(** [pack_to_pbm(img)] *)
Definition pack_to_pbm (img : loc) : M bytes :=
  mode ← Image_mode img;
  img ← (if negb (mode_eqb mode M_1)
         then Image_convert img M_1 None
         else mret img);
  '(width, height) ← Image_size img;
  (* "1;I": inverted 1 bit, so 1 (white) -> 0 and 0 (black) -> 1 *)
  data ← Image_tobytes img "raw" "1;I";
  mret (ascii ("P4" ++ LF ++ format_d width ++ " " ++ format_d height ++ LF)
        ++ data).

(** [process_image(url, algorithm='algo-steinberg')] *)
Definition process_image (url : string) (algorithm : option string) : M bytes :=
  let algorithm := default "algo-steinberg"%string algorithm in
  img ← download_image url None;
  img ← resize_image img None;
  img ← to_grayscale img None None;
  img ← (if String.eqb algorithm "algo-direct"
         then dither_direct img
         else
           (* Default to steinberg for others *)
           dither_floyd_steinberg img);
  pack_to_pbm img.

End Pipeline.

End server_image.

(* ===================================================================== *)
(** * Specification-side definitions                                      *)
(* ===================================================================== *)

Module Spec.
Import Py.

(** The digits of [n >= 0] in front of [acc], as the codes of the
    characters "0" (48) to "9", most significant first: the last digit is
    the remainder by ten, the digits before it are those of the quotient. *)
Fixpoint decimal_digits (fuel : nat) (n : Z) (acc : bytes) : bytes :=
  match fuel with
  | O => acc
  | S fuel =>
      let acc := (48 + n mod 10) :: acc in
      if n <? 10 then acc else decimal_digits fuel (n / 10) acc
  end.

(** The decimal numeral of an integer, with a minus sign (45) when it is
    negative.  A number has no more decimal digits than binary ones. *)
Definition decimal (n : Z) : bytes :=
  if n <? 0 then 45 :: decimal_digits (S (Z.to_nat (Z.log2 (- n)))) (- n) []
  else decimal_digits (S (Z.to_nat (Z.log2 n))) n [].

(** The header the specification asks for, byte by byte: "P4" (80, 52), a
    newline (10), the width and the height in decimal separated by one
    space (32), a newline.  Nothing here comes from the code. *)
Definition pbm_header (w h : Z) : list Z :=
  [80; 52; 10] ++ decimal w ++ [32] ++ decimal h ++ [10].

(** ** For the comparison of [%d] with the numeral *)

(** The digit [d] put in front of a decimal number of the Standard
    Library. *)
Definition cons_digit (d : Z) (u : Decimal.uint) : Decimal.uint :=
  match d with
  | 0 => Decimal.D0 u
  | 1 => Decimal.D1 u
  | 2 => Decimal.D2 u
  | 3 => Decimal.D3 u
  | 4 => Decimal.D4 u
  | 5 => Decimal.D5 u
  | 6 => Decimal.D6 u
  | 7 => Decimal.D7 u
  | 8 => Decimal.D8 u
  | _ => Decimal.D9 u
  end.

(** The digits of [n], least significant first. *)
Fixpoint little_digits (fuel : nat) (n : Z) : Decimal.uint :=
  match fuel with
  | O => Decimal.Nil
  | S fuel =>
      cons_digit (n mod 10) (if n <? 10 then Decimal.Nil else little_digits fuel (n / 10))
  end.

(** The invariant of the scan of [Pillow.pack_step] over a prefix [p] of a
    row: the bytes flushed so far are the full groups of eight pixels, the
    mask sits on the bit of the next pixel, the open byte has no bit set at
    or below the mask, and every pixel seen so far has its bit where the
    format wants it, most significant bit first. *)
Definition pack_inv (ink : Z -> bool) (p : list Z) (st : list Z * Z * Z) : Prop :=
  let '(out, b, m) := st in
  let n := length p in
  length out = (n / 8)%nat /\
  m = 2 ^ (7 - Z.of_nat (n mod 8)) /\
  (forall j, 0 <= j <= 7 - Z.of_nat (n mod 8) -> Z.testbit b j = false) /\
  (forall (x : nat) v, p !! x = Some v ->
     if decide (x / 8 < n / 8)%nat
     then exists byte, out !! (x / 8)%nat = Some byte /\
                       Z.testbit byte (7 - Z.of_nat (x mod 8)) = ink v
     else Z.testbit b (7 - Z.of_nat (x mod 8)) = ink v).

(** [round(a / b)] for integers [a >= 0] and [b > 0]: the nearest integer,
    a tie going to the even one (Python's [round]). *)
Definition round_div (a b : Z) : Z :=
  let q := a / b in
  let r := a mod b in
  if 2 * r <? b then q
  else if b <? 2 * r then q + 1
  else if Z.even q then q else q + 1.



(** A stateless dither: the output at column [x] of row [y] is a function
    [rule] of [x mod 4], [y mod 4] and the grey value there, such as the
    comparison with an entry of a 4x4 threshold matrix. *)
Definition stateless_dither (rule : nat -> nat -> Z -> Z) (rows : list (list Z))
    : list (list Z) :=
  imap (fun y row => imap (fun x v => rule (x mod 4)%nat (y mod 4)%nat v) row) rows.

(** What the packer returns for an image, whatever reference holds it. *)
Definition packed (img : Pillow.Image) : result bytes :=
  img' ← (if Pillow.mode_eqb (Pillow.mode img) Pillow.M_1 then Ok img
          else Pillow.convert img Pillow.M_1 None);
  data ← Pillow.tobytes_raw img' "1;I";
  Ok (pbm_header (Pillow.xsize img') (Pillow.ysize img') ++ data).


(** The value of a single-band image at column [x] of row [y]. *)
Definition pixel_at (img : Pillow.Image) (x y : nat) : option Z :=
  match Pillow.im img with
  | Pillow.image8 rows => row ← rows !! y; row !! x
  | Pillow.image32 _ => None
  end.

(** Tests on results, for checks by evaluation. *)
Definition result_Z_eqb (r : result Z) (n : Z) : bool :=
  match r with
  | Ok v => v =? n
  | Raise _ => false
  end.

Definition factor_is_zero (e : expr) : bool :=
  match e with
  | Ok (Float x) => is_zero x
  | _ => false
  end.

(** ** For the analysis of binary64 rounding *)

(** Where a remainder [r] of a division by [d] lies between two
    consecutive quotients: on the lower one, or below, at or above the
    middle. *)
Definition loc_of (r d : Z) : location :=
  if r =? 0 then loc_Exact else loc_Inexact (2 * r ?= d).

(** A shift record holds the quotient [N / D] and, in its round and sticky
    bits, the place of the remainder. *)
Definition shr_inv (N D : Z) (mrs : shr_record) : Prop :=
  shr_m mrs = N / D /\
  shr_r mrs = (D <=? 2 * (N mod D)) /\
  shr_s mrs = negb (N mod D =? 0) && negb (2 * (N mod D) =? D).

(** The value of a finite float times [2 ^ 1074], an integer (no double
    has bits below [2 ^ -1074]). *)
Definition scaled (x : float) : Z :=
  match x with
  | S754_finite s m e => (if s then -1 else 1) * (Z.pos m * 2 ^ (e + 1074))
  | _ => 0
  end.

(** A positive float with a full 53-bit mantissa and an exponent between
    [lo] and [hi]. *)
Definition normal (x : float) (lo hi : Z) : Prop :=
  exists (m : positive) (e : Z),
    x = S754_finite false m e /\ 2 ^ 52 <= Z.pos m < 2 ^ 53 /\ lo <= e <= hi.

End Spec.

(* ===================================================================== *)
(** * Concrete inputs                                                     *)
(* ===================================================================== *)

Module Examples.
Import Py Pillow Requests Interp.

Definition grey (w h : Z) (rows : list (list Z)) : Image :=
  {| mode := M_L; size := (w, h); im := image8 rows |}.

Definition bilevel (w h : Z) (rows : list (list Z)) : Image :=
  {| mode := M_1; size := (w, h); im := image8 rows |}.

Definition rgba (w h : Z) (rows : list (list pixel32)) : Image :=
  {| mode := M_RGBA; size := (w, h); im := image32 rows |}.

Definition white_8x1 : Image := grey 8 1 [replicate 8 255].
Definition black_8x1 : Image := grey 8 1 [replicate 8 0].

(** A 10x2 bilevel raster: the last byte of each row is padded. *)
Definition bilevel_10x2 : Image :=
  bilevel 10 2 [[0; 0; 0; 0; 0; 0; 0; 0; 255; 0];
                [0; 255; 255; 0; 0; 0; 0; 0; 255; 0]].

(** A 10x2 grey raster around the threshold. *)
Definition grey_10x2 : Image :=
  grey 10 2 [[0; 0; 0; 0; 0; 0; 0; 0; 200; 100];
             [127; 128; 129; 0; 0; 0; 0; 0; 200; 100]].

(** An 8x7 grey raster, all black. *)
Definition grey_8x7 : Image := grey 8 7 (replicate 7 (replicate 8 0)).

(** Two grey rows that agree at column 1 and differ at column 0. *)
Definition grey_100_100 : Image := grey 2 1 [[100; 100]].
Definition grey_200_100 : Image := grey 2 1 [[200; 100]].

(** One opaque mid-grey pixel. *)
Definition mid_grey_pixel : Image := rgba 1 1 [[(128, 128, 128, 255)]].

(** An interpreter state holding one image, nothing requested yet. *)
Definition holding (img : Image) : state :=
  {| heap := [img]; requests := [] |}.

(** A resampling filter that paints every pixel black; only the size of
    its result matters below.  Like the library's, it has no memory for an
    image of more than [2 ^ 24] pixels a side. *)
Definition blank (filter : Resampling) (img : Image) (sz : Z * Z) : result storage :=
  if (2 ^ 24 <? fst sz) || (2 ^ 24 <? snd sz)
  then Raise (MemoryError "")
  else
    match im img with
    | image8 _ =>
        Ok (image8 (replicate (Z.to_nat (snd sz)) (replicate (Z.to_nat (fst sz)) 0)))
    | image32 _ =>
        Ok (image32 (replicate (Z.to_nat (snd sz))
                       (replicate (Z.to_nat (fst sz)) (0, 0, 0, 255))))
    end.

(** A world without network: every request fails in the client. *)
Definition offline : World :=
  {| requests_get := fun _ _ => Raise (RequestException "connection refused");
     Image_open := fun _ => Raise (OSError "cannot identify image file");
     int_of_str := fun _ => Raise (ValueError "invalid literal for int()");
     resample := blank |}.

(** A world whose server answers every request with the same body, which
    decodes to the given image. *)
Definition serving (img : Image) : World :=
  {| requests_get := fun _ _ =>
       Ok {| raise_for_status := Ok tt;
             headers_get := fun k =>
               if String.eqb k "Content-Type" then Some "image/png"%string
               else None;
             content := Ok [137; 80; 78; 71] |};
     Image_open := fun _ => Ok img;
     int_of_str := fun _ => Raise (ValueError "invalid literal for int()");
     resample := blank |}.

(** The image a stage returns when it is run on a state holding [img]. *)
Definition dithered (stage : loc -> M loc) (img : Image) : option Image :=
  match stage 0%nat (holding img) with
  | (Ok r, s) => heap s !! r
  | _ => None
  end.

End Examples.

(* ===================================================================== *)
(** * The stages as functions of images                                   *)
(* ===================================================================== *)

Module Stages.
Import Py Pillow Requests Interp server_image Spec.

(** A pixel of a bilevel raster as Pillow stores it. *)
Definition two_level (v : Z) : Prop := v = 0 \/ v = 255.

Definition white : pixel32 := (255, 255, 255, 255).

(** An opaque pixel that is pure black or pure white. *)
Definition black_or_white (p : pixel32) : Prop :=
  p = (0, 0, 0, 255) \/ p = (255, 255, 255, 255).

(** [s'] is [s] with more objects allocated and no request made. *)
Definition extends (s s' : state) : Prop :=
  requests s' = requests s /\ exists more, heap s' = heap s ++ more.

(** A stage that returns a reference [runs] to the image [res] when, from
    the state [s], it allocates objects, leaves the existing ones and the
    request log alone, and returns a reference to [res]; or raises what
    [res] raises. *)
Definition runs (m : M loc) (s : state) (res : result Image) : Prop :=
  exists s', extends s s' /\
    match res with
    | Ok g => exists r', m s = (Ok r', s') /\ heap s' !! r' = Some g
    | Raise e => m s = (Raise e, s')
    end.

Section Denotations.
Context `{World}.

(** What [resize_image], [to_grayscale] and the ditherers compute from the
    image behind their argument: the bodies of the functions with the
    references taken away. *)
Definition resized (img : Image) (target_width : Z) : result Image :=
  width_percent ← (ival target_width / float_ (ival (xsize img)))%py;
  target_height ← int (float_ (ival (ysize img)) * float_ (Ok width_percent))%py;
  resize resample img (target_width, target_height) LANCZOS.

Definition grayscale_of (img : Image) (brightness : Z) (alpha_as_white : bool)
    : result Image :=
  img ← convert img M_RGBA None;
  img ← (if alpha_as_white
         then background ← new M_RGBA (size img) white;
              alpha_composite background img
         else Ok img);
  img ← convert img M_L None;
  if negb (brightness =? 128)
  then point img (adjust brightness)
  else Ok img.

(** The outside capabilities return well-formed images: the decoder, and
    the resampling filter when asked for a size that is not negative. *)
Definition World_wf : Prop :=
  (forall data img, Image_open data = Ok img -> wf_image img) /\
  (forall filter img sz st,
     wf_image img -> 0 <= fst sz -> 0 <= snd sz ->
     resample filter img sz = Ok st ->
     wf_image {| mode := mode img; size := sz; im := st |}).

(** What the body of the [try] of [download_image] decides about a
    response: the decoded image, or the exception. *)
Definition fetched (url : string) (timeout : Z) : result Image :=
  response ← requests_get url timeout;
  _ ← raise_for_status response;
  let content_type := default ""%string (headers_get response "Content-Type") in
  if negb (startswith content_type "image/")
  then Raise (ValueError ("Invalid Content-Type: " ++ content_type))
  else
    declared_too_large ←
      match headers_get response "Content-Length" with
      | Some cl =>
          if truthy cl
          then n ← int_of_str cl; Ok (MiB10 <? n)
          else Ok false
      | None => Ok false
      end;
    if (declared_too_large : bool)
    then Raise (ValueError "Image too large (>10MB)")
    else
      image_data ← content response;
      if MiB10 <? Z.of_nat (length image_data)
      then Raise (ValueError "Image too large (>10MB)")
      else Image_open image_data.

(** The state after one request, with or without a new object. *)
Definition requested (s : state) (url : string) (timeout : Z) (new : list Image)
    : state :=
  {| heap := heap s ++ new; requests := requests s ++ [(url, timeout)] |}.

(** What [process_image] makes of a decoded image. *)
Definition rendered (img : Image) (algorithm : string) : result bytes :=
  img ← resized img 384;
  img ← grayscale_of img 127 true;
  img ← convert img M_1
          (Some (if String.eqb algorithm "algo-direct" then NONE else FLOYDSTEINBERG));
  packed img.

End Denotations.

End Stages.

(* ===================================================================== *)
(** * More concrete inputs                                                *)
(* ===================================================================== *)

Module Inputs.
Import Py Pillow Requests Interp Examples.

(** One transparent pixel and one opaque red pixel. *)
Definition clear_and_red : Image :=
  rgba 2 1 [[(10, 20, 30, 0); (255, 0, 0, 255)]].

(** Python's [int()] on a decimal literal. *)
Definition int_of_decimal (s : string) : result Z :=
  match NilZero.int_of_string s with
  | Some d => Ok (Z.of_int d)
  | None => Raise (ValueError "invalid literal for int() with base 10")
  end.

(** A world whose server answers every request with status 200, the given
    headers and the given body; every body decodes to one grey pixel. *)
Definition answering (hdrs : string -> option string) (body : result bytes) : World :=
  {| requests_get := fun _ _ =>
       Ok {| raise_for_status := Ok tt; headers_get := hdrs; content := body |};
     Image_open := fun _ => Ok mid_grey_pixel;
     int_of_str := int_of_decimal;
     resample := blank |}.

Definition html_headers (k : string) : option string :=
  if String.eqb k "Content-Type" then Some "text/html"%string else None.

Definition huge_png_headers (k : string) : option string :=
  if String.eqb k "Content-Type" then Some "image/png"%string
  else if String.eqb k "Content-Length" then Some "20000000"%string
  else None.

(** Headers of a PNG image whose length is not a number. *)
Definition odd_length_headers (k : string) : option string :=
  if String.eqb k "Content-Type" then Some "image/png"%string
  else if String.eqb k "Content-Length" then Some "12 bytes"%string
  else None.

(** What follows the first "://" of a URL. *)
Fixpoint after_slashes (url : string) : string :=
  match url with
  | String ":" (String "/" (String "/" rest)) => rest
  | String _ rest => after_slashes rest
  | EmptyString => EmptyString
  end.

(** A network on which every request that is sent is answered with a PNG
    image. *)
Definition cat_server : Network :=
  {| refusal := fun url => ("No connection adapters were found for '" ++ url ++ "'")%string;
     netloc_path := fun url => inl (after_slashes url);
     send := fun _ _ =>
       Ok {| raise_for_status := Ok tt;
             headers_get := fun k =>
               if String.eqb k "Content-Type" then Some "image/png"%string else None;
             content := Ok [137; 80; 78; 71] |} |}.

(** A white row of 384 grey pixels. *)
Definition white_row : Image := grey 384 1 [replicate 384 255].

(** A 10x1 line drawing: black, white, black, ... *)
Definition stripes : Image :=
  {| mode := M_RGB; size := (10, 1);
     im := image32 [[(0, 0, 0, 255); (255, 255, 255, 255); (0, 0, 0, 255);
                     (255, 255, 255, 255); (0, 0, 0, 255); (255, 255, 255, 255);
                     (0, 0, 0, 255); (255, 255, 255, 255); (0, 0, 0, 255);
                     (255, 255, 255, 255)]] |}.

End Inputs.

(* ===================================================================== *)
(** * Theorems                                                            *)
(* ===================================================================== *)

Import Py Pillow Requests Interp server_image Spec Examples.

Ltac Zify.zify_post_hook ::= Z.div_mod_to_equations.

(** ** Decimal numerals

    [%d] is embedded with the conversions of the Standard Library, which
    double a decimal number bit by bit; the numeral of the specification
    divides by ten.  They write the same digits. *)

Lemma digit_cases (d : Z) :
  0 <= d < 10 ->
  d = 0 \/ d = 1 \/ d = 2 \/ d = 3 \/ d = 4 \/ d = 5 \/ d = 6 \/ d = 7 \/ d = 8 \/ d = 9.
Proof. lia. Qed.

Ltac each_digit d H :=
  destruct (digit_cases d H) as [-> | [-> | [-> | [-> | [-> | [-> | [-> | [-> | [-> | ->]]]]]]]]].

Lemma ascii_app (s1 s2 : string) : ascii (s1 ++ s2) = ascii s1 ++ ascii s2.
Proof.
  unfold ascii. induction s1 as [|c s1 IH]; [reflexivity|].
  cbn [String.append list_ascii_of_string map app]. f_equal. exact IH.
Qed.

Lemma ascii_cons_digit (d : Z) (u : Decimal.uint) :
  0 <= d < 10 ->
  ascii (NilEmpty.string_of_uint (cons_digit d u)) =
    (48 + d) :: ascii (NilEmpty.string_of_uint u).
Proof. intros Hd. each_digit d Hd; reflexivity. Qed.

Lemma revapp_cons_digit (d : Z) (l acc : Decimal.uint) :
  Decimal.revapp (cons_digit d l) acc = Decimal.revapp l (cons_digit d acc).
Proof. unfold cons_digit. destruct d as [|[[[|[]|]|[[]|[]|]|]|[[|[]|]|[[]|[]|]|]|]|]; reflexivity. Qed.

Lemma of_lu_cons_digit (d : Z) (l : Decimal.uint) :
  0 <= d < 10 ->
  Z.of_N (DecimalPos.Unsigned.of_lu (cons_digit d l)) = d + 10 * Z.of_N (DecimalPos.Unsigned.of_lu l).
Proof. intros Hd. each_digit d Hd; cbn [cons_digit DecimalPos.Unsigned.of_lu]; lia. Qed.

Lemma unorm_cons_digit (d : Z) (u : Decimal.uint) :
  1 <= d < 10 -> Decimal.unorm (cons_digit d u) = cons_digit d u.
Proof.
  intros Hd. assert (H : 0 <= d < 10) by lia.
  each_digit d H; try reflexivity. lia.
Qed.

(** The digits written in front of [acc], most significant first, are the
    digits least significant first, turned round. *)
Lemma decimal_digits_revapp (fuel : nat) : forall (n : Z) (acc : Decimal.uint),
  0 <= n ->
  decimal_digits fuel n (ascii (NilEmpty.string_of_uint acc)) =
    ascii (NilEmpty.string_of_uint (Decimal.revapp (little_digits fuel n) acc)).
Proof.
  induction fuel as [|fuel IH]; intros n acc Hn; [reflexivity|].
  cbn [decimal_digits little_digits]. rewrite revapp_cons_digit.
  rewrite <- (ascii_cons_digit (n mod 10) acc) by lia.
  destruct (n <? 10); [reflexivity|]. apply IH. lia.
Qed.

Lemma little_digits_value (fuel : nat) : forall n : Z,
  0 <= n < 2 ^ Z.of_nat fuel ->
  Z.of_N (DecimalPos.Unsigned.of_lu (little_digits fuel n)) = n.
Proof.
  induction fuel as [|fuel IH]; intros n Hn.
  - cbn in *. lia.
  - cbn [little_digits]. rewrite of_lu_cons_digit by lia.
    destruct (Z.ltb_spec n 10) as [Hlt|Hge].
    + cbn [DecimalPos.Unsigned.of_lu]. lia.
    + rewrite IH; [lia|]. rewrite Nat2Z.inj_succ, Z.pow_succ_r in Hn by lia. lia.
Qed.

(** The most significant digit is not 0. *)
Lemma little_digits_unorm (fuel : nat) : forall (n : Z) (acc : Decimal.uint),
  1 <= n < 2 ^ Z.of_nat fuel ->
  Decimal.unorm (Decimal.revapp (little_digits fuel n) acc) =
    Decimal.revapp (little_digits fuel n) acc /\
  Decimal.revapp (little_digits fuel n) acc <> Decimal.Nil.
Proof.
  induction fuel as [|fuel IH]; intros n acc Hn.
  - cbn in Hn. lia.
  - cbn [little_digits]. rewrite revapp_cons_digit.
    destruct (Z.ltb_spec n 10) as [Hlt|Hge].
    + cbn [Decimal.revapp]. rewrite Z.mod_small by lia. split.
      * apply unorm_cons_digit. lia.
      * assert (H : 0 <= n < 10) by lia. each_digit n H; discriminate.
    + apply IH. rewrite Nat2Z.inj_succ, Z.pow_succ_r in Hn by lia. lia.
Qed.

Lemma fuel_enough (n : Z) : 1 <= n -> 1 <= n < 2 ^ Z.of_nat (S (Z.to_nat (Z.log2 n))).
Proof.
  intros Hn. split; [exact Hn|].
  rewrite Nat2Z.inj_succ, Z2Nat.id by apply Z.log2_nonneg.
  apply Z.log2_spec. lia.
Qed.

Lemma to_uint_little_digits (p : positive) :
  Pos.to_uint p =
    Decimal.revapp (little_digits (S (Z.to_nat (Z.log2 (Z.pos p)))) (Z.pos p)) Decimal.Nil.
Proof.
  set (fuel := S (Z.to_nat (Z.log2 (Z.pos p)))).
  pose proof (fuel_enough (Z.pos p) ltac:(lia)) as Hfuel. fold fuel in Hfuel.
  destruct (little_digits_unorm fuel (Z.pos p) Decimal.Nil Hfuel) as [Hnorm _].
  fold (Decimal.rev (little_digits fuel (Z.pos p))) in *.
  change (Pos.to_uint p) with (N.to_uint (N.pos p)).
  rewrite <- Hnorm, <- DecimalN.Unsigned.to_of. f_equal.
  change (N.of_uint ?u) with (Pos.of_uint u).
  rewrite DecimalPos.Unsigned.of_lu_rev. apply N2Z.inj.
  rewrite little_digits_value by lia. reflexivity.
Qed.

Lemma format_d_pos (p : positive) :
  ascii (NilZero.string_of_uint (Pos.to_uint p)) =
    decimal_digits (S (Z.to_nat (Z.log2 (Z.pos p)))) (Z.pos p) [].
Proof.
  rewrite to_uint_little_digits.
  set (fuel := S (Z.to_nat (Z.log2 (Z.pos p)))).
  pose proof (fuel_enough (Z.pos p) ltac:(lia)) as Hfuel. fold fuel in Hfuel.
  destruct (little_digits_unorm fuel (Z.pos p) Decimal.Nil Hfuel) as [_ Hnil].
  change (@nil Z) with (ascii (NilEmpty.string_of_uint Decimal.Nil)).
  rewrite decimal_digits_revapp by lia.
  unfold NilZero.string_of_uint.
  destruct (Decimal.revapp (little_digits fuel (Z.pos p)) Decimal.Nil);
    [contradiction | reflexivity ..].
Qed.

(** [%d] writes the decimal numeral. *)
Lemma format_d_decimal (n : Z) : ascii (format_d n) = decimal n.
Proof.
  unfold format_d, decimal. destruct n as [|p|p].
  - reflexivity.
  - cbn [Z.to_int NilZero.string_of_int]. change (Z.pos p <? 0) with false.
    apply format_d_pos.
  - cbn [Z.to_int NilZero.string_of_int]. change (Z.neg p <? 0) with true.
    cbn [Z.opp]. change (ascii (String "-" ?s)) with (45 :: ascii s).
    f_equal. apply format_d_pos.
Qed.

(** The bytes that [pack_to_pbm] puts before the raster are the header of
    the specification. *)
Lemma header_bytes (w h : Z) :
  ascii ("P4" ++ LF ++ format_d w ++ " " ++ format_d h ++ LF) = pbm_header w h.
Proof.
  rewrite !ascii_app, !format_d_decimal. reflexivity.
Qed.

(** ** Running monadic code *)

Lemma run_bind {A B : Type} (m : M A) (k : A -> M B) (s : state) :
  (m ≫= k) s =
  match m s with
  | (Ok a, s') => k a s'
  | (Raise e, s') => (Raise e, s')
  end.
Proof. reflexivity. Qed.

Lemma run_bind_ok {A B : Type} (m : M A) (k : A -> M B) (s s' : state) (a : A) :
  m s = (Ok a, s') -> (m ≫= k) s = k a s'.
Proof. intros Hm. rewrite run_bind, Hm. reflexivity. Qed.

Lemma run_bind_raise {A B : Type} (m : M A) (k : A -> M B) (s s' : state) e :
  m s = (Raise e, s') -> (m ≫= k) s = (Raise e, s').
Proof. intros Hm. rewrite run_bind, Hm. reflexivity. Qed.

Lemma run_deref (s : state) (r : loc) (img : Image) :
  heap s !! r = Some img -> deref r s = (Ok img, s).
Proof. intros Hr. unfold deref. rewrite Hr. reflexivity. Qed.

Lemma run_Image_mode s r img :
  heap s !! r = Some img -> Image_mode r s = (Ok (mode img), s).
Proof. intros Hr. unfold Image_mode. erewrite run_bind_ok by (apply run_deref, Hr). reflexivity. Qed.

Lemma run_Image_size s r img :
  heap s !! r = Some img -> Image_size r s = (Ok (size img), s).
Proof. intros Hr. unfold Image_size. erewrite run_bind_ok by (apply run_deref, Hr). reflexivity. Qed.

Lemma run_Image_tobytes s r img rawmode :
  heap s !! r = Some img ->
  Image_tobytes r "raw" rawmode s = (tobytes_raw img rawmode, s).
Proof. intros Hr. unfold Image_tobytes. erewrite run_bind_ok by (apply run_deref, Hr). reflexivity. Qed.

Lemma run_Image_convert s r img to dither :
  heap s !! r = Some img ->
  Image_convert r to dither s =
  match convert img to dither with
  | Ok img' => (Ok (length (heap s)), {| heap := heap s ++ [img']; requests := requests s |})
  | Raise e => (Raise e, s)
  end.
Proof.
  intros Hr. unfold Image_convert. erewrite run_bind_ok by (apply run_deref, Hr).
  rewrite run_bind. unfold lift. destruct (convert img to dither); reflexivity.
Qed.

(** ** The row packer of Pack.c *)

Section Pack.
Variable ink : Z -> bool.

Lemma pack_inv_nil : pack_inv ink [] ([], 0, 128).
Proof.
  repeat split; try reflexivity.
  - intros j _. apply Z.testbit_0_l.
  - intros x v Hx. rewrite lookup_nil in Hx. discriminate.
Qed.

Lemma testbit_lor_pow2 b e j :
  0 <= e -> Z.testbit (Z.lor b (2 ^ e)) j = Z.testbit b j || (e =? j).
Proof. intros He. rewrite Z.lor_spec, Z.pow2_bits_eqb by lia. reflexivity. Qed.

Lemma pack_inv_step p st v :
  pack_inv ink p st -> pack_inv ink (p ++ [v]) (pack_step ink st v).
Proof.
  destruct st as [[out b] m]. unfold pack_inv, pack_step.
  intros (Hlen & Hm & Hz & Hbits).
  rewrite length_app. simpl length.
  remember (length p) as n eqn:Hn.
  set (b' := if ink v then Z.lor b m else b).
  assert (Hk : (n mod 8 < 8)%nat) by (apply Nat.mod_upper_bound; lia).
  assert (Hb'z : forall j, 0 <= j < 7 - Z.of_nat (n mod 8) -> Z.testbit b' j = false).
  { intros j Hj. unfold b'. destruct (ink v); [|apply Hz; lia].
    rewrite Hm, testbit_lor_pow2 by lia. rewrite Hz by lia.
    rewrite orb_false_l. apply Z.eqb_neq. lia. }
  assert (Hb'n : Z.testbit b' (7 - Z.of_nat (n mod 8)) = ink v).
  { unfold b'. destruct (ink v); [|apply Hz; lia].
    rewrite Hm, testbit_lor_pow2 by lia. rewrite Z.eqb_refl. apply orb_true_r. }
  assert (Hb'old : forall j, 7 - Z.of_nat (n mod 8) < j -> Z.testbit b' j = Z.testbit b j).
  { intros j Hj. unfold b'. destruct (ink v); [|reflexivity].
    rewrite Hm, testbit_lor_pow2 by lia.
    replace (7 - Z.of_nat (n mod 8) =? j) with false by (symmetry; apply Z.eqb_neq; lia).
    apply orb_false_r. }
  assert (Hcur : forall (x : nat) w, (p ++ [v]) !! x = Some w -> (x / 8 = n / 8)%nat ->
             Z.testbit b' (7 - Z.of_nat (x mod 8)) = ink w).
  { intros x w Hx Hq.
    destruct (decide (x < n)%nat) as [Hlt|Hge].
    - rewrite lookup_app_l in Hx by lia.
      specialize (Hbits x w Hx). destruct (decide (x / 8 < n / 8)%nat); [lia|].
      rewrite Hb'old; [exact Hbits|]. lia.
    - assert (x = n).
      { apply lookup_lt_Some in Hx. rewrite length_app in Hx. simpl in Hx. lia. }
      subst x. rewrite lookup_app_r in Hx by lia. rewrite Hn, Nat.sub_diag in Hx.
      simpl in Hx. injection Hx as <-. exact Hb'n. }
  assert (Hold : forall (x : nat) w, (p ++ [v]) !! x = Some w -> (x / 8 < n / 8)%nat ->
             exists byte, out !! (x / 8)%nat = Some byte /\
                          Z.testbit byte (7 - Z.of_nat (x mod 8)) = ink w).
  { intros x w Hx Hq.
    assert (x < n)%nat by lia.
    rewrite lookup_app_l in Hx by lia.
    specialize (Hbits x w Hx). destruct (decide (x / 8 < n / 8)%nat); [exact Hbits|lia]. }
  destruct (decide (n mod 8 = 7)%nat) as [H7|H7].
  - (* the byte is complete and flushed *)
    assert (Hm1 : Z.shiftr m 1 = 0) by (rewrite Hm, H7; reflexivity).
    fold b'. rewrite Hm1, Z.eqb_refl. cbv beta iota zeta.
    assert (Hn1 : ((n + 1) mod 8 = 0)%nat) by lia.
    assert (Hq1 : ((n + 1) / 8 = n / 8 + 1)%nat) by lia.
    rewrite Hn1, Hq1. repeat split.
    + rewrite length_app, Hlen. reflexivity.
    + intros j _. apply Z.testbit_0_l.
    + intros x w Hx.
      assert (x < n + 1)%nat.
      { apply lookup_lt_Some in Hx. rewrite length_app in Hx. simpl in Hx. lia. }
      destruct (decide (x / 8 < n / 8 + 1)%nat); [|lia].
      destruct (decide (x / 8 < n / 8)%nat) as [Hq|Hq].
      * destruct (Hold x w Hx Hq) as (byte & Hb & Ht).
        exists byte. split; [|exact Ht]. rewrite lookup_app_l by lia. exact Hb.
      * assert (Heq : (x / 8 = n / 8)%nat) by lia.
        exists b'. split; [|exact (Hcur x w Hx Heq)].
        rewrite Heq, <- Hlen. rewrite lookup_app_r by lia.
        rewrite Nat.sub_diag. reflexivity.
  - (* the byte is still open *)
    assert (Hn1 : ((n + 1) mod 8 = n mod 8 + 1)%nat) by lia.
    assert (Hq1 : ((n + 1) / 8 = n / 8)%nat) by lia.
    assert (Hm1 : Z.shiftr m 1 = 2 ^ (7 - Z.of_nat (n mod 8 + 1))).
    { rewrite Hm, Z.shiftr_div_pow2 by lia.
      replace (7 - Z.of_nat (n mod 8)) with (7 - Z.of_nat (n mod 8 + 1) + 1) by lia.
      rewrite Z.pow_add_r by lia. apply Z.div_mul. lia. }
    fold b'. rewrite Hm1.
    assert (Hne : (2 ^ (7 - Z.of_nat (n mod 8 + 1)) =? 0) = false).
    { apply Z.eqb_neq. apply Z.pow_nonzero; lia. }
    rewrite Hne. cbv beta iota zeta. rewrite Hn1, Hq1. repeat split.
    + exact Hlen.
    + intros j Hj. apply Hb'z. lia.
    + intros x w Hx.
      destruct (decide (x / 8 < n / 8)%nat) as [Hq|Hq].
      * exact (Hold x w Hx Hq).
      * assert (x < n + 1)%nat.
        { apply lookup_lt_Some in Hx. rewrite length_app in Hx. simpl in Hx. lia. }
        apply (Hcur x w Hx). lia.
Qed.

Lemma pack_inv_fold p :
  pack_inv ink p (fold_left (pack_step ink) p ([], 0, 128)).
Proof.
  induction p as [|v p IH] using rev_ind.
  - apply pack_inv_nil.
  - rewrite fold_left_app. simpl. apply pack_inv_step, IH.
Qed.

Lemma pack_row_length row :
  length (pack_row ink row) = ((length row + 7) / 8)%nat.
Proof.
  unfold pack_row. pose proof (pack_inv_fold row) as Hinv.
  destruct (fold_left (pack_step ink) row ([], 0, 128)) as [[out b] m].
  destruct Hinv as (Hlen & Hm & _ & _).
  assert (Hk : (length row mod 8 < 8)%nat) by (apply Nat.mod_upper_bound; lia).
  destruct (decide (length row mod 8 = 0)%nat) as [H0|H0].
  - rewrite Hm, H0. change (2 ^ (7 - Z.of_nat 0) =? 128) with true.
    cbv iota. rewrite Hlen. lia.
  - replace (m =? 128) with false.
    + rewrite length_app, Hlen. cbn [length]. lia.
    + symmetry. apply Z.eqb_neq. rewrite Hm.
      change 128 with (2 ^ 7). intros Heq.
      apply Z.pow_inj_r in Heq; lia.
Qed.

Lemma pack_row_bit row (x : nat) v :
  row !! x = Some v ->
  exists byte, pack_row ink row !! (x / 8)%nat = Some byte /\
               Z.testbit byte (7 - Z.of_nat (x mod 8)) = ink v.
Proof.
  intros Hx. unfold pack_row. pose proof (pack_inv_fold row) as Hinv.
  destruct (fold_left (pack_step ink) row ([], 0, 128)) as [[out b] m].
  destruct Hinv as (Hlen & Hm & _ & Hbits).
  specialize (Hbits x v Hx).
  assert (Hxn : (x < length row)%nat) by (eapply lookup_lt_Some; eauto).
  destruct (decide (x / 8 < length row / 8)%nat) as [Hq|Hq].
  - destruct Hbits as (byte & Hb & Ht). exists byte. split; [|exact Ht].
    destruct (m =? 128); [exact Hb|]. rewrite lookup_app_l by lia. exact Hb.
  - assert (Hk : (length row mod 8 <> 0)%nat) by lia.
    replace (m =? 128) with false.
    + exists b. split; [|exact Hbits].
      rewrite lookup_app_r by lia.
      replace (x / 8 - length out)%nat with 0%nat by lia. reflexivity.
    + symmetry. apply Z.eqb_neq. rewrite Hm.
      change 128 with (2 ^ 7). intros Heq.
      apply Z.pow_inj_r in Heq; lia.
Qed.
End Pack.

(** Packing an image that is already bilevel. *)
Lemma pack_to_pbm_bilevel s r img :
  heap s !! r = Some img -> mode img = M_1 ->
  pack_to_pbm r s =
  match tobytes_raw img "1;I" with
  | Ok data => (Ok (pbm_header (xsize img) (ysize img) ++ data), s)
  | Raise e => (Raise e, s)
  end.
Proof.
  intros Hr Hmode. unfold pack_to_pbm.
  erewrite run_bind_ok by (apply run_Image_mode, Hr).
  rewrite Hmode. cbn [mode_eqb negb].
  erewrite run_bind_ok by reflexivity.
  erewrite run_bind_ok by (apply run_Image_size, Hr).
  destruct (size img) as [w h] eqn:Hsz.
  rewrite run_bind, (run_Image_tobytes _ _ _ _ Hr).
  unfold xsize, ysize. rewrite Hsz. cbn [fst snd].
  destruct (tobytes_raw img "1;I"); [|reflexivity].
  cbv [mret M_ret]. rewrite header_bytes. reflexivity.
Qed.

Lemma length_concat_uniform {A : Type} (k : nat) (ls : list (list A)) :
  Forall (fun l => length l = k) ls -> length (concat ls) = (length ls * k)%nat.
Proof.
  induction 1 as [|l ls Hl _ IH]; [reflexivity|].
  cbn [concat]. rewrite length_app, IH, Hl. cbn [length]. lia.
Qed.

Lemma lookup_concat_uniform {A : Type} (k : nat) (ls : list (list A)) (y i : nat) (l : list A) :
  Forall (fun l => length l = k) ls -> ls !! y = Some l -> (i < k)%nat ->
  concat ls !! (y * k + i)%nat = l !! i.
Proof.
  intros Hall. revert y. induction Hall as [|l0 ls Hl0 _ IH]; intros y Hy Hi.
  - rewrite lookup_nil in Hy. discriminate.
  - cbn [concat]. destruct y as [|y].
    + cbn in Hy. injection Hy as ->. rewrite lookup_app_l by lia. reflexivity.
    + cbn in Hy. rewrite lookup_app_r by lia.
      replace (S y * k + i - length l0)%nat with (y * k + i)%nat by lia.
      apply IH; assumption.
Qed.

Lemma pack1I_length row : length (pack1I row) = ((length row + 7) / 8)%nat.
Proof. apply pack_row_length. Qed.

(** C1.  For a bilevel raster of width [w > 0] and height [h > 0],
    [pack_to_pbm] returns the header of the specification ([pbm_header]:
    the bytes of "P4", a newline, the decimal numeral of [w], one space,
    the decimal numeral of [h], a newline), followed at once by the
    raster, each row packed on its own into [ceil(w / 8)] bytes; the output
    is as long as the header plus [h * ceil(w / 8)] bytes. *)
Theorem pack_to_pbm_layout (s : state) (r : loc) (img : Image) (rows : list (list Z)) :
  heap s !! r = Some img -> mode img = M_1 -> im img = image8 rows ->
  wf_image img -> 0 < xsize img -> 0 < ysize img ->
  let w := xsize img in
  let h := ysize img in
  let row_bytes := (w + 7) / 8 in
  let data := concat (map pack1I rows) in
  pack_to_pbm r s = (Ok (pbm_header w h ++ data), s) /\
  8 * (row_bytes - 1) < w <= 8 * row_bytes /\
  Forall (fun row => Z.of_nat (length (pack1I row)) = row_bytes) rows /\
  Z.of_nat (length (pbm_header w h ++ data)) =
    Z.of_nat (length (pbm_header w h)) + h * row_bytes.
Proof.
  intros Hr Hmode Him Hwf Hw Hh w h row_bytes data.
  unfold wf_image in Hwf. rewrite Hmode, Him in Hwf.
  destruct Hwf as [[Hrows Hcols] _]. fold (xsize img) in Hcols. fold (ysize img) in Hrows.
  assert (Hlens : Forall (fun row => Z.of_nat (length (pack1I row)) = row_bytes) rows).
  { eapply Forall_impl; [exact Hcols|]. intros row Hrow. cbn beta in Hrow.
    rewrite pack1I_length. unfold row_bytes, w. lia. }
  repeat split.
  - rewrite (pack_to_pbm_bilevel s r img Hr Hmode). unfold tobytes_raw.
    replace (xsize img =? 0) with false by (symmetry; apply Z.eqb_neq; lia).
    replace (ysize img =? 0) with false by (symmetry; apply Z.eqb_neq; lia).
    rewrite Hmode, Him. reflexivity.
  - unfold row_bytes. lia.
  - unfold row_bytes. lia.
  - exact Hlens.
  - rewrite length_app. unfold data.
    rewrite (length_concat_uniform (Z.to_nat row_bytes)).
    + rewrite length_map. fold h in Hrows. unfold row_bytes in *. nia.
    + apply Forall_map. eapply Forall_impl; [exact Hlens|]. intros row Hrow.
      cbn beta in *. lia.
Qed.

Lemma pack_to_pbm_layout_witness :
  pack_to_pbm 0%nat (holding bilevel_10x2) =
    (Ok ([80; 52; 10; 49; 48; 32; 50; 10] ++ [255; 64; 159; 64]),
     holding bilevel_10x2) /\
  Z.of_nat (length ([80; 52; 10; 49; 48; 32; 50; 10] ++ [255; 64; 159; 64])) =
    8 + 2 * 2.
Proof.
  destruct (pack_to_pbm_layout (holding bilevel_10x2) 0%nat bilevel_10x2
              [[0; 0; 0; 0; 0; 0; 0; 0; 255; 0]; [0; 255; 255; 0; 0; 0; 0; 0; 255; 0]])
    as (Hrun & _ & _ & Hlen).
  - reflexivity.
  - reflexivity.
  - reflexivity.
  - split; [split; [reflexivity|]|]; repeat constructor; unfold byte_ok; lia.
  - reflexivity.
  - reflexivity.
  - split; [exact Hrun|exact Hlen].
Defined.

(** The header of a 384x192 bitmap, byte by byte. *)
Lemma pbm_header_384_192 :
  pbm_header 384 192 = [80; 52; 10; 51; 56; 52; 32; 49; 57; 50; 10].
Proof. reflexivity. Qed.

(** ** Direct dithering *)

Lemma convert_direct g rows :
  mode g = M_L -> im g = image8 rows ->
  convert g M_1 (Some NONE) =
  Ok {| mode := M_1; size := size g; im := image8 (map l2bit rows) |}.
Proof.
  intros Hmode Him. unfold convert, ImagingConvert, standard_convert.
  rewrite Hmode, Him. reflexivity.
Qed.

Lemma run_dither_direct s r g rows :
  heap s !! r = Some g -> mode g = M_L -> im g = image8 rows ->
  dither_direct r s =
  (Ok (length (heap s)),
   {| heap := heap s ++ [{| mode := M_1; size := size g; im := image8 (map l2bit rows) |}];
      requests := requests s |}).
Proof.
  intros Hr Hmode Him. unfold dither_direct.
  rewrite (run_Image_convert _ _ _ _ _ Hr), (convert_direct g rows Hmode Him).
  reflexivity.
Qed.

Lemma lookup_alloc (h : list Image) (img : Image) :
  (h ++ [img]) !! length h = Some img.
Proof. rewrite lookup_app_r by lia. rewrite Nat.sub_diag. reflexivity. Qed.

(** C2.  Direct dithering followed by packing: the bit of the pixel at
    column [x] of row [y] (bit [7 - x mod 8] of byte [x / 8] of row [y]) is
    1 when the grey value is below 128 and 0 when it is 128 or more.  An
    8x1 white raster packs to the one data byte 0x00, an 8x1 black raster
    to 0xFF. *)
Theorem dither_direct_pack_bits (s : state) (r : loc) (g : Image) (rows : list (list Z)) :
  heap s !! r = Some g -> mode g = M_L -> im g = image8 rows ->
  wf_image g -> 0 < xsize g -> 0 < ysize g ->
  let w := xsize g in
  let h := ysize g in
  let row_bytes := Z.to_nat ((w + 7) / 8) in
  (exists data s',
     (img ← dither_direct r; pack_to_pbm img) s = (Ok (pbm_header w h ++ data), s') /\
     forall (x y : nat) (row : list Z) (v : Z),
       rows !! y = Some row -> row !! x = Some v ->
       exists byte,
         data !! (y * row_bytes + x / 8)%nat = Some byte /\
         Z.testbit byte (7 - Z.of_nat (x mod 8)) = (v <? 128)) /\
  fst ((img ← dither_direct 0%nat; pack_to_pbm img)
         {| heap := [white_8x1]; requests := [] |}) = Ok (pbm_header 8 1 ++ [0]) /\
  fst ((img ← dither_direct 0%nat; pack_to_pbm img)
         {| heap := [black_8x1]; requests := [] |}) = Ok (pbm_header 8 1 ++ [255]).
Proof.
  intros Hr Hmode Him Hwf Hw Hh w h row_bytes.
  split; [|split; reflexivity].
  unfold wf_image in Hwf. rewrite Hmode, Him in Hwf.
  destruct Hwf as [[Hrows Hcols] _]. fold (xsize g) in Hcols. fold (ysize g) in Hrows.
  set (bi := {| mode := M_1; size := size g; im := image8 (map l2bit rows) |}).
  exists (concat (map pack1I (map l2bit rows))),
         {| heap := heap s ++ [bi]; requests := requests s |}.
  split.
  - erewrite run_bind_ok by (apply (run_dither_direct s r g rows); assumption).
    rewrite (pack_to_pbm_bilevel _ _ bi); [|apply lookup_alloc|reflexivity].
    unfold tobytes_raw. change (xsize bi) with (xsize g). change (ysize bi) with (ysize g).
    replace (xsize g =? 0) with false by (symmetry; apply Z.eqb_neq; lia).
    replace (ysize g =? 0) with false by (symmetry; apply Z.eqb_neq; lia).
    reflexivity.
  - intros x y row v Hy Hx.
    assert (Hlenrow : Z.of_nat (length row) = w).
    { exact (Forall_lookup_1 _ _ _ _ Hcols Hy). }
    assert (Hxlt : (x < length row)%nat) by (eapply lookup_lt_Some; exact Hx).
    rewrite (lookup_concat_uniform row_bytes _ y (x / 8) (pack1I (l2bit row))).
    + destruct (pack_row_bit (fun v => v =? 0) (l2bit row) x (if 128 <=? v then 255 else 0))
        as (byte & Hb & Ht).
      { unfold l2bit. rewrite list_lookup_fmap, Hx. reflexivity. }
      exists byte. split; [exact Hb|]. rewrite Ht.
      destruct (Z.leb_spec 128 v), (Z.ltb_spec v 128); try reflexivity; lia.
    + apply Forall_map, Forall_map. eapply Forall_impl; [exact Hcols|].
      intros row' Hrow'. cbn beta in *. rewrite pack1I_length.
      unfold l2bit. rewrite length_map. unfold row_bytes. lia.
    + rewrite !list_lookup_fmap, Hy. reflexivity.
    + unfold row_bytes. lia.
Qed.

Lemma dither_direct_pack_bits_witness :
  exists data s',
    (img ← dither_direct 0%nat; pack_to_pbm img) (holding grey_10x2) =
      (Ok (pbm_header 10 2 ++ data), s') /\
    forall (x y : nat) (row : list Z) (v : Z),
      [[0; 0; 0; 0; 0; 0; 0; 0; 200; 100]; [127; 128; 129; 0; 0; 0; 0; 0; 200; 100]] !! y
        = Some row ->
      row !! x = Some v ->
      exists byte,
        data !! (y * 2 + x / 8)%nat = Some byte /\
        Z.testbit byte (7 - Z.of_nat (x mod 8)) = (v <? 128).
Proof.
  destruct (dither_direct_pack_bits (holding grey_10x2) 0%nat grey_10x2
              [[0; 0; 0; 0; 0; 0; 0; 0; 200; 100]; [127; 128; 129; 0; 0; 0; 0; 0; 200; 100]])
    as [Hbits _].
  - reflexivity.
  - reflexivity.
  - reflexivity.
  - split; [split; [reflexivity|]|]; repeat constructor; unfold byte_ok; lia.
  - reflexivity.
  - reflexivity.
  - exact Hbits.
Defined.

(** ** The packer reads its argument and nothing else *)

Lemma run_pack_to_pbm (s : state) (r : loc) (img : Image) :
  heap s !! r = Some img ->
  fst (pack_to_pbm r s) = packed img /\
  requests (snd (pack_to_pbm r s)) = requests s /\
  exists more, heap (snd (pack_to_pbm r s)) = heap s ++ more.
Proof.
  intros Hr. destruct (mode_eqb (mode img) M_1) eqn:Hm.
  - assert (Hmode : mode img = M_1) by (destruct (mode img); (reflexivity || discriminate)).
    rewrite (pack_to_pbm_bilevel s r img Hr Hmode). unfold packed. rewrite Hm.
    cbn [mbind result_bind].
    destruct (tobytes_raw img "1;I"); cbn [fst snd]; (split; [reflexivity|split; [reflexivity|]]);
      exists []; symmetry; apply app_nil_r.
  - unfold pack_to_pbm, packed.
    erewrite run_bind_ok by (apply run_Image_mode, Hr).
    rewrite Hm. cbn [negb]. rewrite run_bind, (run_Image_convert _ _ _ _ _ Hr).
    destruct (convert img M_1 None) as [img'|e]; cbn [mbind result_bind].
    + set (s1 := {| heap := heap s ++ [img']; requests := requests s |}).
      assert (Hr' : heap s1 !! length (heap s) = Some img') by apply lookup_alloc.
      erewrite run_bind_ok by (apply run_Image_size, Hr').
      destruct (size img') as [w h] eqn:Hsz.
      rewrite run_bind, (run_Image_tobytes _ _ _ _ Hr').
      unfold xsize, ysize. rewrite Hsz. cbn [fst snd].
      destruct (tobytes_raw img' "1;I"); cbv [mret M_ret]; rewrite ?header_bytes;
        cbn [fst snd]; (split; [reflexivity|split; [reflexivity|]]);
        exists [img']; reflexivity.
    + cbn [fst snd]. split; [reflexivity|split; [reflexivity|]].
      exists []. symmetry. apply app_nil_r.
Qed.

Lemma run_pack_to_pbm_dangling (s : state) (r : loc) :
  heap s !! r = None ->
  pack_to_pbm r s = (Raise (ReferenceError "no such object"), s).
Proof.
  intros Hr. unfold pack_to_pbm, Image_mode.
  apply run_bind_raise. apply run_bind_raise. unfold deref. rewrite Hr. reflexivity.
Qed.

(** C9.  Packing the same raster twice gives the same bytes: the first
    call leaves the object it was given as it found it, and the second
    call returns what the first returned.  What is returned is a function
    of the raster alone ([packed]), not of the state it is held in. *)
Theorem pack_to_pbm_twice (s : state) (r : loc) :
  fst (pack_to_pbm r (snd (pack_to_pbm r s))) = fst (pack_to_pbm r s) /\
  heap (snd (pack_to_pbm r s)) !! r = heap s !! r /\
  fst (pack_to_pbm r s) =
    match heap s !! r with
    | Some img => packed img
    | None => Raise (ReferenceError "no such object")
    end.
Proof.
  destruct (heap s !! r) as [img|] eqn:Hr.
  - destruct (run_pack_to_pbm s r img Hr) as (Hout & _ & more & Hheap).
    assert (Hr1 : heap (snd (pack_to_pbm r s)) !! r = Some img).
    { rewrite Hheap. apply lookup_app_l_Some. exact Hr. }
    split; [|split; [exact Hr1|exact Hout]].
    destruct (run_pack_to_pbm _ r img Hr1) as (Hout1 & _).
    rewrite Hout1, Hout. reflexivity.
  - rewrite (run_pack_to_pbm_dangling s r Hr). cbn [fst snd].
    rewrite (run_pack_to_pbm_dangling s r Hr). repeat split; [exact Hr].
Qed.

(** ** The algorithm selector *)

Section Selector.
Context `{World}.

Lemma convert_floyd_steinberg g rows :
  mode g = M_L -> im g = image8 rows ->
  convert g M_1 (Some FLOYDSTEINBERG) =
  Ok {| mode := M_1; size := size g;
        im := image8 (tobilevel_scan (xsize g) rows) |}.
Proof.
  intros Hmode Him. unfold convert, ImagingConvert, tobilevel.
  rewrite Hmode, Him. reflexivity.
Qed.

End Selector.


(** ** The halftone selector is served by error diffusion *)

(** C5 (the code departs from it).  With the halftone ditherer, and with
    the ["algo-halftone"] selector, which runs [dither_floyd_steinberg], the
    grey value 100 at column 1 of row 0 comes out white after a 100 and
    black after a 200: the output carries state from pixel to pixel, and no
    4x4 threshold matrix, nor any rule of the position modulo 4 and the
    grey value, produces it. *)
Theorem halftone_is_error_diffusion :
  (* the same grey value at the same position, two different outputs *)
  pixel_at grey_100_100 1 0 = Some 100 /\
  pixel_at grey_200_100 1 0 = Some 100 /\
  (img ← dithered dither_halftone grey_100_100; pixel_at img 1 0) = Some 255 /\
  (img ← dithered dither_halftone grey_200_100; pixel_at img 1 0) = Some 0 /\
  (img ← dithered dither_floyd_steinberg grey_100_100; pixel_at img 1 0) = Some 255 /\
  (img ← dithered dither_floyd_steinberg grey_200_100; pixel_at img 1 0) = Some 0 /\
  (* hence no rule of the position modulo 4 and the grey value gives the output *)
  forall rule : nat -> nat -> Z -> Z,
    ~ (forall (w h : Z) (rows : list (list Z)),
         dithered dither_halftone (grey w h rows) =
         Some (bilevel w h (stateless_dither rule rows))).
Proof.
  repeat split; try reflexivity.
  intros rule Hrule.
  pose proof (Hrule 2 1 [[100; 100]]) as H1.
  pose proof (Hrule 2 1 [[200; 100]]) as H2.
  vm_compute in H1, H2.
  injection H1 as _ H1. injection H2 as _ H2. congruence.
Qed.

(** ** The fetcher's guard *)

Section Fetcher.
Context `{World}.

Lemma download_image_requests (url : string) (timeout : option Z) (s : state) :
  startswith url "http" = true ->
  requests (snd (download_image url timeout s)) =
    requests s ++ [(url, default 10 timeout)].
Proof.
  intros Hguard. unfold download_image. rewrite Hguard. cbn [negb].
  unfold try_except. rewrite run_bind. unfold requests_get_ at 1.
  destruct (requests_get url (default 10 timeout)) as [response|e].
  - rewrite run_bind. unfold lift at 1.
    destruct (raise_for_status response) as [[]|e].
    + destruct (negb (startswith (default ""%string (headers_get response "Content-Type")) "image/")).
      { reflexivity. }
      rewrite run_bind.
      destruct (headers_get response "Content-Length") as [cl|].
      * destruct (truthy cl).
        -- rewrite run_bind. unfold lift at 1.
           destruct (int_of_str cl) as [n|e].
           ++ cbn [mret M_ret]. destruct (MiB10 <? n); [reflexivity|].
              rewrite run_bind. unfold lift at 1.
              destruct (content response) as [data|e].
              ** destruct (MiB10 <? Z.of_nat (length data)); [reflexivity|].
                 unfold Image_open_. rewrite run_bind. unfold lift at 1.
                 destruct (Image_open data) as [img|e]; [reflexivity|].
                 destruct e; reflexivity.
              ** destruct e; reflexivity.
           ++ destruct e; reflexivity.
        -- cbn [mret M_ret]. rewrite run_bind. unfold lift at 1.
           destruct (content response) as [data|e].
           ++ destruct (MiB10 <? Z.of_nat (length data)); [reflexivity|].
              unfold Image_open_. rewrite run_bind. unfold lift at 1.
              destruct (Image_open data) as [img|e]; [reflexivity|].
              destruct e; reflexivity.
           ++ destruct e; reflexivity.
      * cbn [mret M_ret]. rewrite run_bind. unfold lift at 1.
        destruct (content response) as [data|e].
        -- destruct (MiB10 <? Z.of_nat (length data)); [reflexivity|].
           unfold Image_open_. rewrite run_bind. unfold lift at 1.
           destruct (Image_open data) as [img|e]; [reflexivity|].
           destruct e; reflexivity.
        -- destruct e; reflexivity.
    + destruct e; reflexivity.
  - destruct e; reflexivity.
Qed.

(** The guard of [download_image]: a URL that does not start with the
    four characters "http" fails with [ValueError] before anything is
    handed to the HTTP client; every URL that does start with them is
    handed to the client exactly once. *)
Lemma download_image_guard (url : string) (timeout : option Z) (s : state) :
  startswith url "http" = false ->
  download_image url timeout s =
    (Raise (ValueError "URL must start with http/https"), s) /\
  (forall (url' : string) (s' : state),
     startswith url' "http" = true ->
     requests (snd (download_image url' timeout s')) =
       requests s' ++ [(url', default 10 timeout)]).
Proof.
  intros Hguard. split.
  - unfold download_image. rewrite Hguard. reflexivity.
  - intros url' s'. apply download_image_requests.
Qed.

End Fetcher.

(** ** Binary64 rounding

    [resize_image] divides and multiplies in double precision and then
    truncates.  The lemmas below establish, for the executable operations
    of [SpecFloat], that a positive integer below [2 ^ 53] converts
    exactly, and that the quotient and the product of two normal floats are
    within [2 ^ -53] of the exact ones.  [shr_inv] follows the quotient and
    the place of the remainder through the shifts of [shr]; values are
    compared through [scaled], which makes them integers. *)

Lemma digits2_pos_size (p : positive) : digits2_pos p = Pos.size p.
Proof. induction p as [p IH|p IH|]; cbn; rewrite ?IH; reflexivity. Qed.

Lemma Zdigits2_bounds (p : positive) :
  2 ^ (Zdigits2 (Z.pos p) - 1) <= Z.pos p < 2 ^ Zdigits2 (Z.pos p).
Proof.
  cbn [Zdigits2]. rewrite digits2_pos_size.
  pose proof (Pos.size_gt p) as Hgt. pose proof (Pos.size_le p) as Hle.
  assert (Hpow : forall q : positive, Z.pos (2 ^ q) = 2 ^ Z.pos q).
  { intros q. rewrite Pos2Z.inj_pow. reflexivity. }
  split.
  - apply Pos2Z.pos_le_pos in Hle. rewrite Hpow in Hle.
    replace (Z.pos (Pos.size p)) with (Z.pos (Pos.size p) - 1 + 1) in Hle by lia.
    rewrite Z.pow_add_r in Hle by lia. change (2 ^ 1) with 2 in Hle. lia.
  - apply Pos2Z.pos_lt_pos in Hgt. rewrite Hpow in Hgt. exact Hgt.
Qed.

Lemma Zdigits2_unique (p : positive) (d : Z) :
  2 ^ (d - 1) <= Z.pos p < 2 ^ d -> Zdigits2 (Z.pos p) = d.
Proof.
  intros [Hlo Hhi]. pose proof (Zdigits2_bounds p) as [Hlo' Hhi'].
  set (d' := Zdigits2 (Z.pos p)) in *.
  assert (Hd' : 0 < d') by (unfold d'; cbn; lia).
  assert (Hd : 0 < d).
  { destruct (Z_lt_le_dec 0 d); [assumption|].
    assert (2 ^ d <= 2 ^ 0) by (destruct (Z_lt_le_dec d 0);
      [rewrite Z.pow_neg_r by lia; cbn; lia | apply Z.pow_le_mono_r; lia]).
    cbn in *; lia. }
  destruct (Z_lt_le_dec d d') as [Hlt|Hge].
  - assert (2 ^ d <= 2 ^ (d' - 1)) by (apply Z.pow_le_mono_r; lia). lia.
  - destruct (Z_lt_le_dec d' d) as [Hlt|Hge']; [|lia].
    assert (2 ^ d' <= 2 ^ (d - 1)) by (apply Z.pow_le_mono_r; lia). lia.
Qed.

Lemma loc_of_shr_record_of_loc m l :
  loc_of_shr_record (shr_record_of_loc m l) = l.
Proof. destruct l as [|[]]; reflexivity. Qed.

Lemma shr_inv_init (N D : Z) :
  0 < D -> 0 <= N ->
  shr_inv N D (shr_record_of_loc (N / D) (loc_of (N mod D) D)).
Proof.
  intros HD HN. pose proof (Z.mod_pos_bound N D HD) as Hr.
  unfold shr_inv, loc_of.
  destruct (Z.eqb_spec (N mod D) 0) as [H0|H0].
  - cbn. rewrite H0. repeat split.
    symmetry. apply Z.leb_gt. lia.
  - destruct (Z.compare_spec (2 * (N mod D)) D) as [Hc|Hc|Hc]; cbn; repeat split.
    + symmetry. apply Z.leb_le. lia.
    + rewrite Hc, Z.eqb_refl. reflexivity.
    + symmetry. apply Z.leb_gt. lia.
    + replace (2 * (N mod D) =? D) with false by (symmetry; apply Z.eqb_neq; lia). reflexivity.
    + symmetry. apply Z.leb_le. lia.
    + replace (2 * (N mod D) =? D) with false by (symmetry; apply Z.eqb_neq; lia). reflexivity.
Qed.

Lemma shr_1_inv (N D : Z) (mrs : shr_record) :
  0 < D -> 0 <= N -> shr_inv N D mrs -> shr_inv N (D * 2) (shr_1 mrs).
Proof.
  intros HD HN. destruct mrs as [m r s]. unfold shr_inv. cbn [shr_m shr_r shr_s].
  intros (Hm & Hr & Hs).
  pose proof (Z.mod_pos_bound N D HD) as Hrho.
  pose proof (Z.div_pos N D HN HD) as Hq.
  assert (Hdiv : N / (D * 2) = N / D / 2) by (rewrite Z.div_div by lia; reflexivity).
  assert (Hmod : N mod (D * 2) = N mod D + D * ((N / D) mod 2))
    by (apply Z.rem_mul_r; lia).
  assert (Hrs : r || s = negb (N mod D =? 0)).
  { rewrite Hr, Hs.
    destruct (Z.eqb_spec (N mod D) 0) as [H0|H0]; cbn.
    - rewrite H0. rewrite orb_false_r. apply Z.leb_gt. lia.
    - destruct (Z.eqb_spec (2 * (N mod D)) D) as [H1|H1]; cbn.
      + rewrite orb_false_r. apply Z.leb_le. lia.
      + apply orb_true_r. }
  assert (Hgoal : forall m' (b : bool),
             m' = m / 2 -> m mod 2 = (if b then 1 else 0) ->
             m' = N / (D * 2) /\
             b = (D * 2 <=? 2 * (N mod (D * 2))) /\
             r || s = negb (N mod (D * 2) =? 0) && negb (2 * (N mod (D * 2)) =? D * 2)).
  { intros m' b Hm' Hb. rewrite Hdiv, Hmod, <- Hm, Hb, Hrs. split; [exact Hm'|].
    destruct b.
    - split; [symmetry; apply Z.leb_le; lia|].
      replace (N mod D + D * 1 =? 0) with false by (symmetry; apply Z.eqb_neq; lia).
      cbn [negb andb].
      destruct (Z.eqb_spec (N mod D) 0) as [H0|H0]; cbn [negb].
      + symmetry. apply negb_false_iff, Z.eqb_eq. lia.
      + symmetry. apply negb_true_iff, Z.eqb_neq. lia.
    - split; [symmetry; apply Z.leb_gt; lia|].
      rewrite Z.mul_0_r, Z.add_0_r.
      replace (2 * (N mod D) =? D * 2) with false by (symmetry; apply Z.eqb_neq; lia).
      rewrite andb_true_r. reflexivity. }
  destruct m as [|[p|p|]|p].
  - cbn. apply (Hgoal 0 false); reflexivity.
  - cbn [shr_1 shr_m shr_r shr_s]. apply (Hgoal (Z.pos p) true).
    + rewrite Pos2Z.inj_xI. apply Z.div_unique with 1; lia.
    + rewrite Pos2Z.inj_xI. symmetry. apply Z.mod_unique with (Z.pos p); lia.
  - cbn [shr_1 shr_m shr_r shr_s]. apply (Hgoal (Z.pos p) false).
    + rewrite Pos2Z.inj_xO. apply Z.div_unique with 0; lia.
    + rewrite Pos2Z.inj_xO. symmetry. apply Z.mod_unique with (Z.pos p); lia.
  - cbn [shr_1 shr_m shr_r shr_s]. apply (Hgoal 0 true); reflexivity.
  - lia.
Qed.

Lemma shr_iter_inv (p : positive) :
  forall (N D : Z) (mrs : shr_record),
    0 < D -> 0 <= N -> shr_inv N D mrs ->
    shr_inv N (D * 2 ^ Z.pos p) (SpecFloat.iter_pos shr_1 p mrs).
Proof.
  assert (Hpos : forall D k, 0 < D -> 0 < D * 2 ^ Z.pos k).
  { intros D k HD. apply Z.mul_pos_pos; [exact HD|]. apply Z.pow_pos_nonneg; lia. }
  induction p as [p IH|p IH|]; intros N D mrs HD HN Hinv; cbn [SpecFloat.iter_pos].
  - replace (D * 2 ^ Z.pos p~1) with (D * 2 * 2 ^ Z.pos p * 2 ^ Z.pos p).
    + apply IH; [apply Hpos; lia|exact HN|].
      apply IH; [lia|exact HN|]. apply shr_1_inv; assumption.
    + replace (Z.pos p~1) with (1 + Z.pos p + Z.pos p) by lia.
      rewrite !Z.pow_add_r by lia. change (2 ^ 1) with 2. ring.
  - replace (D * 2 ^ Z.pos p~0) with (D * 2 ^ Z.pos p * 2 ^ Z.pos p).
    + apply IH; [apply Hpos; lia|exact HN|]. apply IH; assumption.
    + replace (Z.pos p~0) with (Z.pos p + Z.pos p) by lia.
      rewrite Z.pow_add_r by lia. ring.
  - change (2 ^ 1) with 2. apply shr_1_inv; assumption.
Qed.

(** [shr] by [n] places, as a division. *)
Lemma shr_inv_shr (N D : Z) (mrs : shr_record) (e n : Z) :
  0 < D -> 0 <= N -> shr_inv N D mrs -> 0 <= n ->
  shr_inv N (D * 2 ^ n) (fst (shr mrs e n)) /\ snd (shr mrs e n) = e + n.
Proof.
  intros HD HN Hinv Hn. destruct n as [|p|p]; [| |lia].
  - cbn. rewrite Z.mul_1_r, Z.add_0_r. auto.
  - cbn [shr fst snd]. split; [|reflexivity].
    apply shr_iter_inv; assumption.
Qed.

(** Rounding to nearest, ties to even, picks a neighbour within half a unit. *)
Lemma round_nearest_even_inv (N D : Z) (mrs : shr_record) :
  0 < D -> 0 <= N -> shr_inv N D mrs ->
  let m1 := round_nearest_even (shr_m mrs) (loc_of_shr_record mrs) in
  (m1 = N / D \/ m1 = N / D + 1) /\
  - D <= 2 * m1 * D - 2 * N <= D.
Proof.
  intros HD HN. destruct mrs as [m r s]. unfold shr_inv. cbn [shr_m shr_r shr_s].
  intros (Hm & Hr & Hs). subst m.
  pose proof (Z.mod_pos_bound N D HD) as Hrho.
  pose proof (Z.div_mod N D ltac:(lia)) as Hdm.
  set (q := N / D) in *. set (rho := N mod D) in *.
  destruct r, s; cbn [loc_of_shr_record round_nearest_even].
  - (* above the middle *)
    symmetry in Hr. apply Z.leb_le in Hr. split; [right; reflexivity|nia].
  - (* the middle *)
    symmetry in Hr, Hs. apply Z.leb_le in Hr.
    assert (H2 : 2 * rho = D).
    { apply andb_false_iff in Hs as [Hs|Hs]; apply negb_false_iff, Z.eqb_eq in Hs; lia. }
    destruct (Z.even q); [split; [left; reflexivity|nia]|split; [right; reflexivity|nia]].
  - (* below the middle *)
    symmetry in Hr. apply Z.leb_gt in Hr. split; [left; reflexivity|nia].
  - (* exact *)
    symmetry in Hr, Hs. apply Z.leb_gt in Hr.
    assert (H0 : rho = 0).
    { apply andb_false_iff in Hs as [Hs|Hs]; apply negb_false_iff, Z.eqb_eq in Hs; lia. }
    split; [left; reflexivity|nia].
Qed.

Lemma fexp_normal (k : Z) : -1074 <= k - 53 -> fexp 53 1024 k = k - 53.
Proof. unfold fexp. change (SpecFloat.emin 53 1024) with (-1074). lia. Qed.

Lemma div_pow2_bounds (x d n : Z) :
  0 <= n -> n < d -> 2 ^ (d - 1) <= x < 2 ^ d ->
  2 ^ (d - n - 1) <= x / 2 ^ n < 2 ^ (d - n).
Proof.
  intros Hn Hd [Hlo Hhi].
  assert (Hp : 0 < 2 ^ n) by (apply Z.pow_pos_nonneg; lia).
  split.
  - apply Z.div_le_lower_bound; [exact Hp|].
    rewrite <- Z.pow_add_r by lia. replace (n + (d - n - 1)) with (d - 1) by lia. exact Hlo.
  - apply Z.div_lt_upper_bound; [exact Hp|].
    rewrite <- Z.pow_add_r by lia. replace (n + (d - n)) with d by lia. exact Hhi.
Qed.

(** [binary_round_aux] on a quotient [N / D] of at least 53 digits, away
    from the subnormal and the overflow range: the result is a normal
    float within half a unit in the last place of [N / D * 2 ^ ex]. *)
Lemma binary_round_aux_correct (sx : bool) (N D ex : Z) :
  0 < D -> 0 <= N ->
  let mx := N / D in
  let n := Zdigits2 mx - 53 in
  0 <= n ->
  SpecFloat.emin prec emax <= ex + n -> ex + n + 1 <= emax - prec ->
  exists (m : positive) (e : Z),
    binary_round_aux prec emax sx mx ex (loc_of (N mod D) D) = S754_finite sx m e /\
    2 ^ 52 <= Z.pos m < 2 ^ 53 /\
    ex + n <= e <= ex + n + 1 /\
    - (D * 2 ^ n) <= 2 * (Z.pos m * 2 ^ (e - ex)) * D - 2 * N <= D * 2 ^ n.
Proof.
  intros HD HN mx n. subst n. remember mx as mx' eqn:Emx. subst mx.
  intros Hn Hemin Hemax.
  pose proof (Z.div_pos N D HN HD) as Hmx. rewrite <- Emx in Hmx.
  destruct mx' as [|pmx|pmx]; [cbn in Hn; lia| |lia].
  unfold prec, emax in *. change (SpecFloat.emin 53 1024) with (-1074) in *.
  symmetry in Emx. set (mx := N / D) in *.
  pose proof (Zdigits2_bounds pmx) as Hdig.
  set (d := Zdigits2 (Z.pos pmx)) in *. set (n := d - 53) in *.
  unfold binary_round_aux, shr_fexp.
  (* first shift *)
  assert (Hn1 : fexp 53 1024 (Zdigits2 (Z.pos pmx) + ex) - ex = n).
  { fold d. rewrite fexp_normal; unfold n; lia. }
  rewrite Hn1.
  pose proof (shr_inv_init N D HD HN) as Hinit. fold mx in Hinit. rewrite <- Emx.
  destruct (shr_inv_shr N D _ ex n HD HN Hinit Hn) as [Hinv1 He1].
  fold mx. destruct (shr (shr_record_of_loc mx (loc_of (N mod D) D)) ex n) as [mrs1 e1].
  cbn [fst snd] in Hinv1, He1. subst e1.
  assert (HD1 : 0 < D * 2 ^ n) by (apply Z.mul_pos_pos; [lia|apply Z.pow_pos_nonneg; lia]).
  destruct (round_nearest_even_inv N (D * 2 ^ n) mrs1 HD1 HN Hinv1) as [Hm1 Herr].
  set (m1 := round_nearest_even (shr_m mrs1) (loc_of_shr_record mrs1)) in *.
  (* the shifted mantissa has 53 digits *)
  assert (Hq : N / (D * 2 ^ n) = Z.pos pmx / 2 ^ n).
  { rewrite <- Z.div_div by lia. fold mx. rewrite Emx. reflexivity. }
  assert (Hm' : 2 ^ 52 <= N / (D * 2 ^ n) < 2 ^ 53).
  { rewrite Hq.
    pose proof (div_pow2_bounds (Z.pos pmx) d n Hn ltac:(unfold n; lia) Hdig) as Hb.
    replace (d - n - 1) with 52 in Hb by (unfold n; lia).
    replace (d - n) with 53 in Hb by (unfold n; lia). exact Hb. }
  assert (Hm1r : 2 ^ 52 <= m1 <= 2 ^ 53) by lia.
  destruct m1 as [|p1|p1] eqn:Em1; try lia.
  (* second shift: only after a carry to 2^53 *)
  destruct (Z.eq_dec (Z.pos p1) (2 ^ 53)) as [Hcarry|Hnocarry].
  - assert (Hd1 : Zdigits2 (Z.pos p1) = 54) by (apply Zdigits2_unique; lia).
    assert (Hn2 : fexp 53 1024 (Zdigits2 (Z.pos p1) + (ex + n)) - (ex + n) = 1).
    { rewrite Hd1, fexp_normal; lia. }
    rewrite Hn2.
    assert (Hp1 : p1 = (2 ^ 53)%positive) by (apply Pos2Z.inj; exact Hcarry).
    subst p1. cbn [shr_record_of_loc shr SpecFloat.iter_pos shr_1 shr_m].
    exists (2 ^ 52)%positive, (ex + n + 1).
    replace (ex + n + 1 <=? 1024 - 53) with true by (symmetry; apply Z.leb_le; lia).
    split; [reflexivity|]. split; [change (Z.pos (2 ^ 52)) with (2 ^ 52); lia|].
    split; [lia|].
    replace (ex + n + 1 - ex) with (n + 1) by lia.
    rewrite Z.pow_add_r by lia.
    assert (H52 : Z.pos (2 ^ 52) = 2 ^ 52) by reflexivity.
    rewrite H52. change (2 ^ 1) with 2.
    replace (2 * (2 ^ 52 * (2 ^ n * 2)) * D)
      with (2 * 2 ^ 53 * (D * 2 ^ n)) by ring.
    lia.
  - assert (Hd1 : Zdigits2 (Z.pos p1) = 53) by (apply Zdigits2_unique; lia).
    assert (Hn2 : fexp 53 1024 (Zdigits2 (Z.pos p1) + (ex + n)) - (ex + n) = 0).
    { rewrite Hd1, fexp_normal; lia. }
    rewrite Hn2. cbn [shr_record_of_loc shr shr_m].
    exists p1, (ex + n).
    replace (ex + n <=? 1024 - 53) with true by (symmetry; apply Z.leb_le; lia).
    split; [reflexivity|]. split; [lia|]. split; [lia|].
    replace (ex + n - ex) with n by lia.
    replace (2 * (Z.pos p1 * 2 ^ n) * D) with (2 * Z.pos p1 * (D * 2 ^ n)) by ring.
    lia.
Qed.

Lemma scale_bounds (a b k : Z) :
  0 <= k -> - a <= b <= a -> - (a * k) <= b * k <= a * k.
Proof. intros Hk [Hlo Hhi]. split; nia. Qed.

Lemma new_location_loc_of (d r : Z) :
  0 < d -> 0 <= r < d -> new_location d r = loc_of r d.
Proof.
  intros Hd Hr. unfold new_location, new_location_even, new_location_odd, loc_of.
  destruct (Z.even d) eqn:Heven; [reflexivity|].
  destruct (r =? 0); [reflexivity|]. f_equal.
  assert (Hodd : Z.odd d = true) by (rewrite <- Z.negb_even, Heven; reflexivity).
  apply Z.odd_spec in Hodd as [k Hk].
  destruct (Z.compare_spec (2 * r + 1) d), (Z.compare_spec (2 * r) d); try reflexivity; lia.
Qed.

Lemma pos_iter_xO (m d : positive) :
  Z.pos (Pos.iter xO m d) = Z.pos m * 2 ^ Z.pos d.
Proof.
  induction d as [|d IH] using Pos.peano_ind.
  - cbn. lia.
  - rewrite Pos.iter_succ, Pos2Z.inj_xO, IH, Pos2Z.inj_succ, Z.pow_succ_r by lia. ring.
Qed.

(** [float(n)] is exact for a positive integer below [2 ^ 53]. *)
Lemma float_of_int_exact (n : Z) :
  1 <= n < 2 ^ 53 ->
  exists x, float_of_int n = Ok x /\ normal x (-52) 0 /\ scaled x = n * 2 ^ 1074.
Proof.
  intros Hn. destruct n as [|p|p]; try lia.
  unfold float_of_int, binary_normalize, binary_round.
  pose proof (Zdigits2_bounds p) as Hdig. set (d := Zdigits2 (Z.pos p)) in *.
  assert (Hd : 1 <= d <= 53).
  { split.
    - unfold d. cbn. lia.
    - destruct (Z_lt_le_dec 53 d) as [Hlt|]; [|lia].
      assert (2 ^ 53 <= 2 ^ (d - 1)) by (apply Z.pow_le_mono_r; lia). lia. }
  change (Z.pos (digits2_pos p)) with d.
  unfold prec, emax. rewrite Z.add_0_r, fexp_normal by lia.
  (* the aligned mantissa has exactly 53 digits *)
  assert (Halign : exists mz, shl_align p 0 (d - 53) = (mz, d - 53) /\
                              Z.pos mz = Z.pos p * 2 ^ (53 - d)).
  { unfold shl_align. rewrite Z.sub_0_r.
    destruct (d - 53) as [|k|k] eqn:Ek; try lia.
    - exists p. split; [reflexivity|]. replace (53 - d) with 0 by lia. lia.
    - exists (Pos.iter xO p k). split; [reflexivity|].
      rewrite pos_iter_xO. f_equal. f_equal. lia. }
  destruct Halign as (mz & -> & Hmz).
  assert (Hmzr : 2 ^ 52 <= Z.pos mz < 2 ^ 53).
  { rewrite Hmz. split.
    - replace 52 with (d - 1 + (53 - d)) by lia. rewrite Z.pow_add_r by lia.
      apply Z.mul_le_mono_nonneg_r; [apply Z.pow_nonneg|]; lia.
    - replace 53 with (d + (53 - d)) at 2 by lia. rewrite Z.pow_add_r by lia.
      apply Z.mul_lt_mono_pos_r; [apply Z.pow_pos_nonneg|]; lia. }
  assert (Hdz : Zdigits2 (Z.pos mz) = 53) by (apply Zdigits2_unique; lia).
  destruct (binary_round_aux_correct false (Z.pos mz) 1 (d - 53)) as (m & e & Hr & Hm & He & Herr).
  - lia.
  - lia.
  - rewrite Z.div_1_r, Hdz. lia.
  - rewrite Z.div_1_r, Hdz. unfold prec, emax. change (SpecFloat.emin 53 1024) with (-1074). lia.
  - rewrite Z.div_1_r, Hdz. unfold prec, emax. lia.
  - rewrite Z.div_1_r, Z.mod_1_r, Hdz in *. change (loc_of 0 1) with loc_Exact in Hr.
    unfold prec, emax in Hr. rewrite Hr.
    change (53 - 53) with 0 in *. rewrite Z.add_0_r in He.
    change (2 ^ 0) with 1 in Herr.
    (* no carry: the mantissa is unchanged *)
    assert (Hee : e = d - 53).
    { destruct (Z.eq_dec e (d - 53)) as [|Hne]; [assumption|].
      replace (e - (d - 53)) with 1 in Herr by lia. change (2 ^ 1) with 2 in Herr. lia. }
    subst e. replace (d - 53 - (d - 53)) with 0 in Herr by lia.
    change (2 ^ 0) with 1 in Herr.
    assert (Hmm : Z.pos m = Z.pos mz) by lia.
    exists (S754_finite false m (d - 53)). split; [reflexivity|]. split.
    + exists m, (d - 53). split; [reflexivity|]. split; [exact Hm|]. lia.
    + cbn [scaled]. rewrite Hmm, Hmz.
      assert (Hsplit : 2 ^ 1074 = 2 ^ (53 - d) * 2 ^ (d - 53 + 1074)).
      { rewrite <- Z.pow_add_r by lia. f_equal. lia. }
      rewrite Hsplit. ring.
Qed.

(** Division of two normal floats: within [2 ^ -53] of the quotient. *)
Lemma SFdiv_correct (x y : float) :
  normal x (-400) 400 -> normal y (-400) 400 ->
  exists ex ey,
    normal x ex ex /\ normal y ey ey /\
    normal (SFdiv prec emax x y) (ex - ey - 53) (ex - ey - 51) /\
    - (scaled x * 2 ^ 1074)
      <= 2 ^ 53 * (scaled (SFdiv prec emax x y) * scaled y - scaled x * 2 ^ 1074)
      <= scaled x * 2 ^ 1074.
Proof.
  intros (mx & ex & -> & Hmx & Hex) (my & ey & -> & Hmy & Hey).
  exists ex, ey.
  split; [exists mx, ex; repeat split; lia|].
  split; [exists my, ey; repeat split; lia|].
  assert (Hdx : Zdigits2 (Z.pos mx) = 53) by (apply Zdigits2_unique; lia).
  assert (Hdy : Zdigits2 (Z.pos my) = 53) by (apply Zdigits2_unique; lia).
  cbn [SFdiv xorb]. unfold SFdiv_core_binary. rewrite Hdx, Hdy.
  unfold prec, emax.
  replace (53 + ex - (53 + ey)) with (ex - ey) by lia.
  rewrite fexp_normal by lia.
  replace (Z.min (ex - ey - 53) (ex - ey)) with (ex - ey - 53) by lia.
  replace (ex - ey - (ex - ey - 53)) with 53 by lia.
  cbv iota. rewrite Z.shiftl_mul_pow2 by lia.
  set (N := Z.pos mx * 2 ^ 53). set (D := Z.pos my).
  assert (Hdm : Z.div_eucl N D = (N / D, N mod D)).
  { unfold Z.div, Z.modulo. destruct (Z.div_eucl N D). reflexivity. }
  rewrite Hdm.
  assert (HD : 0 < D) by (unfold D; lia).
  assert (HN : 0 <= N) by (unfold N; lia).
  rewrite new_location_loc_of by (try apply Z.mod_pos_bound; lia).
  (* the quotient has 53 or 54 digits *)
  assert (Hq : 2 ^ 52 <= N / D < 2 ^ 54).
  { split.
    - apply Z.div_le_lower_bound; [lia|]. unfold N, D. nia.
    - apply Z.div_lt_upper_bound; [lia|]. unfold N, D. nia. }
  assert (Hqpos : exists q, N / D = Z.pos q).
  { destruct (N / D) as [|q|q]; try lia. eauto. }
  destruct Hqpos as [q Eq].
  pose proof (Zdigits2_bounds q) as Hdq. rewrite <- Eq in Hdq.
  set (dq := Zdigits2 (N / D)) in *.
  assert (Hdqr : 53 <= dq <= 54).
  { split.
    - destruct (Z_lt_le_dec dq 53) as [Hlt|]; [|lia].
      assert (2 ^ dq <= 2 ^ 52) by (apply Z.pow_le_mono_r; lia). lia.
    - destruct (Z_lt_le_dec 54 dq) as [Hlt|]; [|lia].
      assert (2 ^ 54 <= 2 ^ (dq - 1)) by (apply Z.pow_le_mono_r; lia). lia. }
  destruct (binary_round_aux_correct false N D (ex - ey - 53) HD HN)
    as (m & e & Hr & Hm & He & Herr); fold dq.
  - lia.
  - unfold prec, emax. change (SpecFloat.emin 53 1024) with (-1074). lia.
  - unfold prec, emax. lia.
  - unfold prec, emax in Hr. rewrite Hr. split.
    + exists m, e. repeat split; lia.
    + cbn [scaled]. rewrite !Z.mul_1_l.
      set (n := dq - 53) in *. set (g := e - (ex - ey - 53)) in *.
      assert (Hg : n <= g <= n + 1) by (unfold g; lia).
      (* the half unit is at most [2 ^ -53] of the quotient *)
      assert (Hrel : D * 2 ^ n * 2 ^ 52 <= N).
      { assert (2 ^ (n + 52) <= N / D).
        { replace (n + 52) with (dq - 1) by (unfold n; lia). lia. }
        rewrite Z.pow_add_r in H by lia.
        pose proof (Z.mul_div_le N D HD). nia. }
      (* both sides carry the same power of two *)
      set (k := ex - 53 + 2 * 1074).
      assert (Hk : 0 <= k) by (unfold k; lia).
      assert (Hpk : 0 < 2 ^ k) by (apply Z.pow_pos_nonneg; lia).
      assert (Hl : Z.pos m * 2 ^ (e + 1074) * (Z.pos my * 2 ^ (ey + 1074))
                   = Z.pos m * 2 ^ g * D * 2 ^ k).
      { unfold D, k. replace (e + 1074) with (g + (ex - ey - 53 + 1074)) by (unfold g; lia).
        rewrite Z.pow_add_r by (unfold g; lia).
        replace (ex - 53 + 2 * 1074) with ((ex - ey - 53 + 1074) + (ey + 1074)) by lia.
        rewrite (Z.pow_add_r 2 (ex - ey - 53 + 1074)) by lia. ring. }
      assert (Hrgt : Z.pos mx * 2 ^ (ex + 1074) * 2 ^ 1074 = N * 2 ^ k).
      { unfold N, k. replace (ex - 53 + 2 * 1074) with (ex + 1074 + 1074 - 53) by lia.
        rewrite <- !Z.mul_assoc, <- !Z.pow_add_r by lia. f_equal. f_equal. lia. }
      rewrite Hl, Hrgt.
      change (Zdigits2 (N / D) - 53) with n in Herr.
      assert (Hbound : - N <= 2 ^ 53 * (Z.pos m * 2 ^ g * D - N) <= N) by (change (2 ^ 53) with 9007199254740992;
          change (2 ^ 52) with 4503599627370496 in Hrel; lia).
      replace (2 ^ 53 * (Z.pos m * 2 ^ g * D * 2 ^ k - N * 2 ^ k))
        with (2 ^ 53 * (Z.pos m * 2 ^ g * D - N) * 2 ^ k) by ring.
      apply scale_bounds; [lia|exact Hbound].
Qed.

Lemma normal_weaken (x : float) (lo hi lo' hi' : Z) :
  lo' <= lo -> hi <= hi' -> normal x lo hi -> normal x lo' hi'.
Proof.
  intros Hlo Hhi (m & e & -> & Hm & He). exists m, e. repeat split; lia.
Qed.

Lemma normal_scaled_pos (x : float) (lo hi : Z) :
  -1074 <= lo -> normal x lo hi -> 0 < scaled x.
Proof.
  intros Hlo (m & e & -> & Hm & He). cbn [scaled].
  assert (0 < 2 ^ (e + 1074)) by (apply Z.pow_pos_nonneg; lia). nia.
Qed.

(** Multiplication of two normal floats: within [2 ^ -53] of the product. *)
Lemma SFmul_correct (x y : float) :
  normal x (-400) 400 -> normal y (-400) 400 ->
  exists ex ey,
    normal x ex ex /\ normal y ey ey /\
    normal (SFmul prec emax x y) (ex + ey + 52) (ex + ey + 54) /\
    - (scaled x * scaled y)
      <= 2 ^ 53 * (scaled (SFmul prec emax x y) * 2 ^ 1074 - scaled x * scaled y)
      <= scaled x * scaled y.
Proof.
  intros (mx & ex & -> & Hmx & Hex) (my & ey & -> & Hmy & Hey).
  exists ex, ey.
  split; [exists mx, ex; repeat split; lia|].
  split; [exists my, ey; repeat split; lia|].
  cbn [SFmul xorb]. rewrite Pos2Z.inj_mul.
  set (N := Z.pos mx * Z.pos my).
  assert (HN : 2 ^ 104 <= N < 2 ^ 106).
  { unfold N. change (2 ^ 104) with (2 ^ 52 * 2 ^ 52). change (2 ^ 106) with (2 ^ 53 * 2 ^ 53).
    split; nia. }
  assert (HNpos : exists pn, N = Z.pos pn) by (destruct N as [|pn|pn]; try lia; eauto).
  destruct HNpos as [pn EN].
  pose proof (Zdigits2_bounds pn) as Hd. rewrite <- EN in Hd.
  set (d := Zdigits2 N) in *.
  assert (Hdr : 105 <= d <= 106).
  { split.
    - destruct (Z_lt_le_dec d 105) as [Hlt|]; [|lia].
      assert (2 ^ d <= 2 ^ 104) by (apply Z.pow_le_mono_r; lia). lia.
    - destruct (Z_lt_le_dec 106 d) as [Hlt|]; [|lia].
      assert (2 ^ 106 <= 2 ^ (d - 1)) by (apply Z.pow_le_mono_r; lia). lia. }
  pose proof (binary_round_aux_correct false N 1 (ex + ey) ltac:(lia) ltac:(lia)) as Hc.
  cbv zeta in Hc. rewrite Z.div_1_r, Z.mod_1_r in Hc.
  change (loc_of 0 1) with loc_Exact in Hc. fold d in Hc.
  unfold prec, emax in *. change (SpecFloat.emin 53 1024) with (-1074) in Hc.
  destruct Hc as (m & e & Hr & Hm & He & Herr); [lia|lia|lia|].
  rewrite Hr. split.
  - exists m, e. repeat split; lia.
  - cbn [scaled]. rewrite !Z.mul_1_l.
      set (n := d - 53) in *. set (g := e - (ex + ey)) in *.
      assert (Hg : n <= g <= n + 1) by (unfold g; lia).
      assert (Hrel : 2 ^ n * 2 ^ 52 <= N).
      { rewrite <- Z.pow_add_r by (unfold n; lia).
        replace (n + 52) with (d - 1) by (unfold n; lia). lia. }
      set (k := ex + ey + 2 * 1074).
      assert (Hk : 0 <= k) by (unfold k; lia).
      assert (Hpk : 0 < 2 ^ k) by (apply Z.pow_pos_nonneg; lia).
      assert (Hl : Z.pos m * 2 ^ (e + 1074) * 2 ^ 1074 = Z.pos m * 2 ^ g * 2 ^ k).
      { unfold k. replace (e + 1074) with (g + (ex + ey + 1074)) by (unfold g; lia).
        rewrite Z.pow_add_r by (unfold g, n in *; lia).
        replace (ex + ey + 2 * 1074) with ((ex + ey + 1074) + 1074) by lia.
        rewrite (Z.pow_add_r 2 (ex + ey + 1074)) by lia. ring. }
      assert (Hrgt : Z.pos mx * 2 ^ (ex + 1074) * (Z.pos my * 2 ^ (ey + 1074)) = N * 2 ^ k).
      { unfold N, k. replace (ex + ey + 2 * 1074) with ((ex + 1074) + (ey + 1074)) by lia.
        rewrite (Z.pow_add_r 2 (ex + 1074) (ey + 1074)) by lia. ring. }
      rewrite Hl, Hrgt. rewrite !Z.mul_1_r, !Z.mul_1_l in Herr.
      assert (Hbound : - N <= 2 ^ 53 * (Z.pos m * 2 ^ g - N) <= N) by (change (2 ^ 53) with 9007199254740992;
          change (2 ^ 52) with 4503599627370496 in Hrel; lia).
      replace (2 ^ 53 * (Z.pos m * 2 ^ g * 2 ^ k - N * 2 ^ k))
        with (2 ^ 53 * (Z.pos m * 2 ^ g - N) * 2 ^ k) by ring.
      apply scale_bounds; [lia|exact Hbound].
Qed.

(** [int(x)] of a positive float is the floor of its value. *)
Lemma trunc_scaled (x : float) (lo hi : Z) :
  -1074 <= lo -> normal x lo hi -> trunc x = Ok (scaled x / 2 ^ 1074).
Proof.
  intros Hlo (m & e & -> & Hm & He). cbn [trunc scaled]. rewrite Z.mul_1_l. f_equal.
  destruct (Z.leb_spec 0 e) as [Hle|Hlt].
  - rewrite (Z.pow_add_r 2 e 1074) by lia. rewrite Z.mul_assoc, Z.div_mul; [reflexivity|].
    apply Z.pow_nonzero; lia.
  - assert (Hsplit : 2 ^ 1074 = 2 ^ (- e) * 2 ^ (e + 1074)).
    { rewrite <- Z.pow_add_r by lia. f_equal. lia. }
    rewrite Hsplit.
    rewrite Z.div_mul_cancel_r; [reflexivity| |]; apply Z.pow_nonzero; lia.
Qed.

(** The height computed by [resize_image]: the floor of [H * T / W], or one
    less when the division is exact and the rounded quotient [T / W] fell
    below it. *)
Lemma resize_height (W H T : Z) :
  1 <= W < 2 ^ 53 -> 1 <= H -> 1 <= T -> H * T < 2 ^ 51 ->
  exists width_percent target_height,
    (ival T / float_ (ival W))%py = Ok width_percent /\
    int (float_ (ival H) * float_ (Ok width_percent))%py = Ok target_height /\
    (target_height = H * T / W \/
     (target_height = H * T / W - 1 /\ (H * T) mod W = 0)).
Proof.
  intros HW HH HT HHT.
  assert (HT53 : T < 2 ^ 53) by nia.
  assert (HH53 : H < 2 ^ 53) by nia.
  destruct (float_of_int_exact W ltac:(lia)) as (xW & EW & NW & SW).
  destruct (float_of_int_exact T ltac:(lia)) as (xT & ET & NT & ST).
  destruct (float_of_int_exact H ltac:(lia)) as (xH & EH & NH & SH).
  set (xq := SFdiv prec emax xT xW).
  set (xp := SFmul prec emax xH xq).
  exists (Float xq), (scaled xp / 2 ^ 1074).
  assert (HzW : is_zero xW = false) by (destruct NW as (m & e & -> & _); reflexivity).
  (* the quotient *)
  destruct (SFdiv_correct xT xW) as (eT & eW & NT' & NW' & Nq & Bq);
    [eapply normal_weaken; [| |exact NT]; lia|eapply normal_weaken; [| |exact NW]; lia|].
  fold xq in Nq, Bq.
  assert (HeT : -52 <= eT <= 0).
  { destruct NT as (m & e & -> & _ & He), NT' as (m' & e' & E & _ & He'). injection E as _ <-. lia. }
  assert (HeW : -52 <= eW <= 0).
  { destruct NW as (m & e & -> & _ & He), NW' as (m' & e' & E & _ & He'). injection E as _ <-. lia. }
  (* the product *)
  destruct (SFmul_correct xH xq) as (eH & eq & NH' & Nq' & Np & Bp);
    [eapply normal_weaken; [| |exact NH]; lia|eapply normal_weaken; [| |exact Nq]; lia|].
  fold xp in Np, Bp.
  assert (HeH : -52 <= eH <= 0).
  { destruct NH as (m & e & -> & _ & He), NH' as (m' & e' & E & _ & He'). injection E as _ <-. lia. }
  assert (Heq : -105 <= eq <= 1).
  { destruct Nq as (m & e & Eq1 & _ & He), Nq' as (m' & e' & E & _ & He').
    rewrite Eq1 in E. injection E as _ <-. lia. }
  split; [|split].
  - unfold Py.truediv, float_, lift2, ival. cbn [mbind result_bind to_float].
    rewrite EW. cbn [mbind result_bind truediv_num to_float]. rewrite ET.
    cbn [mbind result_bind]. rewrite HzW. reflexivity.
  - unfold Py.int, Py.mul, float_, lift2, ival. cbn [mbind result_bind to_float].
    rewrite EH. cbn [mbind result_bind mul_num arith to_float int_num].
    fold xp. apply (trunc_scaled xp (eH + eq + 52) (eH + eq + 54)); [lia|exact Np].
  - (* the arithmetic *)
    rewrite SW, ST in Bq. rewrite SH in Bp.
    set (P := 2 ^ 1074) in *. set (sq := scaled xq) in *. set (sp := scaled xp) in *.
    assert (HP : 0 < P) by (apply Z.pow_pos_nonneg; lia).
    assert (Hsq : 0 < sq) by (eapply normal_scaled_pos; [|exact Nq]; lia).
    clearbody P sq sp. clear - HW HH HT HHT HP Hsq Bq Bp.
    (* cancel the common factor [P] *)
    assert (A1 : - (T * P) <= 2 ^ 53 * (sq * W - T * P) <= T * P).
    { replace (2 ^ 53 * (sq * (W * P) - T * P * P))
        with ((2 ^ 53 * (sq * W - T * P)) * P) in Bq by ring.
      replace (T * P * P) with ((T * P) * P) in Bq by ring.
      split; nia. }
    assert (A2 : - (H * sq) <= 2 ^ 53 * (sp - H * sq) <= H * sq).
    { replace (2 ^ 53 * (sp * P - H * P * sq))
        with ((2 ^ 53 * (sp - H * sq)) * P) in Bp by ring.
      replace (H * P * sq) with ((H * sq) * P) in Bp by ring.
      split; nia. }
    (* bring both to [W] and [H] *)
    set (c := H * T * P). set (Y := H * sq * W). set (X := sp * W).
    assert (B1 : - c <= 2 ^ 53 * (Y - c) <= c).
    { unfold Y, c.
      replace (2 ^ 53 * (H * sq * W - H * T * P)) with (H * (2 ^ 53 * (sq * W - T * P))) by ring.
      replace (H * T * P) with (H * (T * P)) by ring. split; nia. }
    assert (B2 : - Y <= 2 ^ 53 * (X - Y) <= Y).
    { unfold X, Y.
      replace (2 ^ 53 * (sp * W - H * sq * W)) with (W * (2 ^ 53 * (sp - H * sq))) by ring.
      replace (H * sq * W) with (W * (H * sq)) by ring. split; nia. }
    assert (Hc : c <= (2 ^ 51 - 1) * P) by (unfold c; nia).
    assert (Hc0 : 0 <= c) by (unfold c; nia).
    assert (Hclose : - P < X - c < P) by lia.
    (* the floor *)
    pose proof (Z.div_mod (H * T) W ltac:(lia)) as Hdm.
    pose proof (Z.mod_pos_bound (H * T) W ltac:(lia)) as Hrho.
    set (q := H * T / W) in *. set (rho := (H * T) mod W) in *.
    clearbody q rho.
    assert (Hcq : c = W * q * P + rho * P) by (unfold c; rewrite Hdm; ring).
    assert (HWP : P <= W * P) by nia.
    assert (HrP : 0 <= rho * P <= W * P - P) by nia.
    unfold X in Hclose. rewrite Hcq in Hclose.
    assert (Hup : sp < P * (q + 1)).
    { apply (Z.mul_lt_mono_pos_r W); [lia|].
      replace (P * (q + 1) * W) with (W * q * P + W * P) by ring. lia. }
    assert (Hhi : sp / P <= q).
    { assert (sp / P < q + 1) by (apply Z.div_lt_upper_bound; lia). lia. }
    destruct (Z.eq_dec rho 0) as [H0|H0].
    + assert (Hlow : P * (q - 1) < sp).
      { apply (Z.mul_lt_mono_pos_r W); [lia|].
        replace (P * (q - 1) * W) with (W * q * P - W * P) by ring.
        rewrite H0, Z.mul_0_l in Hclose. lia. }
      assert (q - 1 <= sp / P) by (apply Z.div_le_lower_bound; lia).
      destruct (Z.eq_dec (sp / P) q); [left; assumption|right; split; lia].
    + left. assert (Hlow : P * q < sp).
      { apply (Z.mul_lt_mono_pos_r W); [lia|].
        replace (P * q * W) with (W * q * P) by ring.
        assert (P <= rho * P) by nia. lia. }
      assert (q <= sp / P) by (apply Z.div_le_lower_bound; lia). lia.
Qed.

(** ** The resizer *)

Lemma as_int_fits (n : Z) : fits_int n = true -> as_int n = Ok n.
Proof.
  unfold fits_int, as_int, INT_MIN, INT_MAX, LONG_MIN, LONG_MAX. intros Hfit.
  apply andb_prop in Hfit as [Hlo Hhi]. apply Z.leb_le in Hlo, Hhi.
  replace (n <? - 2 ^ 63) with false by (symmetry; apply Z.ltb_ge; lia).
  replace (2 ^ 63 - 1 <? n) with false by (symmetry; apply Z.ltb_ge; lia).
  replace (2 ^ 31 - 1 <? n) with false by (symmetry; apply Z.ltb_ge; lia).
  replace (n <? - 2 ^ 31) with false by (symmetry; apply Z.ltb_ge; lia).
  reflexivity.
Qed.

Lemma as_int_overflow (n : Z) :
  fits_int n = false -> exists msg, as_int n = Raise (OverflowError msg).
Proof.
  unfold fits_int, as_int, INT_MIN, INT_MAX, LONG_MIN, LONG_MAX. intros Hfit.
  destruct ((n <? - 2 ^ 63) || (2 ^ 63 - 1 <? n)); [eauto|].
  destruct (Z.ltb_spec (2 ^ 31 - 1) n); [eauto|].
  destruct (Z.ltb_spec n (- 2 ^ 31)); [eauto|].
  apply andb_false_iff in Hfit as [Hfit|Hfit]; apply Z.leb_gt in Hfit; lia.
Qed.

Lemma as_int_ok (n x : Z) : as_int n = Ok x -> x = n.
Proof.
  unfold as_int. destruct (_ || _); [intros Hd; discriminate Hd|].
  destruct (_ <? _); [intros Hd; discriminate Hd|].
  destruct (_ <? _); [intros Hd; discriminate Hd|]. congruence.
Qed.

(** What [Image.resize] returns: a copy, or what the resampling made of
    a size of at least 1 by 1. *)
Lemma resize_ok (resample : Resampling -> Image -> Z * Z -> result storage)
    (img out : Image) (sz : Z * Z) (filter : Resampling) :
  resize resample img sz filter = Ok out ->
  (out = img /\ sz = size img) \/
  (1 <= fst sz /\ 1 <= snd sz /\
   exists st, resample filter img sz = Ok st /\
              out = {| mode := mode img; size := sz; im := st |}).
Proof.
  unfold resize. destruct sz as [w h]. cbn [fst snd].
  destruct ((w =? xsize img) && (h =? ysize img)) eqn:Hsame.
  - intros [= <-]. left. split; [reflexivity|].
    apply andb_prop in Hsame as [Hw Hh]. apply Z.eqb_eq in Hw, Hh.
    unfold xsize, ysize in *. destruct (size img). cbn in *. congruence.
  - destruct (as_int w) as [xs|e] eqn:Hxs; [|intros Hd; discriminate Hd].
    apply as_int_ok in Hxs as ->. cbn [mbind result_bind].
    destruct (as_int h) as [ys|e] eqn:Hys; [|intros Hd; discriminate Hd].
    apply as_int_ok in Hys as ->. cbn [mbind result_bind].
    destruct (Z.ltb_spec w 1); [intros Hd; discriminate Hd|].
    destruct (Z.ltb_spec h 1); [intros Hd; discriminate Hd|]. cbn [orb].
    destruct (resample filter img (w, h)) as [st|e] eqn:Hst; [|intros Hd; discriminate Hd].
    cbn [mbind result_bind]. intros [= <-]. right. eauto.
Qed.

Section Resizer.
Context `{World}.


Lemma run_resize_image (s : state) (r : loc) (img : Image) (target_width : Z) :
  heap s !! r = Some img ->
  resize_image r (Some target_width) s =
  match (ival target_width / float_ (ival (xsize img)))%py with
  | Raise e => (Raise e, s)
  | Ok width_percent =>
      match int (float_ (ival (ysize img)) * float_ (Ok width_percent))%py with
      | Raise e => (Raise e, s)
      | Ok target_height =>
          match resize resample img (target_width, target_height) LANCZOS with
          | Raise e => (Raise e, s)
          | Ok img' =>
              (Ok (length (heap s)),
               {| heap := heap s ++ [img']; requests := requests s |})
          end
      end
  end.
Proof.
  intros Hr. unfold resize_image. cbv [default from_option id].
  erewrite run_bind_ok by (apply run_Image_size, Hr).
  rewrite run_bind. unfold lift at 1. fold (xsize img).
  destruct (ival target_width / float_ (ival (xsize img)))%py as [wp|e]; [|reflexivity].
  rewrite run_bind. unfold lift at 1. fold (ysize img).
  destruct (int (float_ (ival (ysize img)) * float_ (Ok wp))%py) as [th|e]; [|reflexivity].
  unfold Image_resize. erewrite run_bind_ok by (apply run_deref, Hr).
  rewrite run_bind. unfold lift at 1.
  destruct (resize resample img (target_width, th) LANCZOS); reflexivity.
Qed.

(** C7.  For a target width [T <= 0] the resizer raises and allocates no
    image.  The exception is the [ValueError] of the size check of
    [Image.resize] whenever both components of the size fit a C [int]. *)
Theorem resize_image_rejects_nonpositive_width
    (s : state) (r : loc) (img : Image) (target_width : Z) :
  heap s !! r = Some img -> 0 < xsize img -> target_width <= 0 ->
  (exists e, resize_image r (Some target_width) s = (Raise e, s)) /\
  (forall width_percent target_height,
     (ival target_width / float_ (ival (xsize img)))%py = Ok width_percent ->
     int (float_ (ival (ysize img)) * float_ (Ok width_percent))%py = Ok target_height ->
     fits_int target_width = true -> fits_int target_height = true ->
     resize_image r (Some target_width) s =
       (Raise (ValueError "height and width must be > 0"), s)).
Proof.
  intros Hr Hw Ht.
  assert (Hresize : forall th, exists e,
             resize resample img (target_width, th) LANCZOS = Raise e /\
             (fits_int target_width = true -> fits_int th = true ->
              e = ValueError "height and width must be > 0")).
  { intros th. unfold resize. cbn [fst snd].
    replace (target_width =? xsize img) with false by (symmetry; apply Z.eqb_neq; lia).
    cbn [andb].
    destruct (fits_int target_width) eqn:Hfit1.
    - rewrite (as_int_fits _ Hfit1). cbn [mbind result_bind].
      destruct (fits_int th) eqn:Hfit2.
      + rewrite (as_int_fits _ Hfit2). cbn [mbind result_bind].
        replace (target_width <? 1) with true by (symmetry; apply Z.ltb_lt; lia).
        cbn [orb]. eexists. split; [reflexivity|]. intros _ _. reflexivity.
      + destruct (as_int_overflow _ Hfit2) as [msg ->]. cbn [mbind result_bind].
        eexists. split; [reflexivity|]. intros _ Hd. discriminate Hd.
    - destruct (as_int_overflow _ Hfit1) as [msg ->]. cbn [mbind result_bind].
      eexists. split; [reflexivity|]. intros Hd. discriminate Hd. }
  split.
  - rewrite (run_resize_image s r img target_width Hr).
    destruct (ival target_width / float_ (ival (xsize img)))%py as [wp|e]; [|eauto].
    destruct (int (float_ (ival (ysize img)) * float_ (Ok wp))%py) as [th|e]; [|eauto].
    destruct (Hresize th) as (e & -> & _). eauto.
  - intros wp th Hwp Hth Hf1 Hf2.
    rewrite (run_resize_image s r img target_width Hr), Hwp, Hth.
    destruct (Hresize th) as (e & -> & He). rewrite (He Hf1 Hf2). reflexivity.
Qed.

(** The height [resize_image] asks for, for a source of size [(W0, H0)]
    and a target width [T >= 1] (sizes in the range of a C [int],
    [H0 * T < 2 ^ 51]): computed in double precision, it is the floor of
    [H0 * T / W0], or one less when [W0] divides [H0 * T].  With a height
    of at least 1 the resizer returns what [Image.resize] makes of that
    size: a new image of width exactly [T] and of that height when the
    resampling returns, and its exception otherwise. *)
Lemma resize_image_height (s : state) (r : loc) (img : Image) (target_width : Z) :
  heap s !! r = Some img ->
  1 <= xsize img <= INT_MAX -> 1 <= ysize img ->
  1 <= target_width <= INT_MAX ->
  ysize img * target_width < 2 ^ 51 ->
  ysize img * target_width / xsize img <= INT_MAX ->
  let q := ysize img * target_width / xsize img in
  exists target_height,
    (target_height = q \/
     (target_height = q - 1 /\ (ysize img * target_width) mod xsize img = 0)) /\
    resize_image r (Some target_width) s =
      (if target_height <? 1
       then (Raise (ValueError "height and width must be > 0"), s)
       else if (target_width =? xsize img) && (target_height =? ysize img)
       then (Ok (length (heap s)),
             {| heap := heap s ++ [img]; requests := requests s |})
       else
         match resample LANCZOS img (target_width, target_height) with
         | Ok st =>
             (Ok (length (heap s)),
              {| heap := heap s ++ [{| mode := mode img;
                                       size := (target_width, target_height);
                                       im := st |}];
                 requests := requests s |})
         | Raise e => (Raise e, s)
         end).
Proof.
  intros Hr HW HH HT HHT Hq q.
  destruct (resize_height (xsize img) (ysize img) target_width)
    as (wp & th & Hwp & Hth & Hfloor).
  { unfold INT_MAX in HW. lia. }
  { exact HH. }
  { lia. }
  { exact HHT. }
  fold q in Hfloor. exists th. split; [exact Hfloor|].
  assert (Hq0 : 0 <= q) by (unfold q; apply Z.div_pos; nia).
  assert (Hth0 : 0 <= th).
  { destruct Hfloor as [->|[-> Hmod]]; [exact Hq0|].
    destruct (Z.eq_dec q 0) as [Hz|]; [|lia].
    pose proof (Z.div_mod (ysize img * target_width) (xsize img) ltac:(lia)) as Hdm.
    fold q in Hdm. rewrite Hz, Hmod in Hdm. nia. }
  rewrite (run_resize_image s r img target_width Hr), Hwp, Hth.
  unfold resize. cbn [fst snd].
  assert (Hfits : fits_int target_width = true /\ fits_int th = true).
  { unfold fits_int, INT_MIN, INT_MAX in *.
    split; apply andb_true_intro; split; apply Z.leb_le; lia. }
  destruct Hfits as [Hf1 Hf2].
  destruct (Z.ltb_spec th 1) as [Hlt|Hge].
  - replace ((target_width =? xsize img) && (th =? ysize img)) with false
      by (symmetry; apply andb_false_iff; right; apply Z.eqb_neq; lia).
    rewrite (as_int_fits _ Hf1), (as_int_fits _ Hf2). cbn [mbind result_bind].
    replace (th <? 1) with true by (symmetry; apply Z.ltb_lt; lia).
    rewrite orb_true_r. reflexivity.
  - destruct ((target_width =? xsize img) && (th =? ysize img)); [reflexivity|].
    rewrite (as_int_fits _ Hf1), (as_int_fits _ Hf2). cbn [mbind result_bind].
    replace (target_width <? 1) with false by (symmetry; apply Z.ltb_ge; lia).
    replace (th <? 1) with false by (symmetry; apply Z.ltb_ge; lia).
    cbn [orb]. destruct (resample LANCZOS img (target_width, th)); reflexivity.
Qed.

(** C3 (the code departs from it).  A 47x47 image at the default target
    width of 384: [H0 * T / W0] is 384 exactly, a whole number, on which
    rounding, floor and ceiling agree.  The code divides first: 384 / 47.0
    is rounded down to the nearest double, 47.0 times that is just below
    384, and [int()] truncates it to 383.  Whatever the mode and the
    pixels of the image, the resizer asks for 384x383, and that is the
    size of what it returns. *)
Theorem resize_image_loses_a_row (md : modes) (st : storage) :
  let img := {| mode := md; size := (47, 47); im := st |} in
  round_div (47 * 384) 47 = 384 /\
  (47 * 384) mod 47 = 0 /\
  int (float_ (ival 47) * float_ (ival 384 / float_ (ival 47)))%py = Ok 383 /\
  resize_image 0%nat None (holding img) =
    match resample LANCZOS img (384, 383) with
    | Ok st' =>
        (Ok 1%nat,
         {| heap := [img; {| mode := md; size := (384, 383); im := st' |}];
            requests := [] |})
    | Raise e => (Raise e, holding img)
    end.
Proof.
  intros img. split; [reflexivity|]. split; [reflexivity|].
  split; [vm_compute; reflexivity|].
  change (resize_image 0%nat None) with (resize_image 0%nat (Some 384)).
  rewrite (run_resize_image (holding img) 0%nat img 384 eq_refl).
  change (xsize img) with 47. change (ysize img) with 47.
  destruct (ival 384 / float_ (ival 47))%py as [wp|e] eqn:Hwp;
    vm_compute in Hwp; [injection Hwp as <- | discriminate Hwp].
  match goal with
  | |- context [int ?e] => replace (int e) with (@Ok Z 383) by (vm_compute; reflexivity)
  end.
  unfold resize. cbn [fst snd]. change (xsize img) with 47. change (ysize img) with 47.
  change ((384 =? 47) && (383 =? 47)) with false. cbv beta iota.
  change (as_int 384) with (@Ok Z 384). change (as_int 383) with (@Ok Z 383).
  cbn [mbind result_bind]. change ((384 <? 1) || (383 <? 1)) with false. cbv beta iota.
  destruct (resample LANCZOS img (384, 383)); reflexivity.
Qed.

End Resizer.

Lemma resize_image_rejects_nonpositive_width_witness :
  exists e, @resize_image offline 0%nat (Some 0) (holding grey_8x7) =
            (Raise e, holding grey_8x7).
Proof.
  destruct (@resize_image_rejects_nonpositive_width offline (holding grey_8x7) 0%nat
              grey_8x7 0) as [Hraise _].
  - reflexivity.
  - reflexivity.
  - lia.
  - exact Hraise.
Defined.

(** The height is truncated, not rounded: an 8x7 image resized to width 2
    gets the height 1, where [round(7 * 2 / 8)] is 2. *)
Lemma resize_image_not_rounded :
  ~ (forall (W : World) (s : state) (r : loc) (img : Image) (target_width : Z),
       heap s !! r = Some img -> wf_image img -> 0 < xsize img ->
       exists r' s' out,
         resize_image r (Some target_width) s = (Ok r', s') /\
         heap s' !! r' = Some out /\
         size out = (target_width, round_div (ysize img * target_width) (xsize img))).
Proof.
  intros Hclaim.
  destruct (Hclaim offline (holding grey_8x7) 0%nat grey_8x7 2)
    as (r' & s' & out & Hrun & Hout & Hsize).
  - reflexivity.
  - split; [split; [reflexivity|]|]; repeat constructor; unfold byte_ok; lia.
  - reflexivity.
  - vm_compute in Hrun. injection Hrun as <- <-.
    vm_compute in Hout. injection Hout as <-.
    vm_compute in Hsize. discriminate.
Qed.

(** Heights that occur: the specification's own example, where the floor
    is also the rounded value; the floor below the rounded value; one less
    than an exact quotient, at the default width and at width 1; and no
    image at all where the library has no memory for the size. *)
Lemma resize_image_heights :
  fst ((r ← @resize_image offline 0%nat (Some 384); Image_size r)
         (holding (grey 1000 500 []))) = Ok (384, 192) /\
  fst ((r ← @resize_image offline 0%nat (Some 2); Image_size r)
         (holding (grey 8 7 []))) = Ok (2, 1) /\
  fst ((r ← @resize_image offline 0%nat None; Image_size r)
         (holding (grey 47 47 []))) = Ok (384, 383) /\
  fst ((r ← @resize_image offline 0%nat (Some 1); Image_size r)
         (holding (grey 49 98 []))) = Ok (1, 1) /\
  fst (@resize_image offline 0%nat (Some INT_MAX) (holding (grey 1 1 [[0]]))) =
    Raise (MemoryError "").
Proof. repeat split; vm_compute; reflexivity. Qed.

(** ** The brightness curve *)

Lemma forallb_seqZ (p : Z -> bool) (a len n : Z) :
  forallb p (seqZ a len) = true -> a <= n < a + len -> p n = true.
Proof.
  intros Hall Hn. rewrite forallb_forall in Hall. apply Hall.
  apply list_elem_of_In, elem_of_seqZ. exact Hn.
Qed.

Lemma min_num_cases (a v : num) :
  min_num a v = a \/ (min_num a v = v /\ lt v a = true).
Proof. unfold min_num. destruct (lt v a); auto. Qed.

Lemma max_num_cases (a v : num) :
  max_num a v = a \/ (max_num a v = v /\ gt v a = true).
Proof. unfold max_num. destruct (gt v a); auto. Qed.

(** A number strictly between 0 and 255 truncates into 0..254. *)
Lemma int_num_between (v : num) :
  gt v (Int 0) = true -> lt v (Int 255) = true ->
  exists t, int_num v = Ok t /\ 0 <= t <= 255.
Proof.
  unfold gt, lt. destruct v as [n|x].
  - cbn [compare int_num]. intros Hgt Hlt. exists n. split; [reflexivity|].
    destruct (Z.compare_spec n 0), (Z.compare_spec n 255); try discriminate; lia.
  - destruct x as [sx|sx| |sx m e]; cbn [compare compare_int_float option_map CompOpp];
      try discriminate.
    + (* infinity *) destruct sx; discriminate.
    + (* finite *)
      rewrite Z.mul_0_l. cbn [int_num trunc].
      destruct (0 <=? e) eqn:Hle; [apply Z.leb_le in Hle|apply Z.leb_gt in Hle].
      * assert (Hp : 0 < 2 ^ e) by (apply Z.pow_pos_nonneg; lia).
        destruct sx.
        -- replace (0 ?= Z.neg m * 2 ^ e) with Gt
             by (symmetry; apply Z.compare_gt_iff; nia). discriminate.
        -- intros _ Hlt. destruct (Z.compare_spec 255 (Z.pos m * 2 ^ e)); try discriminate.
           eexists. split; [reflexivity|]. nia.
      * assert (Hp : 0 < 2 ^ (- e)) by (apply Z.pow_pos_nonneg; lia).
        destruct sx; [discriminate|].
        intros _ Hlt.
        destruct (Z.compare_spec (255 * 2 ^ (- e)) (Z.pos m)); try discriminate.
        eexists. split; [reflexivity|]. split; [apply Z.div_pos; lia|].
        assert (Z.pos m / 2 ^ (- e) < 255); [|lia].
        apply Z.div_lt_upper_bound; lia.
Qed.

(** The clamp [int(max(0, min(255, v)))] lands in 0..255 whatever [v] is,
    also for an infinity or a NaN. *)
Lemma clamp_range (v : num) :
  exists t, int_num (max_num (Int 0) (min_num (Int 255) v)) = Ok t /\ 0 <= t <= 255.
Proof.
  destruct (max_num_cases (Int 0) (min_num (Int 255) v)) as [->|[-> Hgt]].
  - exists 0. split; [reflexivity|lia].
  - destruct (min_num_cases (Int 255) v) as [Hmin|[Hmin Hlt]]; rewrite Hmin in *.
    + exists 255. split; [reflexivity|lia].
    + apply int_num_between; assumption.
Qed.

Lemma float_of_small_int (n : Z) :
  -255 <= n <= 255 -> exists x, float_of_int n = Ok x.
Proof.
  intros Hn.
  assert (Hall : forallb (fun n => match float_of_int n with Ok _ => true | Raise _ => false end)
                   (seqZ (-255) 511) = true) by (vm_compute; reflexivity).
  pose proof (forallb_seqZ _ _ _ n Hall ltac:(lia)) as Hn'. cbn beta in Hn'.
  destruct (float_of_int n) as [x|]; [eauto|discriminate].
Qed.

(** The curve raises nothing on bytes. *)
Lemma adjust_factor_ok (brightness m : Z) :
  0 <= brightness <= 255 -> 0 <= m <= 255 ->
  exists x, adjust_factor brightness m = Ok (Float x).
Proof.
  intros HB Hm. unfold adjust_factor.
  destruct (float_of_small_int m ltac:(lia)) as [xm Hxm].
  destruct (float_of_small_int (brightness - 128) ltac:(lia)) as [xb Hxb].
  unfold Py.sub, Py.mul, Py.truediv, lift2, ival, fval.
  cbn [mbind result_bind sub_num mul_num truediv_num arith to_float].
  rewrite Hxm. cbn [mbind result_bind]. change (is_zero (flit 255)) with false. cbv iota.
  change (float_of_int 1) with (Ok (flit 1)). cbn [mbind result_bind to_float].
  rewrite Hxb. cbn [mbind result_bind].
  change (float_of_int 2) with (Ok (flit 2)). cbn [mbind result_bind].
  eexists. reflexivity.
Qed.

Lemma adjust_range (brightness m : Z) :
  0 <= brightness <= 255 -> 0 <= m <= 255 ->
  exists t, adjust brightness m = Ok t /\ 0 <= t <= 255.
Proof.
  intros HB Hm. unfold adjust.
  destruct (adjust_factor_ok brightness m HB Hm) as [x ->].
  destruct (float_of_small_int m ltac:(lia)) as [xm Hxm].
  unfold Py.int, Py.max, Py.min, Py.add, lift2, ival.
  cbn [mbind result_bind add_num arith to_float].
  rewrite Hxm. cbn [mbind result_bind].
  apply clamp_range.
Qed.

Lemma result_Z_eqb_true r n : result_Z_eqb r n = true -> r = Ok n.
Proof. destruct r as [v|]; cbn; [|discriminate]. intros Hv. apply Z.eqb_eq in Hv. congruence. Qed.

Lemma adjust_endpoints (brightness : Z) :
  0 <= brightness <= 255 ->
  adjust brightness 0 = Ok 0 /\ adjust brightness 255 = Ok 255 /\
  factor_is_zero (adjust_factor brightness 0) = true /\
  factor_is_zero (adjust_factor brightness 255) = true.
Proof.
  intros HB.
  assert (Hall : forallb (fun B =>
                   result_Z_eqb (adjust B 0) 0 && result_Z_eqb (adjust B 255) 255 &&
                   factor_is_zero (adjust_factor B 0) && factor_is_zero (adjust_factor B 255))
                   (seqZ 0 256) = true) by (vm_compute; reflexivity).
  pose proof (forallb_seqZ _ _ _ brightness Hall ltac:(lia)) as HB'. cbn beta in HB'.
  apply andb_prop in HB' as [HB' H4]. apply andb_prop in HB' as [HB' H3].
  apply andb_prop in HB' as [H1 H2].
  auto using result_Z_eqb_true.
Qed.

Lemma adjust_neutral (m : Z) : 0 <= m <= 255 -> adjust 128 m = Ok m.
Proof.
  intros Hm.
  assert (Hall : forallb (fun m => result_Z_eqb (adjust 128 m) m) (seqZ 0 256) = true)
    by (vm_compute; reflexivity).
  apply result_Z_eqb_true. exact (forallb_seqZ _ _ _ m Hall ltac:(lia)).
Qed.

Lemma tabulate_neutral (a : nat) (len : nat) :
  (a + len <= 256)%nat ->
  tabulate (adjust 128) (seqZ (Z.of_nat a) (Z.of_nat len)) = Ok (seqZ (Z.of_nat a) (Z.of_nat len)).
Proof.
  revert a. induction len as [|len IH]; intros a Hlen.
  - reflexivity.
  - rewrite Nat2Z.inj_succ, seqZ_cons by lia. cbn [tabulate].
    rewrite adjust_neutral by lia. cbn [mbind result_bind].
    replace (Z.pred (Z.succ (Z.of_nat len))) with (Z.of_nat len) by lia.
    replace (Z.succ (Z.of_nat a)) with (Z.of_nat (S a)) by lia.
    rewrite IH by lia. cbn [mbind result_bind].
    unfold CLIP8. destruct (Z.leb_spec (Z.of_nat a) 0); [f_equal; f_equal; lia|].
    destruct (Z.ltb_spec (Z.of_nat a) 256); [reflexivity|lia].
Qed.

Lemma point_neutral (g : Image) :
  mode g = M_L -> wf_image g -> point g (adjust 128) = Ok g.
Proof.
  intros Hmode Hwf. unfold point.
  change (seqZ 0 256) with (seqZ (Z.of_nat 0) (Z.of_nat 256)).
  rewrite (tabulate_neutral 0 256) by lia.
  change (seqZ (Z.of_nat 0) (Z.of_nat 256)) with (seqZ 0 256).
  cbn [mbind result_bind].
  unfold wf_image in Hwf. rewrite Hmode in *.
  destruct g as [md sz [rows|rows]]; cbn in *; [|contradiction]. subst md.
  destruct Hwf as [_ Hbytes]. do 3 f_equal.
  rewrite <- (map_id rows) at 2.
  apply map_ext_Forall. eapply Forall_impl; [exact Hbytes|].
  intros row Hrow. cbn beta in *.
  rewrite <- (map_id row) at 2.
  apply map_ext_Forall. eapply Forall_impl; [exact Hrow|].
  intros v Hv. cbn beta. unfold lookup_table, byte_ok in *.
  apply list_lookup_total_correct, lookup_seqZ. lia.
Qed.

(** C4.  For every brightness in 0..255 the curve sends 0 to 0 and 255 to
    255, its factor is zero at both ends, and every output is in 0..255;
    at brightness 128 the curve is the identity on 0..255, and applying it
    to a grey image returns the image. *)
Theorem tone_curve_properties (brightness : Z) :
  0 <= brightness <= 255 ->
  adjust brightness 0 = Ok 0 /\
  adjust brightness 255 = Ok 255 /\
  factor_is_zero (adjust_factor brightness 0) = true /\
  factor_is_zero (adjust_factor brightness 255) = true /\
  (forall m, 0 <= m <= 255 -> adjust 128 m = Ok m) /\
  (forall g, mode g = M_L -> wf_image g -> point g (adjust 128) = Ok g) /\
  (forall m, 0 <= m <= 255 ->
     exists t, adjust brightness m = Ok t /\ 0 <= t <= 255).
Proof.
  intros HB. destruct (adjust_endpoints brightness HB) as (H0 & H255 & Hf0 & Hf255).
  repeat split; try assumption.
  - apply adjust_neutral.
  - apply point_neutral.
  - intros m Hm. exact (adjust_range brightness m HB Hm).
Qed.

Lemma tone_curve_properties_witness :
  adjust 200 0 = Ok 0 /\ adjust 200 255 = Ok 255.
Proof.
  destruct (tone_curve_properties 200) as (H0 & H255 & _).
  - lia.
  - split; [exact H0|exact H255].
Defined.

(** C8 (the code departs from it).  The default brightness of
    [to_grayscale] is 127, not the neutral 128: the curve is applied, and
    it darkens every grey value from 1 to 254 by one.  One opaque pixel of
    value 128 comes out as 127 by default and as 128 at brightness 128. *)
Theorem default_brightness_off_neutral :
  (forall r alpha_as_white,
     to_grayscale r None alpha_as_white = to_grayscale r (Some 127) alpha_as_white) /\
  Forall (fun m => adjust 127 m = Ok (m - 1)) (seqZ 1 254) /\
  (img ← dithered (fun r => to_grayscale r None None) mid_grey_pixel;
   pixel_at img 0 0) = Some 127 /\
  (img ← dithered (fun r => to_grayscale r (Some 128) None) mid_grey_pixel;
   pixel_at img 0 0) = Some 128.
Proof.
  split; [reflexivity|]. split; [|split; vm_compute; reflexivity].
  apply Forall_forall. intros m Hm. apply elem_of_seqZ in Hm.
  assert (Hall : forallb (fun m => result_Z_eqb (adjust 127 m) (m - 1)) (seqZ 1 254) = true)
    by (vm_compute; reflexivity).
  apply result_Z_eqb_true. exact (forallb_seqZ _ _ _ m Hall Hm).
Qed.

(* ===================================================================== *)
(** * Further properties of the pipeline                                  *)
(* ===================================================================== *)

Import Stages Inputs.

(** ** Floyd-Steinberg: shape and values *)

Lemma tobilevel_pixel_out st xv :
  exists o, fs_out (tobilevel_pixel st xv) = fs_out st ++ [o] /\ two_level o.
Proof.
  destruct xv as [x v]. cbn [tobilevel_pixel fs_out].
  eexists. split; [reflexivity|].
  destruct (128 <? _); [right | left]; reflexivity.
Qed.

Lemma tobilevel_fold_out l : forall st,
  exists outs,
    fs_out (fold_left tobilevel_pixel l st) = fs_out st ++ outs /\
    length outs = length l /\ Forall two_level outs.
Proof.
  induction l as [|xv l IH]; intros st.
  - exists []. rewrite app_nil_r. repeat split; constructor.
  - cbn [fold_left]. destruct (IH (tobilevel_pixel st xv)) as (outs & Ho & Hl & Hf).
    destruct (tobilevel_pixel_out st xv) as (o & Hs & Ht).
    exists (o :: outs). rewrite Ho, Hs, <- app_assoc. cbn.
    repeat split; [congruence | constructor; assumption].
Qed.

Lemma tobilevel_row_out errors row :
  length (snd (tobilevel_row errors row)) = length row /\
  Forall two_level (snd (tobilevel_row errors row)).
Proof.
  unfold tobilevel_row. cbn [snd].
  destruct (tobilevel_fold_out (zip (seq 0 (length row)) row)
              {| fs_l := 0; fs_l0 := 0; fs_l1 := 0; fs_errors := errors; fs_out := [] |})
    as (outs & Ho & Hl & Hf).
  rewrite Ho. cbn [fs_out app]. split; [|assumption].
  rewrite Hl, length_zip_with, length_seq. lia.
Qed.

Lemma tobilevel_scan_fold rows : forall errors outs,
  exists outs',
    snd (fold_left
         (fun '(errors, outs) row =>
            let '(errors, out) := tobilevel_row errors row in
            (errors, outs ++ [out]))
         rows (errors, outs)) = outs ++ outs' /\
    Forall2 (fun row out => length out = length row /\ Forall two_level out) rows outs'.
Proof.
  induction rows as [|row rows IH]; intros errors outs.
  - exists []. rewrite app_nil_r. split; [reflexivity | constructor].
  - cbn [fold_left].
    pose proof (tobilevel_row_out errors row) as Hrow.
    destruct (tobilevel_row errors row) as [errors' out]. cbn [snd] in Hrow.
    destruct (IH errors' (outs ++ [out])) as (outs' & Ho & Hf).
    exists (out :: outs'). rewrite Ho, <- app_assoc. split; [reflexivity|].
    constructor; assumption.
Qed.

Lemma tobilevel_scan_out xs rows :
  Forall2 (fun row out => length out = length row /\ Forall two_level out)
    rows (tobilevel_scan xs rows).
Proof.
  unfold tobilevel_scan.
  destruct (tobilevel_scan_fold rows (replicate (Z.to_nat (xs + 1)) 0) []) as (outs' & Ho & Hf).
  rewrite Ho. exact Hf.
Qed.

(** A grey raster whose values are already 0 or 255 leaves no error to
    diffuse. *)
Lemma tobilevel_pixel_two_level (n x : nat) (v : Z) (out : list Z) :
  (S x < n)%nat -> two_level v ->
  tobilevel_pixel
    {| fs_l := 0; fs_l0 := 0; fs_l1 := 0; fs_errors := replicate n 0; fs_out := out |}
    (x, v) =
  {| fs_l := 0; fs_l0 := 0; fs_l1 := 0; fs_errors := replicate n 0;
     fs_out := out ++ [v] |}.
Proof.
  intros Hx Hv. unfold tobilevel_pixel. cbn [fs_l fs_l0 fs_l1 fs_errors fs_out].
  assert (Hz : replicate n 0 !!! S x = 0).
  { apply list_lookup_total_correct, lookup_replicate_2. exact Hx. }
  rewrite Hz.
  destruct Hv as [-> | ->]; cbn; rewrite insert_replicate; reflexivity.
Qed.

Lemma tobilevel_fold_two_level (n : nat) (l : list (nat * Z)) : forall out,
  Forall (fun xv => (S (fst xv) < n)%nat /\ two_level (snd xv)) l ->
  fold_left tobilevel_pixel l
    {| fs_l := 0; fs_l0 := 0; fs_l1 := 0; fs_errors := replicate n 0; fs_out := out |} =
  {| fs_l := 0; fs_l0 := 0; fs_l1 := 0; fs_errors := replicate n 0;
     fs_out := out ++ map snd l |}.
Proof.
  induction l as [|[x v] l IH]; intros out Hl.
  - cbn. rewrite app_nil_r. reflexivity.
  - apply Forall_cons in Hl as [[Hx Hv] Hl]. cbn [fold_left fst snd] in *.
    rewrite tobilevel_pixel_two_level by assumption.
    rewrite IH by assumption. cbn [map snd]. rewrite <- app_assoc. reflexivity.
Qed.

Lemma tobilevel_row_two_level (n : nat) (row : list Z) :
  (length row < n)%nat -> Forall two_level row ->
  tobilevel_row (replicate n 0) row = (replicate n 0, row).
Proof.
  intros Hn Hrow. unfold tobilevel_row.
  rewrite (tobilevel_fold_two_level n).
  - cbn [fs_l0 fs_errors fs_out app]. rewrite insert_replicate.
    f_equal. apply snd_zip. rewrite length_seq. lia.
  - apply Forall_lookup_2. intros i [x v] Hi.
    apply lookup_zip_with_Some in Hi as (x' & v' & Heq & Hx & Hv).
    injection Heq as <- <-. cbn [fst snd].
    apply lookup_seq in Hx as [-> Hi]. split; [cbn; lia|].
    eapply Forall_lookup_1; eassumption.
Qed.

Lemma tobilevel_scan_fold_two_level (n : nat) (rows : list (list Z)) : forall outs,
  Forall (fun row => (length row < n)%nat /\ Forall two_level row) rows ->
  fold_left
    (fun '(errors, outs) row =>
       let '(errors, out) := tobilevel_row errors row in
       (errors, outs ++ [out]))
    rows (replicate n 0, outs) = (replicate n 0, outs ++ rows).
Proof.
  induction rows as [|row rows IH]; intros outs Hrows.
  - cbn. rewrite app_nil_r. reflexivity.
  - apply Forall_cons in Hrows as [[Hn Hrow] Hrows]. cbn [fold_left].
    rewrite tobilevel_row_two_level by assumption.
    rewrite IH by assumption. rewrite <- app_assoc. reflexivity.
Qed.

Lemma tobilevel_scan_two_level (xs : Z) (rows : list (list Z)) :
  Forall (fun row => Z.of_nat (length row) = xs) rows ->
  Forall (Forall two_level) rows ->
  tobilevel_scan xs rows = rows.
Proof.
  intros Hshape Hval. unfold tobilevel_scan.
  rewrite tobilevel_scan_fold_two_level; [reflexivity|].
  apply Forall_lookup_2. intros i row Hi. split.
  - pose proof (Forall_lookup_1 _ _ _ _ Hshape Hi) as Hlen. cbn beta in Hlen. lia.
  - exact (Forall_lookup_1 _ _ _ _ Hval Hi).
Qed.

Lemma l2bit_two_level (row : list Z) : Forall two_level row -> l2bit row = row.
Proof.
  intros Hrow. unfold l2bit. induction Hrow as [|v row Hv _ IH]; [reflexivity|].
  cbn [map]. rewrite IH. destruct Hv as [-> | ->]; reflexivity.
Qed.

(** ** Conversions keep the invariant of image objects *)

Lemma mode_eqb_eq (m1 m2 : modes) : mode_eqb m1 m2 = true <-> m1 = m2.
Proof. destruct m1, m2; cbn; split; congruence. Qed.

Lemma two_level_byte_ok (v : Z) : two_level v -> byte_ok v.
Proof. unfold byte_ok. intros [-> | ->]; lia. Qed.

Lemma shape_ok_Forall2 {A B : Type} (sz : Z * Z) (rows : list (list A))
    (outs : list (list B)) :
  Forall2 (fun row out => length out = length row) rows outs ->
  shape_ok sz rows -> shape_ok sz outs.
Proof.
  intros Hf [Hh Hw]. split.
  - rewrite <- (Forall2_length _ _ _ Hf). exact Hh.
  - clear Hh. induction Hf as [|row out rows outs Hlen Hf IH]; [constructor|].
    apply Forall_cons in Hw as [Hrow Hw]. constructor; [lia | auto].
Qed.

Lemma shape_ok_map {A B : Type} (f : A -> B) (sz : Z * Z) (rows : list (list A)) :
  shape_ok sz rows -> shape_ok sz (map (map f) rows).
Proof.
  apply shape_ok_Forall2. induction rows; constructor; [apply length_map | assumption].
Qed.

Lemma Forall_rows_map {A B : Type} (P : A -> Prop) (Q : B -> Prop) (f : A -> B)
    (rows : list (list A)) :
  (forall a, P a -> Q (f a)) ->
  Forall (Forall P) rows -> Forall (Forall Q) (map (map f) rows).
Proof.
  intros Hf Hrows. apply Forall_map. eapply Forall_impl; [exact Hrows|].
  intros row Hrow. apply Forall_map. eapply Forall_impl; [exact Hrow|]. exact Hf.
Qed.

Lemma tobilevel_scan_shape (sz : Z * Z) (xs : Z) (rows : list (list Z)) :
  shape_ok sz rows -> shape_ok sz (tobilevel_scan xs rows).
Proof.
  apply shape_ok_Forall2. eapply Forall2_impl; [apply tobilevel_scan_out|].
  intros row out [Hlen _]. exact Hlen.
Qed.

Lemma tobilevel_scan_two_levels (xs : Z) (rows : list (list Z)) :
  Forall (Forall two_level) (tobilevel_scan xs rows).
Proof.
  pose proof (tobilevel_scan_out xs rows) as Hf.
  induction Hf as [|row out rows outs [_ Hout] _ IH]; constructor; assumption.
Qed.

Lemma tobilevel_scan_bytes (xs : Z) (rows : list (list Z)) :
  Forall (Forall byte_ok) (tobilevel_scan xs rows).
Proof.
  eapply Forall_impl; [apply tobilevel_scan_two_levels|].
  intros row Hrow. eapply Forall_impl; [exact Hrow|]. exact two_level_byte_ok.
Qed.

Lemma luma_byte_ok (p : pixel32) : pixel32_ok p -> byte_ok (Z.shiftr (L24 p) 16).
Proof.
  destruct p as [[[r g] b] a]. unfold pixel32_ok, byte_ok, L24.
  intros (Hr & Hg & Hb & _). rewrite Z.shiftr_div_pow2 by lia.
  change (2 ^ 16) with 65536. lia.
Qed.

Lemma ImagingConvert_mode_size img to d img' :
  ImagingConvert img to d = Ok img' -> mode img' = to /\ size img' = size img.
Proof.
  unfold ImagingConvert. destruct (mode_eqb (mode img) to) eqn:Heq.
  - intros [= <-]. apply mode_eqb_eq in Heq. auto.
  - destruct (if d && mode_eqb to M_1 then tobilevel img else standard_convert img to);
      cbn.
    + intros Hi. injection Hi as <-. auto.
    + intros Hi. discriminate Hi.
Qed.

Lemma convert_mode_size img to d img' :
  convert img to d = Ok img' -> mode img' = to /\ size img' = size img.
Proof.
  unfold convert. destruct (mode_eqb to (mode img)) eqn:Heq.
  - intros [= <-]. apply mode_eqb_eq in Heq. auto.
  - destruct (ImagingConvert img to _) as [img1|e] eqn:H1.
    + intros [= <-]. eapply ImagingConvert_mode_size, H1.
    + destruct e; cbv beta iota; try (intros Hd; discriminate Hd).
      destruct (mode_eqb (getmodebase (mode img)) (mode img)); [intros Hd; discriminate Hd|].
      destruct (ImagingConvert img (getmodebase (mode img)) false) as [img2|e2] eqn:H2;
        cbn; [|intros Hd; discriminate Hd].
      intros H3. apply ImagingConvert_mode_size in H2 as [_ H2], H3 as [H3 H4].
      split; congruence.
Qed.

Lemma pixel32_ok_intro (r g b a : Z) :
  byte_ok r -> byte_ok g -> byte_ok b -> byte_ok a -> pixel32_ok (r, g, b, a).
Proof. cbn. auto. Qed.

Lemma convert_wf img to d :
  wf_image img -> exists img', convert img to d = Ok img' /\ wf_image img'.
Proof.
  destruct img as [md sz st]. unfold wf_image. cbn [mode im size].
  destruct md, st as [rows|rows]; try contradiction; intros [Hshape Hbytes];
    destruct to; destruct d as [[]|];
    cbv [convert ImagingConvert standard_convert tobilevel getmodebase mode_eqb mode im
         size default from_option id dither_flag andb mbind result_bind xsize];
    (eexists; split; [reflexivity|]); unfold wf_image; cbn [mode im size];
    (split;
     [ try assumption; try apply tobilevel_scan_shape; try assumption;
       repeat apply shape_ok_map; try assumption
     | try assumption; try apply tobilevel_scan_bytes;
       try (eapply Forall_rows_map; [|exact Hbytes]; cbv beta zeta) ]).
  all: try (intros p; apply luma_byte_ok).
  all: try (intros v Hv; destruct (v =? 0); try apply pixel32_ok_intro; unfold byte_ok in *; lia).
  all: try (intros v Hv; destruct (128 <=? v); unfold byte_ok; lia).
  all: try (intros v Hv; apply pixel32_ok_intro; unfold byte_ok in *; lia).
  all: try (intros p Hp; destruct (128000 <=? L p); unfold byte_ok; lia).
  all: try (intros [[[r g] b] a] (Hr & Hg & Hb & Ha); apply pixel32_ok_intro;
            unfold byte_ok in *; lia).
Qed.

(** ** Compositing over white *)

Lemma composite_channel (c a : Z) :
  byte_ok c -> byte_ok a ->
  byte_ok (Z.shiftr (SHIFTFORDIV255 (c * (a * 128) + 255 * (255 * 128 - a * 128) + 16384)) 7)
  /\ (a = 255 ->
      Z.shiftr (SHIFTFORDIV255 (c * (a * 128) + 255 * (255 * 128 - a * 128) + 16384)) 7 = c).
Proof.
  unfold byte_ok, SHIFTFORDIV255. intros Hc Ha.
  rewrite !Z.shiftr_div_pow2 by lia.
  change (2 ^ 8) with 256. change (2 ^ 7) with 128.
  assert (Ht : 0 <= c * a <= 255 * a) by nia.
  replace (c * (a * 128) + 255 * (255 * 128 - a * 128) + 16384)
    with (128 * (c * a) + 32640 * (255 - a) + 16384) by ring.
  remember (c * a) as t eqn:Et. split.
  - lia.
  - intros ->. subst t. lia.
Qed.

Lemma composite_white (r g b a : Z) :
  byte_ok a -> a <> 0 ->
  composite_pixel white (r, g, b, a) =
  (Z.shiftr (SHIFTFORDIV255 (r * (a * 128) + 255 * (255 * 128 - a * 128) + 16384)) 7,
   Z.shiftr (SHIFTFORDIV255 (g * (a * 128) + 255 * (255 * 128 - a * 128) + 16384)) 7,
   Z.shiftr (SHIFTFORDIV255 (b * (a * 128) + 255 * (255 * 128 - a * 128) + 16384)) 7,
   255).
Proof.
  intros Ha Hnz. unfold composite_pixel, white.
  destruct (Z.eqb_spec a 0) as [|_]; [contradiction|].
  change (Z.shiftl 1 PRECISION_BITS) with 128.
  change (Z.shiftl 128 PRECISION_BITS) with 16384.
  change PRECISION_BITS with 7.
  replace (a * 255 + 255 * (255 - a)) with 65025 by ring.
  replace (a * 255 * 255 * 128) with (a * 128 * 65025) by ring.
  rewrite Z.div_mul by lia. reflexivity.
Qed.

Lemma composite_white_transparent (r g b : Z) :
  composite_pixel white (r, g, b, 0) = white.
Proof. reflexivity. Qed.

Lemma composite_white_opaque (r g b : Z) :
  byte_ok r -> byte_ok g -> byte_ok b ->
  composite_pixel white (r, g, b, 255) = (r, g, b, 255).
Proof.
  intros Hr Hg Hb. assert (Ha : byte_ok 255) by (unfold byte_ok; lia).
  rewrite composite_white by (assumption || lia).
  destruct (composite_channel r 255 Hr Ha) as [_ ->]; [|reflexivity].
  destruct (composite_channel g 255 Hg Ha) as [_ ->]; [|reflexivity].
  destruct (composite_channel b 255 Hb Ha) as [_ ->]; [|reflexivity].
  reflexivity.
Qed.

Lemma composite_white_ok (p : pixel32) :
  pixel32_ok p -> pixel32_ok (composite_pixel white p).
Proof.
  destruct p as [[[r g] b] a]. intros (Hr & Hg & Hb & Ha).
  destruct (Z.eq_dec a 0) as [-> | Hnz].
  - rewrite composite_white_transparent. apply pixel32_ok_intro; unfold byte_ok; lia.
  - rewrite composite_white by assumption.
    apply pixel32_ok_intro; try (apply composite_channel; assumption).
    unfold byte_ok; lia.
Qed.

Lemma zip_with_white (w : nat) (rows : list (list pixel32)) :
  Forall (fun row => length row = w) rows ->
  zip_with (zip_with composite_pixel) (replicate (length rows) (replicate w white)) rows =
  map (map (composite_pixel white)) rows.
Proof.
  intros Hw. rewrite zip_with_replicate_l by reflexivity.
  apply map_ext_Forall. eapply Forall_impl; [exact Hw|].
  intros row Hrow. cbn beta in Hrow. apply zip_with_replicate_l. lia.
Qed.

Lemma alpha_composite_white (img : Image) (rows : list (list pixel32)) :
  mode img = M_RGBA -> im img = image32 rows -> wf_image img -> 0 <= xsize img ->
  (background ← new M_RGBA (size img) white; alpha_composite background img) =
  Ok {| mode := M_RGBA; size := size img;
        im := image32 (map (map (composite_pixel white)) rows) |}.
Proof.
  intros Hmode Him Hwf Hx. unfold wf_image in Hwf. rewrite Hmode, Him in Hwf.
  destruct Hwf as [[Hh Hw] _]. unfold new, xsize in *.
  destruct (Z.ltb_spec (fst (size img)) 0) as [|_]; [lia|].
  destruct (Z.ltb_spec (snd (size img)) 0) as [|_]; [lia|].
  cbn [orb mbind result_bind]. unfold alpha_composite. cbn [mode im size].
  rewrite Hmode, Him. unfold xsize, ysize. cbn [size].
  rewrite !Z.eqb_refl. cbn [andb]. do 3 f_equal.
  rewrite <- Hh, Nat2Z.id. apply zip_with_white.
  eapply Forall_impl; [exact Hw|]. intros row Hrow. cbn beta in *. lia.
Qed.

(** ** The brightness table *)

Lemma tabulate_lookup (lut : Z -> result Z) (len : nat) : forall a : nat,
  (forall x, Z.of_nat a <= x < Z.of_nat a + Z.of_nat len -> exists t, lut x = Ok t) ->
  exists table,
    tabulate lut (seqZ (Z.of_nat a) (Z.of_nat len)) = Ok table /\
    forall x t, Z.of_nat a <= x < Z.of_nat a + Z.of_nat len -> lut x = Ok t ->
      table !! Z.to_nat (x - Z.of_nat a) = Some (CLIP8 t).
Proof.
  induction len as [|len IH]; intros a Hlut.
  - exists []. split; [reflexivity|]. intros x t Hx. lia.
  - rewrite Nat2Z.inj_succ, seqZ_cons by lia. cbn [tabulate].
    destruct (Hlut (Z.of_nat a) ltac:(lia)) as [t0 Ht0]. rewrite Ht0.
    cbn [mbind result_bind].
    replace (Z.pred (Z.succ (Z.of_nat len))) with (Z.of_nat len) by lia.
    replace (Z.succ (Z.of_nat a)) with (Z.of_nat (S a)) by lia.
    destruct (IH (S a)) as (table & Htab & Hlook).
    { intros x Hx. apply Hlut. lia. }
    rewrite Htab. cbn [mbind result_bind]. eexists. split; [reflexivity|].
    intros x t Hx Hxt. destruct (Z.eq_dec x (Z.of_nat a)) as [-> | Hne].
    + rewrite Z.sub_diag. rewrite Ht0 in Hxt. injection Hxt as <-. reflexivity.
    + replace (Z.to_nat (x - Z.of_nat a)) with (S (Z.to_nat (x - Z.of_nat (S a)))) by lia.
      cbn [lookup list_lookup]. apply Hlook; [lia | assumption].
Qed.

Lemma CLIP8_byte (t : Z) : 0 <= t <= 255 -> CLIP8 t = t.
Proof.
  intros Ht. unfold CLIP8. destruct (Z.leb_spec t 0); [lia|].
  destruct (Z.ltb_spec t 256); lia.
Qed.

Lemma point_adjust (brightness : Z) (g : Image) (rows : list (list Z)) :
  0 <= brightness <= 255 -> mode g = M_L -> im g = image8 rows -> wf_image g ->
  exists t : Z -> Z,
    point g (adjust brightness) =
      Ok {| mode := M_L; size := size g; im := image8 (map (map t) rows) |} /\
    forall v, byte_ok v -> adjust brightness v = Ok (t v) /\ byte_ok (t v).
Proof.
  intros HB Hmode Him Hwf. unfold point.
  destruct (tabulate_lookup (adjust brightness) 256 0) as (table & Htab & Hlook).
  { intros x Hx. destruct (adjust_range brightness x HB ltac:(lia)) as (t & Ht & _).
    eauto. }
  change (seqZ (Z.of_nat 0) (Z.of_nat 256)) with (seqZ 0 256) in Htab.
  rewrite Htab. cbn [mbind result_bind]. rewrite Hmode, Him.
  exists (lookup_table table). split; [reflexivity|].
  intros v Hv. unfold byte_ok in Hv.
  destruct (adjust_range brightness v HB Hv) as (t & Ht & Hrange).
  assert (Hl : lookup_table table v = t).
  { unfold lookup_table. apply list_lookup_total_correct.
    specialize (Hlook v t ltac:(lia) Ht). rewrite Z.sub_0_r in Hlook.
    rewrite Hlook, CLIP8_byte by assumption. reflexivity. }
  rewrite Hl. split; assumption.
Qed.

(** ** Stages on references and stages on images *)

Lemma extends_refl (s : state) : extends s s.
Proof. split; [reflexivity|]. exists []. rewrite app_nil_r. reflexivity. Qed.

Lemma extends_trans (s1 s2 s3 : state) :
  extends s1 s2 -> extends s2 s3 -> extends s1 s3.
Proof.
  intros [Hr1 [m1 Hh1]] [Hr2 [m2 Hh2]]. split; [congruence|].
  exists (m1 ++ m2). rewrite Hh2, Hh1, app_assoc. reflexivity.
Qed.

Lemma extends_lookup (s s' : state) (r : loc) (img : Image) :
  extends s s' -> heap s !! r = Some img -> heap s' !! r = Some img.
Proof. intros [_ [more ->]] Hr. apply lookup_app_l_Some, Hr. Qed.

Lemma runs_ret (s : state) (r : loc) (g : Image) :
  heap s !! r = Some g -> runs (mret r) s (Ok g).
Proof. intros Hr. exists s. split; [apply extends_refl|]. exists r. split; [reflexivity|exact Hr]. Qed.

Lemma runs_bind (m : M loc) (k : loc -> M loc) (s : state) (res : result Image)
    (f : Image -> result Image) :
  runs m s res ->
  (forall r' s' g, extends s s' -> heap s' !! r' = Some g -> res = Ok g ->
     runs (k r') s' (f g)) ->
  runs (m ≫= k) s (res ≫= f).
Proof.
  intros (s1 & Hext & Hm) Hk. destruct res as [g|e].
  - destruct Hm as (r' & Hm & Hr'). cbn [mbind result_bind].
    destruct (Hk r' s1 g Hext Hr' eq_refl) as (s2 & Hext2 & Hkk).
    exists s2. split; [eapply extends_trans; eassumption|].
    rewrite (run_bind_ok _ _ _ _ _ Hm). exact Hkk.
  - exists s1. split; [assumption|]. cbn [mbind result_bind].
    apply run_bind_raise, Hm.
Qed.

Lemma runs_bind_ret (m : M loc) (s : state) (res : result Image) :
  runs m s res -> runs (r ← m; mret r) s res.
Proof.
  intros (s1 & Hext & Hm). exists s1. split; [assumption|].
  destruct res as [g|e].
  - destruct Hm as (r' & Hm & Hr'). exists r'.
    rewrite (run_bind_ok _ _ _ _ _ Hm). split; [reflexivity | assumption].
  - apply run_bind_raise, Hm.
Qed.

Lemma runs_alloc (s : state) (res : result Image) :
  runs (img ← lift res; alloc img) s res.
Proof.
  destruct res as [g|e].
  - exists {| heap := heap s ++ [g]; requests := requests s |}. split.
    + split; [reflexivity|]. exists [g]. reflexivity.
    + exists (length (heap s)). split; [reflexivity|]. apply lookup_alloc.
  - exists s. split; [apply extends_refl | reflexivity].
Qed.

Lemma runs_Image_convert (s : state) (r : loc) (img : Image) to dither :
  heap s !! r = Some img -> runs (Image_convert r to dither) s (convert img to dither).
Proof.
  intros Hr. destruct (runs_alloc s (convert img to dither)) as (s' & Hext & Hrun).
  exists s'. split; [assumption|]. unfold Image_convert.
  rewrite (run_bind_ok _ _ _ _ _ (run_deref s r img Hr)). exact Hrun.
Qed.

Lemma runs_Image_point (s : state) (r : loc) (img : Image) lut :
  heap s !! r = Some img -> runs (Image_point r lut) s (point img lut).
Proof.
  intros Hr. destruct (runs_alloc s (point img lut)) as (s' & Hext & Hrun).
  exists s'. split; [assumption|]. unfold Image_point.
  rewrite (run_bind_ok _ _ _ _ _ (run_deref s r img Hr)). exact Hrun.
Qed.

Lemma runs_Image_resize `{World} (s : state) (r : loc) (img : Image) sz filter :
  heap s !! r = Some img ->
  runs (Image_resize r sz filter) s (resize resample img sz filter).
Proof.
  intros Hr. destruct (runs_alloc s (resize resample img sz filter)) as (s' & Hext & Hrun).
  exists s'. split; [assumption|]. unfold Image_resize.
  rewrite (run_bind_ok _ _ _ _ _ (run_deref s r img Hr)). exact Hrun.
Qed.

Lemma run_over_white (s : state) (r : loc) (img : Image) :
  heap s !! r = Some img ->
  (size ← Image_size r;
   background ← Image_new M_RGBA size (255, 255, 255, 255);
   Image_alpha_composite background r) s =
  match new M_RGBA (size img) white with
  | Ok bg =>
      (img0 ← lift (alpha_composite bg img); alloc img0)
        {| heap := heap s ++ [bg]; requests := requests s |}
  | Raise e => (Raise e, s)
  end.
Proof.
  intros Hr. rewrite (run_bind_ok _ _ _ _ _ (run_Image_size s r img Hr)).
  unfold Image_new, white.
  destruct (new M_RGBA (size img) (255, 255, 255, 255)) as [bg|e] eqn:Hnew;
    [|reflexivity].
  set (s1 := {| heap := heap s ++ [bg]; requests := requests s |}).
  assert (Hbg : heap s1 !! length (heap s) = Some bg) by apply lookup_alloc.
  assert (Hr1 : heap s1 !! r = Some img) by (apply lookup_app_l_Some, Hr).
  rewrite (run_bind_ok _ _ s s1 (length (heap s))) by reflexivity.
  unfold Image_alpha_composite.
  rewrite (run_bind_ok _ _ _ _ _ (run_deref s1 _ bg Hbg)).
  rewrite (run_bind_ok _ _ _ _ _ (run_deref s1 r img Hr1)). reflexivity.
Qed.

Lemma runs_over_white (s : state) (r : loc) (img : Image) :
  heap s !! r = Some img ->
  runs (size ← Image_size r;
        background ← Image_new M_RGBA size (255, 255, 255, 255);
        Image_alpha_composite background r) s
       (background ← new M_RGBA (size img) white; alpha_composite background img).
Proof.
  intros Hr. unfold runs. rewrite (run_over_white s r img Hr).
  destruct (new M_RGBA (size img) white) as [bg|e].
  - cbn [mbind result_bind].
    set (s1 := {| heap := heap s ++ [bg]; requests := requests s |}).
    assert (Hext : extends s s1).
    { split; [reflexivity|]. exists [bg]. reflexivity. }
    destruct (runs_alloc s1 (alpha_composite bg img)) as (s2 & Hext2 & Hrun).
    exists s2. split; [eapply extends_trans; eassumption | exact Hrun].
  - cbn [mbind result_bind]. exists s. split; [apply extends_refl | reflexivity].
Qed.

Lemma runs_to_grayscale (s : state) (r : loc) (img : Image)
    (brightness : option Z) (alpha_as_white : option bool) :
  heap s !! r = Some img ->
  runs (to_grayscale r brightness alpha_as_white) s
       (grayscale_of img (default 127 brightness) (default true alpha_as_white)).
Proof.
  intros Hr. unfold to_grayscale, grayscale_of.
  apply runs_bind; [apply runs_Image_convert, Hr|].
  intros r1 s1 i1 _ Hr1 _.
  apply runs_bind.
  { destruct (default true alpha_as_white);
      [apply runs_over_white, Hr1 | apply runs_ret, Hr1]. }
  intros r2 s2 i2 _ Hr2 _.
  apply runs_bind; [apply runs_Image_convert, Hr2|].
  intros r3 s3 i3 _ Hr3 _.
  apply runs_bind_ret.
  destruct (negb (default 127 brightness =? 128));
    [apply runs_Image_point, Hr3 | apply runs_ret, Hr3].
Qed.

(** ** [to_grayscale] on images *)

Lemma wf_image32 (img : Image) :
  mode img = M_RGBA -> wf_image img ->
  exists rows, im img = image32 rows /\ shape_ok (size img) rows /\
               Forall (Forall pixel32_ok) rows.
Proof.
  unfold wf_image. intros ->. destruct (im img) as [rows|rows]; [contradiction|].
  intros [Hs Hb]. eauto.
Qed.

Lemma wf_image8 (img : Image) :
  mode img = M_L -> wf_image img ->
  exists rows, im img = image8 rows /\ shape_ok (size img) rows /\
               Forall (Forall byte_ok) rows.
Proof.
  unfold wf_image. intros ->. destruct (im img) as [rows|rows]; [|contradiction].
  intros [Hs Hb]. eauto.
Qed.

Lemma grayscale_of_via_rgba (img i1 : Image) (brightness : Z) (alpha_as_white : bool) :
  convert img M_RGBA None = Ok i1 ->
  grayscale_of img brightness alpha_as_white = grayscale_of i1 brightness alpha_as_white.
Proof.
  intros H1. unfold grayscale_of. rewrite H1.
  destruct (convert_mode_size _ _ _ _ H1) as [Hmode _].
  assert (H2 : convert i1 M_RGBA None = Ok i1).
  { unfold convert. rewrite Hmode. reflexivity. }
  rewrite H2. reflexivity.
Qed.

Lemma grayscale_of_rgba (img : Image) (rows : list (list pixel32))
    (brightness : Z) (alpha_as_white : bool) :
  mode img = M_RGBA -> im img = image32 rows -> wf_image img -> 0 <= xsize img ->
  0 <= brightness <= 255 ->
  exists t : Z -> Z,
    grayscale_of img brightness alpha_as_white =
      Ok {| mode := M_L; size := size img;
            im := image8
                    (map (map (fun p =>
                       t (Z.shiftr (L24 (if alpha_as_white
                                         then composite_pixel white p else p)) 16)))
                       rows) |} /\
    forall v, byte_ok v -> adjust brightness v = Ok (t v) /\ byte_ok (t v).
Proof.
  intros Hmode Him Hwf Hx HB.
  destruct (wf_image32 img Hmode Hwf) as (rows' & Him' & Hshape & Hpix).
  assert (rows' = rows) as -> by congruence. clear Him'.
  set (f := fun p : pixel32 => if alpha_as_white then composite_pixel white p else p).
  assert (Hf : forall p, pixel32_ok p -> pixel32_ok (f p)).
  { intros p Hp. unfold f. destruct alpha_as_white; [apply composite_white_ok|]; exact Hp. }
  set (i2 := {| mode := M_RGBA; size := size img; im := image32 (map (map f) rows) |}).
  assert (H1 : convert img M_RGBA None = Ok img).
  { unfold convert. rewrite Hmode. reflexivity. }
  assert (H2 : (if alpha_as_white
                then background ← new M_RGBA (size img) white;
                     alpha_composite background img
                else Ok img) = Ok i2).
  { unfold f, i2. destruct alpha_as_white.
    - apply alpha_composite_white; assumption.
    - destruct img as [md sz st]. cbn in *. subst md st.
      do 3 f_equal. rewrite <- (map_id rows) at 1. apply map_ext. intros row.
      symmetry. apply map_id. }
  set (rows3 := map (map (fun p => Z.shiftr (L24 (f p)) 16)) rows).
  set (i3 := {| mode := M_L; size := size img; im := image8 rows3 |}).
  assert (H3 : convert i2 M_L None = Ok i3).
  { unfold i2, i3, rows3. cbv [convert ImagingConvert standard_convert mode_eqb mode im size
         default from_option id dither_flag andb mbind result_bind].
    do 3 f_equal. rewrite map_map. apply map_ext. intros row.
    unfold rgb2l. rewrite map_map. reflexivity. }
  assert (Hwf3 : wf_image i3).
  { unfold wf_image, i3, rows3. cbn [mode im size]. split.
    - apply shape_ok_map, Hshape.
    - eapply Forall_rows_map; [|exact Hpix]. intros p Hp. cbn beta.
      apply luma_byte_ok, Hf, Hp. }
  unfold grayscale_of. rewrite H1. cbn [mbind result_bind].
  rewrite H2. cbn [mbind result_bind]. rewrite H3. cbn [mbind result_bind].
  destruct (Z.eqb_spec brightness 128) as [-> | Hne]; cbn [negb].
  - exists (fun v => v). split; [reflexivity|].
    intros v Hv. split; [apply adjust_neutral, Hv | exact Hv].
  - destruct (point_adjust brightness i3 rows3 HB eq_refl eq_refl Hwf3) as (t & Hpt & Ht).
    exists t. split; [|exact Ht]. rewrite Hpt. unfold i3, rows3. cbn [size].
    do 3 f_equal. rewrite map_map. apply map_ext. intros row. apply map_map.
Qed.

Lemma grayscale_of_grey (img : Image) (rows : list (list Z))
    (brightness : Z) (alpha_as_white : bool) :
  mode img = M_L -> im img = image8 rows -> wf_image img -> 0 <= xsize img ->
  0 <= brightness <= 255 ->
  exists t : Z -> Z,
    grayscale_of img brightness alpha_as_white =
      Ok {| mode := M_L; size := size img; im := image8 (map (map t) rows) |} /\
    forall v, byte_ok v -> adjust brightness v = Ok (t v) /\ byte_ok (t v).
Proof.
  intros Hmode Him Hwf Hx HB.
  destruct (wf_image8 img Hmode Hwf) as (rows' & Him' & Hshape & Hbytes).
  assert (rows' = rows) as -> by congruence. clear Him'.
  set (i1 := {| mode := M_RGBA; size := size img; im := image32 (map l2rgb rows) |}).
  assert (H1 : convert img M_RGBA None = Ok i1).
  { unfold convert, ImagingConvert, standard_convert. rewrite Hmode, Him. reflexivity. }
  assert (Hwf1 : wf_image i1).
  { destruct (convert_wf img M_RGBA None Hwf) as (i1' & H1' & Hwf1). congruence. }
  rewrite (grayscale_of_via_rgba _ _ _ _ H1).
  destruct (grayscale_of_rgba i1 (map l2rgb rows) brightness alpha_as_white
              eq_refl eq_refl Hwf1 Hx HB) as (t & Hg & Ht).
  exists t. split; [|exact Ht]. rewrite Hg. cbn [size i1]. do 3 f_equal.
  rewrite map_map. apply map_ext_Forall. eapply Forall_impl; [exact Hbytes|].
  intros row Hrow. cbn beta. unfold l2rgb. rewrite map_map.
  apply map_ext_Forall. eapply Forall_impl; [exact Hrow|].
  intros v Hv. cbn beta. f_equal.
  assert (Hc : (if alpha_as_white then composite_pixel white (v, v, v, 255)
                else (v, v, v, 255)) = (v, v, v, 255)).
  { destruct alpha_as_white; [apply composite_white_opaque; exact Hv | reflexivity]. }
  rewrite Hc. unfold L24, byte_ok in *. rewrite Z.shiftr_div_pow2 by lia.
  change (2 ^ 16) with 65536. lia.
Qed.

Lemma grayscale_of_wf (img : Image) (brightness : Z) (alpha_as_white : bool) :
  wf_image img -> 0 <= xsize img -> 0 <= brightness <= 255 ->
  exists g,
    grayscale_of img brightness alpha_as_white = Ok g /\
    mode g = M_L /\ size g = size img /\ wf_image g.
Proof.
  intros Hwf Hx HB.
  destruct (convert_wf img M_RGBA None Hwf) as (i1 & H1 & Hwf1).
  destruct (convert_mode_size _ _ _ _ H1) as [Hmode1 Hsize1].
  destruct (wf_image32 i1 Hmode1 Hwf1) as (rows & Him1 & Hshape & Hpix).
  assert (Hx1 : 0 <= xsize i1) by (unfold xsize in *; congruence).
  rewrite (grayscale_of_via_rgba _ _ _ _ H1).
  destruct (grayscale_of_rgba i1 rows brightness alpha_as_white Hmode1 Him1 Hwf1 Hx1 HB)
    as (t & Hg & Ht).
  eexists. split; [exact Hg|]. split; [reflexivity|]. split; [exact Hsize1|].
  unfold wf_image. cbn [mode im size]. split.
  - apply shape_ok_map. exact Hshape.
  - eapply Forall_rows_map; [|exact Hpix]. intros p Hp. cbn beta.
    apply Ht, luma_byte_ok. destruct alpha_as_white; [apply composite_white_ok|]; exact Hp.
Qed.

Lemma runs_ok (m : M loc) (s : state) (g : Image) :
  runs m s (Ok g) ->
  exists r' s', m s = (Ok r', s') /\ heap s' !! r' = Some g /\ extends s s'.
Proof. intros (s' & Hext & r' & Hm & Hr'). eauto 6. Qed.

Lemma pixel_at_map (md : modes) (sz : Z * Z) (A : Type) (f : A -> Z)
    (rows : list (list A)) (row : list A) (p : A) (x y : nat) :
  rows !! y = Some row -> row !! x = Some p ->
  pixel_at {| mode := md; size := sz; im := image8 (map (map f) rows) |} x y = Some (f p).
Proof.
  intros Hy Hx. unfold pixel_at. cbn [im].
  change (map (map f) rows) with (map f <$> rows).
  rewrite list_lookup_fmap, Hy. cbn.
  change (map f row) with (f <$> row). rewrite list_lookup_fmap, Hx. reflexivity.
Qed.

(** X1.  [to_grayscale] returns a new grey image of the size of its
    argument, with every value in 0..255, whatever the mode of the argument
    and for every brightness in 0..255; the argument is still there, as it
    was, and no request is made. *)
Theorem to_grayscale_keeps_shape (s : state) (r : loc) (img : Image)
    (brightness : option Z) (alpha_as_white : option bool) :
  heap s !! r = Some img -> wf_image img -> 0 <= xsize img ->
  0 <= default 127 brightness <= 255 ->
  exists r' s' g,
    to_grayscale r brightness alpha_as_white s = (Ok r', s') /\
    heap s' !! r' = Some g /\
    mode g = M_L /\ size g = size img /\ wf_image g /\
    heap s' !! r = Some img /\ requests s' = requests s.
Proof.
  intros Hr Hwf Hx HB.
  destruct (grayscale_of_wf img (default 127 brightness) (default true alpha_as_white)
              Hwf Hx HB) as (g & Hg & Hmode & Hsize & Hwfg).
  pose proof (runs_to_grayscale s r img brightness alpha_as_white Hr) as Hrun.
  rewrite Hg in Hrun. apply runs_ok in Hrun as (r' & s' & Hm & Hr' & Hext).
  exists r', s', g. repeat split; try assumption.
  - eapply extends_lookup; eassumption.
  - apply Hext.
Qed.

Lemma to_grayscale_keeps_shape_witness :
  exists r' s' g,
    to_grayscale 0%nat None None (holding mid_grey_pixel) = (Ok r', s') /\
    heap s' !! r' = Some g /\
    mode g = M_L /\ size g = (1, 1) /\ wf_image g /\
    heap s' !! 0%nat = Some mid_grey_pixel /\ requests s' = [].
Proof.
  apply (to_grayscale_keeps_shape (holding mid_grey_pixel) 0%nat mid_grey_pixel None None).
  - reflexivity.
  - cbn. unfold shape_ok, byte_ok. cbn. repeat constructor; lia.
  - cbn. lia.
  - cbn. lia.
Defined.

(** X2.  On an RGBA image, for every brightness in 0..255: with
    [alpha_as_white] a fully transparent pixel comes out white (255)
    whatever its colour, and an opaque pixel comes out as the brightness
    curve of the luma of its colour; without [alpha_as_white] every pixel
    does, whatever its alpha. *)
Theorem to_grayscale_alpha (s : state) (r : loc) (img : Image)
    (rows : list (list pixel32)) (brightness : option Z)
    (alpha_as_white : option bool) :
  heap s !! r = Some img -> mode img = M_RGBA -> im img = image32 rows ->
  wf_image img -> 0 <= xsize img -> 0 <= default 127 brightness <= 255 ->
  exists r' s' g,
    to_grayscale r brightness alpha_as_white s = (Ok r', s') /\
    heap s' !! r' = Some g /\
    forall (x y : nat) (row : list pixel32) (red green blue alpha : Z),
      rows !! y = Some row -> row !! x = Some (red, green, blue, alpha) ->
      (default true alpha_as_white = true -> alpha = 0 ->
       pixel_at g x y = Some 255) /\
      (default true alpha_as_white = false \/ alpha = 255 ->
       exists t,
         adjust (default 127 brightness) (Z.shiftr (L24 (red, green, blue, alpha)) 16)
           = Ok t /\
         pixel_at g x y = Some t).
Proof.
  intros Hr Hmode Him Hwf Hx HB.
  destruct (grayscale_of_rgba img rows (default 127 brightness)
              (default true alpha_as_white) Hmode Him Hwf Hx HB) as (t & Hg & Ht).
  pose proof (runs_to_grayscale s r img brightness alpha_as_white Hr) as Hrun.
  rewrite Hg in Hrun. apply runs_ok in Hrun as (r' & s' & Hm & Hr' & Hext).
  eexists r', s', _. split; [exact Hm|]. split; [exact Hr'|].
  intros x y row red green blue alpha Hy Hxp.
  rewrite (pixel_at_map _ _ _ _ rows row _ x y Hy Hxp).
  destruct (wf_image32 img Hmode Hwf) as (rows' & Him' & _ & Hpix).
  assert (rows' = rows) as -> by congruence.
  assert (Hp : pixel32_ok (red, green, blue, alpha)).
  { eapply Forall_lookup_1; [|exact Hxp]. eapply Forall_lookup_1; [exact Hpix|exact Hy]. }
  destruct Hp as (Hred & Hgreen & Hblue & Halpha).
  split.
  - intros -> ->. rewrite composite_white_transparent.
    destruct (Ht 255 ltac:(unfold byte_ok; lia)) as [Ht255 _].
    destruct (adjust_endpoints (default 127 brightness) HB) as (_ & H255 & _).
    change (Z.shiftr (L24 white) 16) with 255. congruence.
  - intros Hcase.
    assert (Hc : (if default true alpha_as_white
                  then composite_pixel white (red, green, blue, alpha)
                  else (red, green, blue, alpha)) = (red, green, blue, alpha)).
    { destruct (default true alpha_as_white); [|reflexivity].
      destruct Hcase as [Hd | ->]; [discriminate|].
      apply composite_white_opaque; assumption. }
    rewrite Hc. eexists. split; [|reflexivity].
    apply Ht, (luma_byte_ok (red, green, blue, alpha)).
    apply pixel32_ok_intro; assumption.
Qed.

Lemma to_grayscale_alpha_witness :
  exists r' s' g,
    to_grayscale 0%nat None None (holding clear_and_red) = (Ok r', s') /\
    heap s' !! r' = Some g /\
    forall (x y : nat) (row : list pixel32) (red green blue alpha : Z),
      [[(10, 20, 30, 0); (255, 0, 0, 255)]] !! y = Some row ->
      row !! x = Some (red, green, blue, alpha) ->
      (true = true -> alpha = 0 -> pixel_at g x y = Some 255) /\
      (true = false \/ alpha = 255 ->
       exists t,
         adjust 127 (Z.shiftr (L24 (red, green, blue, alpha)) 16) = Ok t /\
         pixel_at g x y = Some t).
Proof.
  apply (to_grayscale_alpha (holding clear_and_red) 0%nat clear_and_red
           [[(10, 20, 30, 0); (255, 0, 0, 255)]] None None).
  - reflexivity.
  - reflexivity.
  - reflexivity.
  - cbn. unfold shape_ok, byte_ok. cbn. repeat constructor; lia.
  - cbn. lia.
  - cbn. lia.
Defined.

(** X3.  On a grey image [to_grayscale] is the brightness curve applied to
    every pixel: conversion to RGBA, compositing over white and conversion
    back change nothing.  At brightness 128 the result is the image
    itself. *)
Theorem to_grayscale_grey (s : state) (r : loc) (img : Image)
    (brightness : option Z) (alpha_as_white : option bool) :
  heap s !! r = Some img -> mode img = M_L -> wf_image img -> 0 <= xsize img ->
  0 <= default 127 brightness <= 255 ->
  exists r' s' g,
    to_grayscale r brightness alpha_as_white s = (Ok r', s') /\
    heap s' !! r' = Some g /\
    mode g = M_L /\ size g = size img /\
    (forall (x y : nat) (v : Z),
       pixel_at img x y = Some v ->
       exists t, adjust (default 127 brightness) v = Ok t /\ pixel_at g x y = Some t) /\
    (brightness = Some 128 -> g = img).
Proof.
  intros Hr Hmode Hwf Hx HB.
  destruct (wf_image8 img Hmode Hwf) as (rows & Him & _ & Hbytes).
  destruct (grayscale_of_grey img rows (default 127 brightness)
              (default true alpha_as_white) Hmode Him Hwf Hx HB) as (t & Hg & Ht).
  pose proof (runs_to_grayscale s r img brightness alpha_as_white Hr) as Hrun.
  rewrite Hg in Hrun. apply runs_ok in Hrun as (r' & s' & Hm & Hr' & Hext).
  eexists r', s', _. split; [exact Hm|]. split; [exact Hr'|].
  split; [reflexivity|]. split; [reflexivity|]. split.
  - intros x y v Hv. unfold pixel_at in Hv. rewrite Him in Hv.
    destruct (rows !! y) as [row|] eqn:Hy; [|discriminate]. cbn in Hv.
    rewrite (pixel_at_map _ _ _ _ rows row v x y Hy Hv).
    exists (t v). split; [|reflexivity]. apply Ht.
    eapply Forall_lookup_1; [|exact Hv]. eapply Forall_lookup_1; [exact Hbytes|exact Hy].
  - intros ->. destruct img as [md sz st]. cbn in *. subst md st. do 2 f_equal.
    rewrite <- (map_id rows) at 2. apply map_ext_Forall.
    eapply Forall_impl; [exact Hbytes|]. intros row Hrow. cbn beta.
    rewrite <- (map_id row) at 2. apply map_ext_Forall.
    eapply Forall_impl; [exact Hrow|]. intros v Hv. cbn beta.
    destruct (Ht v Hv) as [Hadj _]. change (adjust 128 v = Ok (t v)) in Hadj.
    rewrite (adjust_neutral v Hv) in Hadj. congruence.
Qed.

Lemma to_grayscale_grey_witness :
  exists r' s' g,
    to_grayscale 0%nat (Some 128) None (holding grey_10x2) = (Ok r', s') /\
    heap s' !! r' = Some g /\ g = grey_10x2.
Proof.
  destruct (to_grayscale_grey (holding grey_10x2) 0%nat grey_10x2 (Some 128) None)
    as (r' & s' & g & Hm & Hr' & _ & _ & _ & Hsame).
  - reflexivity.
  - reflexivity.
  - cbn. unfold shape_ok, byte_ok. cbn. repeat constructor; lia.
  - cbn. lia.
  - cbn. lia.
  - exists r', s', g. repeat split; auto.
Defined.

(** ** The ditherers *)

Lemma l2bit_two_levels (rows : list (list Z)) :
  Forall (Forall two_level) (map l2bit rows).
Proof.
  apply Forall_map, Forall_true. intros row. unfold l2bit. apply Forall_map, Forall_true.
  intros v. cbn beta. destruct (128 <=? v); [right | left]; reflexivity.
Qed.

Lemma pixel_at_Forall (P : Z -> Prop) (md : modes) (sz : Z * Z) (rows : list (list Z))
    (x y : nat) (v : Z) :
  Forall (Forall P) rows ->
  pixel_at {| mode := md; size := sz; im := image8 rows |} x y = Some v -> P v.
Proof.
  intros Hrows Hv. unfold pixel_at in Hv. cbn [im] in Hv.
  destruct (rows !! y) as [row|] eqn:Hy; [|discriminate]. cbn in Hv.
  eapply Forall_lookup_1; [|exact Hv]. eapply Forall_lookup_1; [exact Hrows|exact Hy].
Qed.

Lemma dither_cases (stage : loc -> M loc) (s : state) (r : loc) (g : Image)
    (rows : list (list Z)) :
  In stage [dither_direct; dither_floyd_steinberg; dither_halftone] ->
  heap s !! r = Some g -> mode g = M_L -> im g = image8 rows ->
  exists rows',
    stage r s =
      (Ok (length (heap s)),
       {| heap := heap s ++ [{| mode := M_1; size := size g; im := image8 rows' |}];
          requests := requests s |}) /\
    (rows' = map l2bit rows \/ rows' = tobilevel_scan (xsize g) rows).
Proof.
  intros Hstage Hr Hmode Him.
  destruct Hstage as [<- | [<- | [<- | []]]].
  - exists (map l2bit rows). split; [|left; reflexivity].
    apply run_dither_direct; assumption.
  - exists (tobilevel_scan (xsize g) rows). split; [|right; reflexivity].
    unfold dither_floyd_steinberg. rewrite (run_Image_convert s r g _ _ Hr).
    rewrite (convert_floyd_steinberg g rows Hmode Him). reflexivity.
  - exists (tobilevel_scan (xsize g) rows). split; [|right; reflexivity].
    unfold dither_halftone. rewrite (run_Image_convert s r g _ _ Hr).
    rewrite (convert_floyd_steinberg g rows Hmode Him). reflexivity.
Qed.

(** X4.  Each of the three ditherers turns a grey image into a new bilevel
    image of the same size whose pixels are all 0 or 255. *)
Theorem dither_output_bilevel (stage : loc -> M loc) (s : state) (r : loc) (g : Image) :
  In stage [dither_direct; dither_floyd_steinberg; dither_halftone] ->
  heap s !! r = Some g -> mode g = M_L -> wf_image g ->
  exists out,
    stage r s =
      (Ok (length (heap s)),
       {| heap := heap s ++ [out]; requests := requests s |}) /\
    mode out = M_1 /\ size out = size g /\ wf_image out /\
    forall (x y : nat) (v : Z), pixel_at out x y = Some v -> v = 0 \/ v = 255.
Proof.
  intros Hstage Hr Hmode Hwf.
  destruct (wf_image8 g Hmode Hwf) as (rows & Him & Hshape & Hbytes).
  destruct (dither_cases stage s r g rows Hstage Hr Hmode Him) as (rows' & Hrun & Hrows').
  assert (Hout : shape_ok (size g) rows' /\ Forall (Forall two_level) rows').
  { destruct Hrows' as [-> | ->].
    - split; [apply (shape_ok_map (fun v => if 128 <=? v then 255 else 0)), Hshape|].
      apply l2bit_two_levels.
    - split; [apply tobilevel_scan_shape, Hshape | apply tobilevel_scan_two_levels]. }
  destruct Hout as [Hshape' Hlevels].
  eexists. split; [exact Hrun|]. split; [reflexivity|]. split; [reflexivity|]. split.
  - unfold wf_image. cbn [mode im size]. split; [exact Hshape'|].
    eapply Forall_impl; [exact Hlevels|]. intros row Hrow.
    eapply Forall_impl; [exact Hrow|]. exact two_level_byte_ok.
  - intros x y v Hv. exact (pixel_at_Forall two_level _ _ _ _ _ _ Hlevels Hv).
Qed.

Lemma dither_output_bilevel_witness :
  exists out,
    dither_halftone 0%nat (holding grey_10x2) =
      (Ok 1%nat, {| heap := [grey_10x2; out]; requests := [] |}) /\
    mode out = M_1 /\ size out = (10, 2) /\ wf_image out /\
    forall (x y : nat) (v : Z), pixel_at out x y = Some v -> v = 0 \/ v = 255.
Proof.
  apply (dither_output_bilevel dither_halftone (holding grey_10x2) 0%nat grey_10x2).
  - right. right. left. reflexivity.
  - reflexivity.
  - reflexivity.
  - cbn. unfold shape_ok, byte_ok. cbn. repeat constructor; lia.
Defined.

(** X5.  A grey image whose pixels are all 0 or 255 goes through each of
    the three ditherers unchanged: thresholding keeps the two levels, and
    error diffusion finds no error to carry. *)
Theorem dither_two_level_fixed (stage : loc -> M loc) (s : state) (r : loc) (g : Image)
    (rows : list (list Z)) :
  In stage [dither_direct; dither_floyd_steinberg; dither_halftone] ->
  heap s !! r = Some g -> mode g = M_L -> im g = image8 rows -> wf_image g ->
  Forall (Forall (fun v => v = 0 \/ v = 255)) rows ->
  stage r s =
    (Ok (length (heap s)),
     {| heap := heap s ++ [{| mode := M_1; size := size g; im := image8 rows |}];
        requests := requests s |}).
Proof.
  intros Hstage Hr Hmode Him Hwf Hlevels.
  destruct (wf_image8 g Hmode Hwf) as (rows0 & Him0 & [_ Hw] & _).
  assert (rows0 = rows) as -> by congruence.
  destruct (dither_cases stage s r g rows Hstage Hr Hmode Him) as (rows' & Hrun & Hrows').
  assert (Hsame : rows' = rows).
  { destruct Hrows' as [-> | ->].
    - rewrite <- (map_id rows) at 2. apply map_ext_Forall.
      eapply Forall_impl; [exact Hlevels|]. intros row Hrow. apply l2bit_two_level, Hrow.
    - apply tobilevel_scan_two_level; assumption. }
  rewrite Hrun, Hsame. reflexivity.
Qed.

Lemma dither_two_level_fixed_witness :
  dither_floyd_steinberg 0%nat (holding white_8x1) =
    (Ok 1%nat, {| heap := [white_8x1; bilevel 8 1 [replicate 8 255]]; requests := [] |}).
Proof.
  apply (dither_two_level_fixed dither_floyd_steinberg (holding white_8x1) 0%nat
           white_8x1 [replicate 8 255]).
  - right. left. reflexivity.
  - reflexivity.
  - reflexivity.
  - reflexivity.
  - cbn. unfold shape_ok, byte_ok. cbn. repeat constructor; lia.
  - cbn. repeat first [ apply Forall_nil_2
                      | apply Forall_cons_2; [right; reflexivity|]
                      | apply Forall_cons_2 ].
Defined.

(** X6.  [pack_to_pbm] returns for any image what it returns for the same
    image dithered by [dither_floyd_steinberg] first: an image that is not
    bilevel yet is dithered by error diffusion on the way. *)
Theorem pack_to_pbm_dithers (s : state) (r : loc) :
  fst (pack_to_pbm r s) =
  fst ((img ← dither_floyd_steinberg r; pack_to_pbm img) s).
Proof.
  destruct (heap s !! r) as [img|] eqn:Hr.
  - destruct (run_pack_to_pbm s r img Hr) as [-> _].
    unfold dither_floyd_steinberg. rewrite run_bind.
    rewrite (run_Image_convert s r img _ _ Hr). unfold packed.
    destruct (mode_eqb (mode img) M_1) eqn:Hm.
    + apply mode_eqb_eq in Hm.
      assert (Hc : convert img M_1 (Some FLOYDSTEINBERG) = Ok img).
      { unfold convert. rewrite Hm. reflexivity. }
      rewrite Hc.
      destruct (run_pack_to_pbm {| heap := heap s ++ [img]; requests := requests s |}
                  (length (heap s)) img (lookup_alloc _ _)) as [-> _].
      unfold packed. rewrite Hm. reflexivity.
    + change (convert img M_1 None) with (convert img M_1 (Some FLOYDSTEINBERG)).
      destruct (convert img M_1 (Some FLOYDSTEINBERG)) as [img'|e] eqn:Hc; [|reflexivity].
      destruct (run_pack_to_pbm {| heap := heap s ++ [img']; requests := requests s |}
                  (length (heap s)) img' (lookup_alloc _ _)) as [-> _].
      unfold packed. destruct (convert_mode_size _ _ _ _ Hc) as [-> _]. reflexivity.
  - rewrite (run_pack_to_pbm_dangling s r Hr).
    unfold dither_floyd_steinberg, Image_convert, deref.
    rewrite !run_bind. rewrite Hr. reflexivity.
Qed.

(** ** The packed bytes *)

Lemma bits_byte (b : Z) :
  0 <= b -> (forall j, 8 <= j -> Z.testbit b j = false) -> byte_ok b.
Proof.
  intros Hb Hbits. split; [exact Hb|].
  destruct (Z.le_gt_cases 256 b) as [Hbig|]; [exfalso | lia].
  assert (Hlog : 8 <= Z.log2 b) by (apply Z.log2_le_pow2; [lia | exact Hbig]).
  specialize (Hbits (Z.log2 b) Hlog). rewrite Z.bit_log2 in Hbits by lia. discriminate.
Qed.

Section PackBytes.
Variable ink : Z -> bool.

Lemma pack_fold_bytes (p : list Z) : forall out b m,
  Forall byte_ok out -> 0 <= b -> (forall j, 8 <= j -> Z.testbit b j = false) ->
  (exists k, 0 <= k <= 7 /\ m = 2 ^ k) ->
  let '(out', b', m') := fold_left (pack_step ink) p (out, b, m) in
  Forall byte_ok out' /\ 0 <= b' /\ (forall j, 8 <= j -> Z.testbit b' j = false).
Proof.
  induction p as [|v p IH]; intros out b m Hout Hb Hbits (k & Hk & Hm).
  - cbn. auto.
  - cbn [fold_left]. unfold pack_step at 2.
    set (b1 := if ink v then Z.lor b m else b).
    assert (Hb1 : 0 <= b1).
    { unfold b1. destruct (ink v); [|exact Hb]. apply Z.lor_nonneg. subst m.
      split; [exact Hb | apply Z.pow_nonneg; lia]. }
    assert (Hbits1 : forall j, 8 <= j -> Z.testbit b1 j = false).
    { intros j Hj. unfold b1. destruct (ink v); [|auto].
      subst m. rewrite (testbit_lor_pow2 ink) by lia. rewrite (Hbits j Hj).
      apply orb_false_intro; [reflexivity | apply Z.eqb_neq; lia]. }
    destruct (Z.eq_dec k 0) as [-> | Hk0].
    + subst m. change (Z.shiftr (2 ^ 0) 1 =? 0) with true. cbv iota.
      apply IH; try (exists 7; split; [lia | reflexivity]).
      * apply Forall_app. split; [exact Hout|]. constructor; [|constructor].
        apply bits_byte; assumption.
      * lia.
      * intros j _. apply Z.testbit_0_l.
    + assert (Hm1 : Z.shiftr m 1 = 2 ^ (k - 1)).
      { subst m. rewrite Z.shiftr_div_pow2 by lia.
        replace k with (Z.succ (k - 1)) at 1 by lia.
        rewrite Z.pow_succ_r by lia. change (2 ^ 1) with 2.
        rewrite Z.mul_comm, Z.div_mul by lia. reflexivity. }
      rewrite Hm1. destruct (Z.eqb_spec (2 ^ (k - 1)) 0) as [H0|_].
      { pose proof (Z.pow_pos_nonneg 2 (k - 1)). lia. }
      apply IH; try assumption. exists (k - 1). split; [lia | reflexivity].
Qed.

Lemma pack_row_bytes (row : list Z) : Forall byte_ok (pack_row ink row).
Proof.
  unfold pack_row.
  pose proof (pack_fold_bytes row [] 0 128) as Hfold.
  destruct (fold_left (pack_step ink) row ([], 0, 128)) as [[out b] m].
  destruct Hfold as (Hout & Hb & Hbits).
  - constructor.
  - lia.
  - intros j _. apply Z.testbit_0_l.
  - exists 7. split; [lia | reflexivity].
  - destruct (m =? 128); [exact Hout|].
    apply Forall_app. split; [exact Hout|]. constructor; [|constructor].
    apply bits_byte; assumption.
Qed.

Lemma pack_row_padding (row : list Z) (x : nat) :
  (length row <= x < 8 * length (pack_row ink row))%nat ->
  exists byte, pack_row ink row !! (x / 8)%nat = Some byte /\
               Z.testbit byte (7 - Z.of_nat (x mod 8)) = false.
Proof.
  intros Hx. rewrite pack_row_length in Hx.
  unfold pack_row. pose proof (pack_inv_fold ink row) as Hinv.
  destruct (fold_left (pack_step ink) row ([], 0, 128)) as [[out b] m].
  destruct Hinv as (Hlen & Hm & Hlow & _).
  assert (Hk : (length row mod 8 <> 0)%nat) by lia.
  replace (m =? 128) with false.
  - exists b. split.
    + rewrite lookup_app_r by lia.
      replace (x / 8 - length out)%nat with 0%nat by lia. reflexivity.
    + apply Hlow. lia.
  - symmetry. apply Z.eqb_neq. rewrite Hm.
    change 128 with (2 ^ 7). intros Heq.
    apply Z.pow_inj_r in Heq; lia.
Qed.

End PackBytes.

Lemma pack_to_pbm_data (s : state) (r : loc) (img : Image) (rows : list (list Z)) :
  heap s !! r = Some img -> mode img = M_1 -> im img = image8 rows ->
  0 < xsize img -> 0 < ysize img ->
  pack_to_pbm r s =
    (Ok (pbm_header (xsize img) (ysize img) ++ concat (map pack1I rows)), s).
Proof.
  intros Hr Hmode Him Hw Hh.
  rewrite (pack_to_pbm_bilevel s r img Hr Hmode). unfold tobytes_raw.
  replace (xsize img =? 0) with false by (symmetry; apply Z.eqb_neq; lia).
  replace (ysize img =? 0) with false by (symmetry; apply Z.eqb_neq; lia).
  rewrite Hmode, Him. reflexivity.
Qed.

Lemma packed_rows_uniform (w : Z) (rows : list (list Z)) :
  Forall (fun row => Z.of_nat (length row) = w) rows ->
  Forall (fun l => length l = Z.to_nat ((w + 7) / 8)) (map pack1I rows).
Proof.
  intros Hw. apply Forall_map. eapply Forall_impl; [exact Hw|].
  intros row Hrow. cbn beta in *. rewrite pack1I_length. lia.
Qed.

(** X7.  The raster that [pack_to_pbm] writes for a bilevel image, bit by
    bit: the pixel at column [x] of row [y] is bit [7 - x mod 8] of byte
    [y * ceil(w / 8) + x / 8], set when the pixel is 0 (black); the bits of
    the last byte of a row that lie beyond the width are 0; every byte is
    in 0..255. *)
Theorem pack_to_pbm_bits (s : state) (r : loc) (img : Image) (rows : list (list Z)) :
  heap s !! r = Some img -> mode img = M_1 -> im img = image8 rows ->
  wf_image img -> 0 < xsize img -> 0 < ysize img ->
  let w := xsize img in
  let row_bytes := Z.to_nat ((w + 7) / 8) in
  exists data,
    pack_to_pbm r s = (Ok (pbm_header w (ysize img) ++ data), s) /\
    Forall byte_ok data /\
    (forall (x y : nat) (row : list Z) (v : Z),
       rows !! y = Some row -> row !! x = Some v ->
       exists byte,
         data !! (y * row_bytes + x / 8)%nat = Some byte /\
         Z.testbit byte (7 - Z.of_nat (x mod 8)) = (v =? 0)) /\
    (forall (x y : nat),
       (y < length rows)%nat -> (Z.to_nat w <= x < 8 * row_bytes)%nat ->
       exists byte,
         data !! (y * row_bytes + x / 8)%nat = Some byte /\
         Z.testbit byte (7 - Z.of_nat (x mod 8)) = false).
Proof.
  intros Hr Hmode Him Hwf Hw Hh w row_bytes.
  pose proof Hwf as Hwf'. unfold wf_image in Hwf'. rewrite Hmode, Him in Hwf'.
  destruct Hwf' as [[Hrows Hcols] _]. fold (xsize img) in Hcols. fold w in Hcols.
  pose proof (packed_rows_uniform w rows Hcols) as Hunif. fold row_bytes in Hunif.
  exists (concat (map pack1I rows)).
  split; [apply pack_to_pbm_data; assumption|]. split; [|split].
  - apply Forall_concat, Forall_map, Forall_true. intros row. apply pack_row_bytes.
  - intros x y row v Hy Hx.
    assert (Hlen : Z.of_nat (length row) = w) by exact (Forall_lookup_1 _ _ _ _ Hcols Hy).
    assert (Hxw : (x < length row)%nat) by (eapply lookup_lt_Some; eauto).
    destruct (pack_row_bit (fun v => v =? 0) row x v Hx) as (byte & Hb & Ht).
    exists byte. split; [|exact Ht].
    rewrite (lookup_concat_uniform row_bytes _ y (x / 8) (pack1I row) Hunif).
    + exact Hb.
    + change (map pack1I rows) with (pack1I <$> rows). rewrite list_lookup_fmap, Hy.
      reflexivity.
    + unfold row_bytes. lia.
  - intros x y Hy Hx.
    destruct (lookup_lt_is_Some_2 rows y Hy) as [row Hrow].
    assert (Hlen : Z.of_nat (length row) = w) by exact (Forall_lookup_1 _ _ _ _ Hcols Hrow).
    destruct (pack_row_padding (fun v => v =? 0) row x) as (byte & Hb & Ht).
    { rewrite pack_row_length. unfold row_bytes in Hx. lia. }
    exists byte. split; [|exact Ht].
    rewrite (lookup_concat_uniform row_bytes _ y (x / 8) (pack1I row) Hunif).
    + exact Hb.
    + change (map pack1I rows) with (pack1I <$> rows). rewrite list_lookup_fmap, Hrow.
      reflexivity.
    + lia.
Qed.

Lemma pack_to_pbm_bits_witness :
  exists data,
    pack_to_pbm 0%nat (holding bilevel_10x2) = (Ok (pbm_header 10 2 ++ data), holding bilevel_10x2) /\
    Forall byte_ok data /\
    (forall (x y : nat),
       (y < 2)%nat -> (10 <= x < 16)%nat ->
       exists byte,
         data !! (y * 2 + x / 8)%nat = Some byte /\
         Z.testbit byte (7 - Z.of_nat (x mod 8)) = false).
Proof.
  destruct (pack_to_pbm_bits (holding bilevel_10x2) 0%nat bilevel_10x2
              [[0; 0; 0; 0; 0; 0; 0; 0; 255; 0]; [0; 255; 255; 0; 0; 0; 0; 0; 255; 0]])
    as (data & Hrun & Hbytes & _ & Hpad).
  - reflexivity.
  - reflexivity.
  - reflexivity.
  - split; [split; [reflexivity|]|]; repeat constructor; unfold byte_ok; lia.
  - reflexivity.
  - reflexivity.
  - exists data. split; [exact Hrun|]. split; [exact Hbytes|exact Hpad].
Defined.

(** ** Packing loses nothing *)

Lemma pack1I_injective (row1 row2 : list Z) :
  length row1 = length row2 ->
  Forall two_level row1 -> Forall two_level row2 ->
  pack1I row1 = pack1I row2 -> row1 = row2.
Proof.
  intros Hlen H1 H2 Hpack. apply list_eq. intros x.
  destruct (row1 !! x) as [v1|] eqn:Hx1.
  - destruct (lookup_lt_is_Some_2 row2 x) as [v2 Hx2].
    { rewrite <- Hlen. eapply lookup_lt_Some; eauto. }
    rewrite Hx2. f_equal.
    destruct (pack_row_bit (fun v => v =? 0) row1 x v1 Hx1) as (b1 & Hb1 & Ht1).
    destruct (pack_row_bit (fun v => v =? 0) row2 x v2 Hx2) as (b2 & Hb2 & Ht2).
    fold (pack1I row1) in Hb1. fold (pack1I row2) in Hb2.
    rewrite Hpack, Hb2 in Hb1. injection Hb1 as ->.
    pose proof (Forall_lookup_1 _ _ _ _ H1 Hx1) as Hv1.
    pose proof (Forall_lookup_1 _ _ _ _ H2 Hx2) as Hv2.
    rewrite Ht1 in Ht2.
    destruct Hv1 as [-> | ->], Hv2 as [-> | ->]; cbn in Ht2; congruence.
  - symmetry. apply lookup_ge_None. rewrite <- Hlen. apply lookup_ge_None, Hx1.
Qed.

Lemma concat_uniform_inj {A : Type} (k : nat) (ls1 : list (list A)) : forall ls2,
  Forall (fun l => length l = k) ls1 -> Forall (fun l => length l = k) ls2 ->
  length ls1 = length ls2 -> concat ls1 = concat ls2 -> ls1 = ls2.
Proof.
  induction ls1 as [|l1 ls1 IH]; intros [|l2 ls2] H1 H2 Hlen Hcat;
    try discriminate; [reflexivity|].
  apply Forall_cons in H1 as [Hl1 H1]. apply Forall_cons in H2 as [Hl2 H2].
  cbn [concat] in Hcat. apply app_inj_1 in Hcat as [-> Hcat]; [|congruence].
  f_equal. apply IH; try assumption. cbn in Hlen. lia.
Qed.

Lemma map_pack1I_injective (rows1 : list (list Z)) : forall rows2,
  Forall2 (fun row1 row2 => length row1 = length row2) rows1 rows2 ->
  Forall (Forall two_level) rows1 -> Forall (Forall two_level) rows2 ->
  map pack1I rows1 = map pack1I rows2 -> rows1 = rows2.
Proof.
  induction rows1 as [|row1 rows1 IH]; intros rows2 Hlen H1 H2 Hmap;
    inversion Hlen as [|? row2 ? rows2' Hl Hlen']; subst; [reflexivity|].
  apply Forall_cons in H1 as [Hr1 H1]. apply Forall_cons in H2 as [Hr2 H2].
  cbn [map] in Hmap. injection Hmap as Hrow Hmap.
  f_equal; [apply pack1I_injective; assumption | apply IH; assumption].
Qed.

(** X8.  Packing loses nothing: two bilevel images of the same size that
    [pack_to_pbm] turns into the same bytes have the same pixels. *)
Theorem pack_to_pbm_injective (s : state) (r1 r2 : loc) (img1 img2 : Image)
    (rows1 rows2 : list (list Z)) :
  heap s !! r1 = Some img1 -> heap s !! r2 = Some img2 ->
  mode img1 = M_1 -> mode img2 = M_1 ->
  im img1 = image8 rows1 -> im img2 = image8 rows2 ->
  wf_image img1 -> wf_image img2 ->
  Forall (Forall (fun v => v = 0 \/ v = 255)) rows1 ->
  Forall (Forall (fun v => v = 0 \/ v = 255)) rows2 ->
  size img1 = size img2 -> 0 < xsize img1 -> 0 < ysize img1 ->
  fst (pack_to_pbm r1 s) = fst (pack_to_pbm r2 s) ->
  img1 = img2.
Proof.
  intros Hr1 Hr2 Hm1 Hm2 Him1 Him2 Hwf1 Hwf2 Hl1 Hl2 Hsize Hw Hh Hpack.
  assert (Hw2 : 0 < xsize img2) by (unfold xsize in *; congruence).
  assert (Hh2 : 0 < ysize img2) by (unfold ysize in *; congruence).
  rewrite (pack_to_pbm_data s r1 img1 rows1) in Hpack by assumption.
  rewrite (pack_to_pbm_data s r2 img2 rows2) in Hpack by assumption.
  cbn [fst] in Hpack. injection Hpack as Hpack.
  unfold xsize, ysize in Hpack. rewrite Hsize in Hpack.
  apply app_inv_head in Hpack.
  unfold wf_image in Hwf1, Hwf2. rewrite Hm1, Him1 in Hwf1. rewrite Hm2, Him2 in Hwf2.
  destruct Hwf1 as [[Hrows1 Hcols1] _]. destruct Hwf2 as [[Hrows2 Hcols2] _].
  rewrite <- Hsize in Hrows2, Hcols2.
  assert (Hsame : rows1 = rows2).
  { apply map_pack1I_injective; try assumption.
    - apply Forall2_same_length_lookup_2; [lia|].
      intros y row1 row2 Hy1 Hy2.
      pose proof (Forall_lookup_1 _ _ _ _ Hcols1 Hy1) as E1.
      pose proof (Forall_lookup_1 _ _ _ _ Hcols2 Hy2) as E2.
      cbn beta in E1, E2. lia.
    - apply (concat_uniform_inj (Z.to_nat ((fst (size img1) + 7) / 8))).
      + apply packed_rows_uniform, Hcols1.
      + apply packed_rows_uniform, Hcols2.
      + rewrite !length_map. lia.
      + exact Hpack. }
  destruct img1 as [md1 sz1 st1], img2 as [md2 sz2 st2]. cbn in *. congruence.
Qed.

Lemma pack_to_pbm_injective_witness :
  bilevel_10x2 =
  bilevel 10 2 [[0; 0; 0; 0; 0; 0; 0; 0; 255; 0]; [0; 255; 255; 0; 0; 0; 0; 0; 255; 0]].
Proof.
  apply (pack_to_pbm_injective
           {| heap := [bilevel_10x2;
                       bilevel 10 2 [[0; 0; 0; 0; 0; 0; 0; 0; 255; 0];
                                     [0; 255; 255; 0; 0; 0; 0; 0; 255; 0]]];
              requests := [] |}
           0%nat 1%nat _ _
           [[0; 0; 0; 0; 0; 0; 0; 0; 255; 0]; [0; 255; 255; 0; 0; 0; 0; 0; 255; 0]]
           [[0; 0; 0; 0; 0; 0; 0; 0; 255; 0]; [0; 255; 255; 0; 0; 0; 0; 0; 255; 0]]);
    try reflexivity.
  - split; [split; [reflexivity|]|]; repeat constructor; unfold byte_ok; lia.
  - split; [split; [reflexivity|]|]; repeat constructor; unfold byte_ok; lia.
  - repeat first [ apply Forall_nil_2
                 | apply Forall_cons_2; [first [left; reflexivity | right; reflexivity]|]
                 | apply Forall_cons_2 ].
  - repeat first [ apply Forall_nil_2
                 | apply Forall_cons_2; [first [left; reflexivity | right; reflexivity]|]
                 | apply Forall_cons_2 ].
Defined.

(** ** The fetcher *)

Section Download.
Context `{World}.

Lemma run_download_image (url : string) (timeout : option Z) (s : state) :
  startswith url "http" = true ->
  download_image url timeout s =
  match fetched url (default 10 timeout) with
  | Ok img => (Ok (length (heap s)), requested s url (default 10 timeout) [img])
  | Raise (RequestException msg) =>
      (Raise (ValueError ("Download failed: " ++ msg)),
       requested s url (default 10 timeout) [])
  | Raise e => (Raise e, requested s url (default 10 timeout) [])
  end.
Proof.
  intros Hurl. unfold download_image, fetched. rewrite Hurl. cbn [negb].
  unfold try_except, requested. rewrite app_nil_r.
  rewrite run_bind. unfold requests_get_ at 1.
  set (s1 := {| heap := heap s; requests := requests s ++ [(url, default 10 timeout)] |}).
  destruct (requests_get url (default 10 timeout)) as [response|e];
    [|destruct e; reflexivity].
  cbn [mbind result_bind]. rewrite run_bind. unfold lift at 1.
  destruct (raise_for_status response) as [[]|e]; [|destruct e; reflexivity].
  cbn [mbind result_bind].
  destruct (negb (startswith (default ""%string (headers_get response "Content-Type")) "image/"));
    [reflexivity|].
  rewrite run_bind.
  assert (Hdecl :
    (match headers_get response "Content-Length" with
     | Some cl =>
         if truthy cl
         then n ← lift (int_of_str cl); (mret (MiB10 <? n) : M bool)
         else mret false
     | None => mret false
     end) s1 =
    (match headers_get response "Content-Length" with
     | Some cl =>
         if truthy cl
         then n ← int_of_str cl; Ok (MiB10 <? n)
         else Ok false
     | None => Ok false
     end, s1)).
  { destruct (headers_get response "Content-Length") as [cl|]; [|reflexivity].
    destruct (truthy cl); [|reflexivity].
    rewrite run_bind. unfold lift. destruct (int_of_str cl); reflexivity. }
  rewrite Hdecl. clear Hdecl.
  destruct (match headers_get response "Content-Length" with
            | Some cl => if truthy cl then n ← int_of_str cl; Ok (MiB10 <? n) else Ok false
            | None => Ok false
            end) as [[|]|e]; cbn [mbind result_bind];
    [reflexivity | | destruct e; reflexivity].
  rewrite run_bind. unfold lift at 1.
  destruct (content response) as [data|e]; [|destruct e; reflexivity].
  cbn [mbind result_bind].
  destruct (MiB10 <? Z.of_nat (length data)); [reflexivity|].
  unfold Image_open_. rewrite run_bind. unfold lift.
  destruct (Image_open data) as [img|e]; [reflexivity | destruct e; reflexivity].
Qed.

End Download.

Section DownloadProperties.
Context `{World}.

(** X9.  A failure of the HTTP client, or a status that
    [raise_for_status] refuses, leaves [download_image] as a [ValueError]
    whose message is "Download failed: " and the client's message; no
    [RequestException] ever leaves [download_image]. *)
Theorem download_image_wraps_client_errors (url : string) (timeout : option Z)
    (s : state) :
  (forall msg,
     startswith url "http" = true ->
     requests_get url (default 10 timeout) = Raise (RequestException msg) ->
     download_image url timeout s =
       (Raise (ValueError ("Download failed: " ++ msg)),
        requested s url (default 10 timeout) [])) /\
  (forall response msg,
     startswith url "http" = true ->
     requests_get url (default 10 timeout) = Ok response ->
     raise_for_status response = Raise (RequestException msg) ->
     download_image url timeout s =
       (Raise (ValueError ("Download failed: " ++ msg)),
        requested s url (default 10 timeout) [])) /\
  (forall msg, fst (download_image url timeout s) <> Raise (RequestException msg)).
Proof.
  split; [|split].
  - intros msg Hurl Hget. rewrite (run_download_image url timeout s Hurl).
    unfold fetched. rewrite Hget. reflexivity.
  - intros response msg Hurl Hget Hstatus. rewrite (run_download_image url timeout s Hurl).
    unfold fetched. rewrite Hget. cbn [mbind result_bind]. rewrite Hstatus. reflexivity.
  - intros msg. destruct (startswith url "http") eqn:Hurl.
    + rewrite (run_download_image url timeout s Hurl).
      destruct (fetched url (default 10 timeout)) as [img|e]; [discriminate|].
      destruct e; discriminate.
    + unfold download_image. rewrite Hurl. discriminate.
Qed.

(** X10.  When [download_image] returns, it made one request with the
    given timeout (10 by default), the status was accepted, the
    Content-Type began with "image/", a Content-Length that was given and
    not empty was at most 10 MiB, the body was at most 10 MiB, and the
    reference returned is to a new object, the decoded body. *)
Theorem download_image_returns (url : string) (timeout : option Z)
    (s s' : state) (r : loc) :
  download_image url timeout s = (Ok r, s') ->
  exists response data img,
    startswith url "http" = true /\
    requests_get url (default 10 timeout) = Ok response /\
    raise_for_status response = Ok tt /\
    startswith (default ""%string (headers_get response "Content-Type")) "image/" = true /\
    (forall cl, headers_get response "Content-Length" = Some cl -> truthy cl = true ->
       exists n, int_of_str cl = Ok n /\ n <= MiB10) /\
    content response = Ok data /\
    Z.of_nat (length data) <= MiB10 /\
    Image_open data = Ok img /\
    r = length (heap s) /\
    s' = {| heap := heap s ++ [img];
            requests := requests s ++ [(url, default 10 timeout)] |}.
Proof.
  intros Hrun. destruct (startswith url "http") eqn:Hurl.
  2: { unfold download_image in Hrun. rewrite Hurl in Hrun. discriminate. }
  rewrite (run_download_image url timeout s Hurl) in Hrun.
  destruct (fetched url (default 10 timeout)) as [img|e] eqn:Hf;
    [|destruct e; discriminate].
  injection Hrun as <- <-. unfold fetched in Hf.
  destruct (requests_get url (default 10 timeout)) as [response|e] eqn:Hget;
    [|discriminate].
  cbn [mbind result_bind] in Hf.
  destruct (raise_for_status response) as [[]|e] eqn:Hstatus; [|discriminate].
  cbn [mbind result_bind] in Hf.
  destruct (startswith (default ""%string (headers_get response "Content-Type")) "image/")
    eqn:Hct; [|discriminate].
  cbn [negb] in Hf.
  assert (Hdecl : forall cl, headers_get response "Content-Length" = Some cl ->
            truthy cl = true -> exists n, int_of_str cl = Ok n /\ n <= MiB10).
  { intros cl Hcl Htruthy. rewrite Hcl, Htruthy in Hf.
    destruct (int_of_str cl) as [n|e]; [|discriminate]. cbn [mbind result_bind] in Hf.
    exists n. split; [reflexivity|]. destruct (Z.ltb_spec MiB10 n); [discriminate | lia]. }
  destruct (match headers_get response "Content-Length" with
            | Some cl => if truthy cl then n ← int_of_str cl; Ok (MiB10 <? n) else Ok false
            | None => Ok false
            end) as [[|]|e]; try discriminate.
  cbn [mbind result_bind] in Hf.
  destruct (content response) as [data|e] eqn:Hbody; [|discriminate].
  cbn [mbind result_bind] in Hf.
  destruct (Z.ltb_spec MiB10 (Z.of_nat (length data))); [discriminate|].
  exists response, data, img. repeat split; auto.
Qed.

(** X11.  With the status accepted, a response whose Content-Type does not
    begin with "image/" (or that has none) is refused with that type in the
    message, and one that declares a length above 10 MiB is refused too;
    in both cases whatever the body is, and nothing is allocated. *)
Theorem download_image_refuses_by_headers (url : string) (timeout : option Z)
    (s : state) (response : Response) :
  startswith url "http" = true ->
  requests_get url (default 10 timeout) = Ok response ->
  raise_for_status response = Ok tt ->
  let content_type := default ""%string (headers_get response "Content-Type") in
  (startswith content_type "image/" = false ->
   download_image url timeout s =
     (Raise (ValueError ("Invalid Content-Type: " ++ content_type)),
      requested s url (default 10 timeout) [])) /\
  (forall cl n,
     startswith content_type "image/" = true ->
     headers_get response "Content-Length" = Some cl -> truthy cl = true ->
     int_of_str cl = Ok n -> MiB10 < n ->
     download_image url timeout s =
       (Raise (ValueError "Image too large (>10MB)"),
        requested s url (default 10 timeout) [])).
Proof.
  intros Hurl Hget Hstatus content_type. split.
  - intros Hct. rewrite (run_download_image url timeout s Hurl).
    unfold fetched. rewrite Hget. cbn [mbind result_bind]. rewrite Hstatus.
    cbn [mbind result_bind]. fold content_type. rewrite Hct. reflexivity.
  - intros cl n Hct Hcl Htruthy Hint Hn. rewrite (run_download_image url timeout s Hurl).
    unfold fetched. rewrite Hget. cbn [mbind result_bind]. rewrite Hstatus.
    cbn [mbind result_bind]. fold content_type. rewrite Hct, Hcl, Htruthy, Hint.
    cbn [negb mbind result_bind].
    destruct (Z.ltb_spec MiB10 n); [reflexivity | lia].
Qed.

(** X12.  With the status and the Content-Type accepted and no length
    declared, the body decides: above 10 MiB it is refused and nothing is
    decoded; at 10 MiB or less it is handed to the decoder, and what the
    decoder returns or raises is what [download_image] returns or
    raises. *)
Theorem download_image_body_limit (url : string) (timeout : option Z)
    (s : state) (response : Response) (data : bytes) :
  startswith url "http" = true ->
  requests_get url (default 10 timeout) = Ok response ->
  raise_for_status response = Ok tt ->
  startswith (default ""%string (headers_get response "Content-Type")) "image/" = true ->
  headers_get response "Content-Length" = None ->
  content response = Ok data ->
  (MiB10 < Z.of_nat (length data) ->
   download_image url timeout s =
     (Raise (ValueError "Image too large (>10MB)"),
      requested s url (default 10 timeout) [])) /\
  (Z.of_nat (length data) <= MiB10 ->
   (forall img, Image_open data = Ok img ->
      download_image url timeout s =
        (Ok (length (heap s)), requested s url (default 10 timeout) [img])) /\
   (forall msg, Image_open data = Raise (OSError msg) ->
      download_image url timeout s =
        (Raise (OSError msg), requested s url (default 10 timeout) []))).
Proof.
  intros Hurl Hget Hstatus Hct Hcl Hbody.
  rewrite (run_download_image url timeout s Hurl).
  unfold fetched. rewrite Hget. cbn [mbind result_bind]. rewrite Hstatus.
  cbn [mbind result_bind]. rewrite Hct, Hcl. cbn [negb mbind result_bind].
  rewrite Hbody. cbn [mbind result_bind]. split.
  - intros Hbig. destruct (Z.ltb_spec MiB10 (Z.of_nat (length data))); [reflexivity | lia].
  - intros Hsmall. destruct (Z.ltb_spec MiB10 (Z.of_nat (length data))); [lia|].
    split; [intros img -> | intros msg ->]; reflexivity.
Qed.

End DownloadProperties.

Lemma download_image_wraps_client_errors_witness :
  @download_image offline "http://example.com/cat.png" None (holding white_8x1) =
    (Raise (ValueError "Download failed: connection refused"),
     {| heap := [white_8x1]; requests := [("http://example.com/cat.png"%string, 10)] |}).
Proof.
  destruct (@download_image_wraps_client_errors offline "http://example.com/cat.png"
              None (holding white_8x1)) as (Hfail & _ & _).
  apply (Hfail "connection refused"%string); reflexivity.
Defined.

Lemma download_image_returns_witness :
  exists response data img,
    startswith "http://example.com/cat.png" "http" = true /\
    @requests_get (serving mid_grey_pixel) "http://example.com/cat.png" 10 = Ok response /\
    raise_for_status response = Ok tt /\
    startswith (default ""%string (headers_get response "Content-Type")) "image/" = true /\
    (forall cl, headers_get response "Content-Length" = Some cl -> truthy cl = true ->
       exists n, @int_of_str (serving mid_grey_pixel) cl = Ok n /\ n <= MiB10) /\
    content response = Ok data /\
    Z.of_nat (length data) <= MiB10 /\
    @Image_open (serving mid_grey_pixel) data = Ok img /\
    1%nat = length (heap (holding white_8x1)) /\
    {| heap := [white_8x1; mid_grey_pixel];
       requests := [("http://example.com/cat.png"%string, 10)] |} =
    {| heap := heap (holding white_8x1) ++ [img];
       requests := requests (holding white_8x1) ++ [("http://example.com/cat.png"%string, 10)] |}.
Proof.
  apply (@download_image_returns (serving mid_grey_pixel) "http://example.com/cat.png"
           None (holding white_8x1)).
  reflexivity.
Defined.

Lemma download_image_refuses_by_headers_witness :
  @download_image (answering html_headers (Ok [60; 104; 116; 109; 108; 62]))
     "http://example.com/" None (holding white_8x1) =
    (Raise (ValueError "Invalid Content-Type: text/html"),
     {| heap := [white_8x1]; requests := [("http://example.com/"%string, 10)] |}) /\
  @download_image (answering huge_png_headers (Raise (OSError "connection reset")))
     "http://example.com/" None (holding white_8x1) =
    (Raise (ValueError "Image too large (>10MB)"),
     {| heap := [white_8x1]; requests := [("http://example.com/"%string, 10)] |}).
Proof.
  split.
  - destruct (@download_image_refuses_by_headers
                (answering html_headers (Ok [60; 104; 116; 109; 108; 62]))
                "http://example.com/" None (holding white_8x1) _
                eq_refl eq_refl eq_refl) as [Hct _].
    apply Hct. reflexivity.
  - destruct (@download_image_refuses_by_headers
                (answering huge_png_headers (Raise (OSError "connection reset")))
                "http://example.com/" None (holding white_8x1) _
                eq_refl eq_refl eq_refl) as [_ Hlen].
    apply (Hlen "20000000"%string 20000000); try reflexivity.
Defined.

Lemma download_image_body_limit_witness :
  @download_image (serving mid_grey_pixel) "http://example.com/cat.png" None
     (holding white_8x1) =
    (Ok 1%nat,
     {| heap := [white_8x1; mid_grey_pixel];
        requests := [("http://example.com/cat.png"%string, 10)] |}).
Proof.
  destruct (@download_image_body_limit (serving mid_grey_pixel)
              "http://example.com/cat.png" None (holding white_8x1) _ [137; 80; 78; 71]
              eq_refl eq_refl eq_refl eq_refl eq_refl eq_refl) as [_ Hsmall].
  destruct Hsmall as [Hok _].
  - vm_compute. discriminate.
  - apply (Hok mid_grey_pixel). reflexivity.
Defined.

Section ContentLength.
Context `{World}.

(** X16.  The Content-Length header, with status and Content-Type
    accepted: a value that [int()] refuses with a [ValueError] ends
    [download_image] with that error, unwrapped, and nothing allocated; an
    empty value counts as no header; and a declared length within the
    limit is not compared with the body, which is accepted whenever it is
    itself at most 10 MiB. *)
Theorem download_image_content_length (url : string) (timeout : option Z)
    (s : state) (response : Response) :
  startswith url "http" = true ->
  requests_get url (default 10 timeout) = Ok response ->
  raise_for_status response = Ok tt ->
  startswith (default ""%string (headers_get response "Content-Type")) "image/" = true ->
  (forall cl msg,
     headers_get response "Content-Length" = Some cl -> truthy cl = true ->
     int_of_str cl = Raise (ValueError msg) ->
     download_image url timeout s =
       (Raise (ValueError msg), requested s url (default 10 timeout) [])) /\
  (forall cl data img,
     headers_get response "Content-Length" = Some cl ->
     cl = ""%string \/ (exists n, int_of_str cl = Ok n /\ n <= MiB10) ->
     content response = Ok data -> Z.of_nat (length data) <= MiB10 ->
     Image_open data = Ok img ->
     download_image url timeout s =
       (Ok (length (heap s)), requested s url (default 10 timeout) [img])).
Proof.
  intros Hurl Hget Hstatus Hct. split.
  - intros cl msg Hcl Htruthy Hint. rewrite (run_download_image url timeout s Hurl).
    unfold fetched. rewrite Hget. cbn [mbind result_bind]. rewrite Hstatus.
    cbn [mbind result_bind]. rewrite Hct, Hcl, Htruthy, Hint. reflexivity.
  - intros cl data img Hcl Hdecl Hbody Hsmall Hopen.
    rewrite (run_download_image url timeout s Hurl).
    unfold fetched. rewrite Hget. cbn [mbind result_bind]. rewrite Hstatus.
    cbn [mbind result_bind]. rewrite Hct, Hcl. cbn [negb].
    assert (Hd : (if truthy cl then n ← int_of_str cl; Ok (MiB10 <? n) else Ok false)
                 = Ok false).
    { destruct Hdecl as [-> | (n & Hint & Hn)]; [reflexivity|].
      destruct (truthy cl); [|reflexivity]. rewrite Hint. cbn [mbind result_bind].
      destruct (Z.ltb_spec MiB10 n); [lia | reflexivity]. }
    rewrite Hd. cbn [mbind result_bind]. rewrite Hbody. cbn [mbind result_bind].
    destruct (Z.ltb_spec MiB10 (Z.of_nat (length data))); [lia|].
    rewrite Hopen. reflexivity.
Qed.

End ContentLength.

Lemma download_image_content_length_witness :
  @download_image (answering odd_length_headers (Ok [137; 80; 78; 71]))
     "http://example.com/cat.png" None (holding white_8x1) =
    (Raise (ValueError "invalid literal for int() with base 10"),
     {| heap := [white_8x1]; requests := [("http://example.com/cat.png"%string, 10)] |}).
Proof.
  destruct (@download_image_content_length
              (answering odd_length_headers (Ok [137; 80; 78; 71]))
              "http://example.com/cat.png" None (holding white_8x1) _
              eq_refl eq_refl eq_refl eq_refl) as [Hbad _].
  apply (Hbad "12 bytes"%string); reflexivity.
Defined.

(** ** The scheme of the URL *)
















Section Scheme.
Context (net : Network) (W : World).


End Scheme.


(** On the same network: a URL with the scheme http is fetched with one
    request, and so is one whose scheme is written "httpS"; "httpx" is
    refused by the client, and "ftp" by the guard, with nothing sent. *)
Lemma four_urls_on_one_network :
  let run url :=
    @download_image (over cat_server (serving mid_grey_pixel)) url None
      {| heap := []; requests := [] |} in
  (fst (run "http://example.com/cat.png"%string) = Ok 0%nat /\
   sent cat_server (requests (snd (run "http://example.com/cat.png"%string))) =
     [("http://example.com/cat.png"%string, 10)]) /\
  (fst (run "httpS://example.com/cat.png"%string) = Ok 0%nat /\
   sent cat_server (requests (snd (run "httpS://example.com/cat.png"%string))) =
     [("https://example.com/cat.png"%string, 10)]) /\
  (fst (run "httpx://example.com/cat.png"%string) =
     Raise (ValueError
              "Download failed: No connection adapters were found for 'httpx://example.com/cat.png'") /\
   sent cat_server (requests (snd (run "httpx://example.com/cat.png"%string))) = []) /\
  (fst (run "ftp://example.com/cat.png"%string) =
     Raise (ValueError "URL must start with http/https") /\
   sent cat_server (requests (snd (run "ftp://example.com/cat.png"%string))) = []).
Proof. repeat split; vm_compute; reflexivity. Qed.

(** ** Whole scale factors are exact *)

(** A value within half a unit of a multiple of the unit is that multiple. *)
Lemma half_ulp_exact (V Q D n : Z) :
  0 < D -> 0 <= n -> (2 ^ n | V) -> (2 ^ n | Q) ->
  - (D * 2 ^ n) <= 2 * V * D - 2 * (Q * D) <= D * 2 ^ n -> V = Q.
Proof.
  intros HD Hn [A ->] [B ->] Herr.
  assert (HE : 0 < D * 2 ^ n).
  { apply Z.mul_pos_pos; [lia | apply Z.pow_pos_nonneg; lia]. }
  replace (2 * (A * 2 ^ n) * D - 2 * (B * 2 ^ n * D))
    with ((2 * A - 2 * B) * (D * 2 ^ n)) in Herr by ring.
  remember (D * 2 ^ n) as E eqn:HeqE. clear HeqE.
  assert (A = B) by nia. subst. reflexivity.
Qed.

Lemma pow2_divide (a b c : Z) : 0 <= a <= b -> (2 ^ a | c * 2 ^ b).
Proof.
  intros Hab. exists (c * 2 ^ (b - a)).
  rewrite <- Z.mul_assoc, <- Z.pow_add_r by lia. do 2 f_equal. lia.
Qed.

Lemma digits_53_54 (q : Z) : 2 ^ 52 <= q < 2 ^ 54 -> 53 <= Zdigits2 q <= 54.
Proof.
  intros Hq. destruct q as [|p|p]; try lia.
  pose proof (Zdigits2_bounds p) as Hd. set (d := Zdigits2 (Z.pos p)) in *. split.
  - destruct (Z_lt_le_dec d 53) as [Hlt|]; [|lia].
    assert (2 ^ d <= 2 ^ 52) by (apply Z.pow_le_mono_r; lia). lia.
  - destruct (Z_lt_le_dec 54 d) as [Hlt|]; [|lia].
    assert (2 ^ 54 <= 2 ^ (d - 1)) by (apply Z.pow_le_mono_r; lia). lia.
Qed.

(** The quotient of two floats that is a whole number below [2 ^ 53] is
    computed exactly. *)
Lemma SFdiv_exact (x y : float) (k : Z) :
  normal x (-52) 0 -> normal y (-52) 0 -> 1 <= k < 2 ^ 53 ->
  scaled x = k * scaled y ->
  normal (SFdiv prec emax x y) (-52) 0 /\
  scaled (SFdiv prec emax x y) = k * 2 ^ 1074.
Proof.
  intros (mx & ex & -> & Hmx & Hex) (my & ey & -> & Hmy & Hey) Hk Hs.
  cbn [scaled] in Hs. rewrite !Z.mul_1_l in Hs.
  assert (Hdx : Zdigits2 (Z.pos mx) = 53) by (apply Zdigits2_unique; lia).
  assert (Hdy : Zdigits2 (Z.pos my) = 53) by (apply Zdigits2_unique; lia).
  cbn [SFdiv xorb]. unfold SFdiv_core_binary. rewrite Hdx, Hdy.
  unfold prec, emax.
  replace (53 + ex - (53 + ey)) with (ex - ey) by lia.
  rewrite fexp_normal by lia.
  replace (Z.min (ex - ey - 53) (ex - ey)) with (ex - ey - 53) by lia.
  replace (ex - ey - (ex - ey - 53)) with 53 by lia.
  cbv iota. rewrite Z.shiftl_mul_pow2 by lia.
  set (N := Z.pos mx * 2 ^ 53). set (D := Z.pos my).
  assert (Hdm : Z.div_eucl N D = (N / D, N mod D)).
  { unfold Z.div, Z.modulo. destruct (Z.div_eucl N D). reflexivity. }
  rewrite Hdm.
  assert (HD : 0 < D) by (unfold D; lia).
  assert (HN : 0 <= N) by (unfold N; lia).
  rewrite new_location_loc_of by (try apply Z.mod_pos_bound; lia).
  (* the quotient is [k] times a power of two *)
  set (j := 53 - ex + ey).
  assert (Hj : 1 <= j <= 105) by (unfold j; lia).
  assert (HNQ : N = k * 2 ^ j * D).
  { apply (Z.mul_reg_r _ _ (2 ^ (ex + 1074))); [apply Z.pow_nonzero; lia|].
    unfold N. replace (Z.pos mx * 2 ^ 53 * 2 ^ (ex + 1074))
      with (Z.pos mx * 2 ^ (ex + 1074) * 2 ^ 53) by ring.
    rewrite Hs. unfold D.
    replace (k * 2 ^ j * Z.pos my * 2 ^ (ex + 1074))
      with (k * Z.pos my * (2 ^ j * 2 ^ (ex + 1074))) by ring.
    rewrite <- (Z.pow_add_r 2 j (ex + 1074)) by lia.
    replace (j + (ex + 1074)) with (ey + 1074 + 53) by (unfold j; lia).
    rewrite (Z.pow_add_r 2 (ey + 1074) 53) by lia. ring. }
  assert (HQ : N / D = k * 2 ^ j) by (rewrite HNQ; apply Z.div_mul; lia).
  assert (Hq : 2 ^ 52 <= N / D < 2 ^ 54).
  { split.
    - apply Z.div_le_lower_bound; [lia|]. unfold N, D. nia.
    - apply Z.div_lt_upper_bound; [lia|]. unfold N, D. nia. }
  pose proof (digits_53_54 (N / D) Hq) as Hdqr.
  destruct (binary_round_aux_correct false N D (ex - ey - 53) HD HN)
    as (m & e & Hr & Hm & He & Herr).
  - lia.
  - unfold prec, emax. change (SpecFloat.emin 53 1024) with (-1074). lia.
  - unfold prec, emax. lia.
  - unfold prec, emax in Hr. rewrite Hr.
    set (n := Zdigits2 (N / D) - 53) in *.
    set (g := e - (ex - ey - 53)) in *.
    assert (Hg : n <= g <= n + 1) by (unfold g; lia).
    assert (Hn : 0 <= n <= 1) by (unfold n; lia).
    assert (HV : Z.pos m * 2 ^ g = k * 2 ^ j).
    { apply (half_ulp_exact _ _ D n); [lia | lia | | |].
      - apply pow2_divide. lia.
      - apply pow2_divide. lia.
      - rewrite <- HNQ. exact Herr. }
    assert (Hej : e + j = g) by (unfold g, j; lia).
    assert (He0 : -52 <= e <= 0).
    { split.
      - destruct (Z_lt_le_dec e (-52)) as [Hlt|]; [exfalso | lia].
        assert (Hsplit : 2 ^ j = 2 ^ g * 2 ^ (- e)).
        { rewrite <- Z.pow_add_r by lia. f_equal. lia. }
        rewrite Hsplit in HV.
        assert (Hpg : 0 < 2 ^ g) by (apply Z.pow_pos_nonneg; lia).
        assert (Hm' : Z.pos m = k * 2 ^ (- e)) by nia.
        assert (2 ^ 53 <= 2 ^ (- e)) by (apply Z.pow_le_mono_r; lia). nia.
      - destruct (Z_lt_le_dec 0 e) as [Hlt|]; [exfalso | lia].
        assert (Hsplit : 2 ^ g = 2 ^ j * 2 ^ e).
        { rewrite <- Z.pow_add_r by lia. f_equal. lia. }
        rewrite Hsplit in HV.
        assert (Hpj : 0 < 2 ^ j) by (apply Z.pow_pos_nonneg; lia).
        assert (Hk' : k = Z.pos m * 2 ^ e) by nia.
        assert (2 ^ 1 <= 2 ^ e) by (apply Z.pow_le_mono_r; lia).
        change (2 ^ 1) with 2 in *. nia. }
    split.
    + exists m, e. split; [reflexivity|]. split; [exact Hm | exact He0].
    + cbn [scaled]. rewrite Z.mul_1_l.
      apply (Z.mul_reg_r _ _ (2 ^ j)); [apply Z.pow_nonzero; lia|].
      replace (Z.pos m * 2 ^ (e + 1074) * 2 ^ j)
        with (Z.pos m * (2 ^ (e + 1074) * 2 ^ j)) by ring.
      rewrite <- (Z.pow_add_r 2 (e + 1074) j) by lia.
      replace (e + 1074 + j) with (g + 1074) by lia.
      rewrite (Z.pow_add_r 2 g 1074) by lia.
      rewrite Z.mul_assoc, HV. ring.
Qed.

Lemma normal_mantissa (x : float) (a : Z) :
  normal x (-52) 0 -> scaled x = a * 2 ^ 1074 ->
  exists (m : positive) (e : Z),
    x = S754_finite false m e /\ 2 ^ 52 <= Z.pos m < 2 ^ 53 /\ -52 <= e <= 0 /\
    Z.pos m = a * 2 ^ (- e).
Proof.
  intros (m & e & -> & Hm & He) Hs. exists m, e. repeat split; try lia.
  cbn [scaled] in Hs. rewrite Z.mul_1_l in Hs.
  apply (Z.mul_reg_r _ _ (2 ^ (e + 1074))); [apply Z.pow_nonzero; lia|].
  rewrite Hs, <- Z.mul_assoc, <- Z.pow_add_r by lia. do 2 f_equal. lia.
Qed.

(** The product of two whole floats that is below [2 ^ 53] is computed
    exactly. *)
Lemma SFmul_exact (x y : float) (a b : Z) :
  normal x (-52) 0 -> normal y (-52) 0 ->
  scaled x = a * 2 ^ 1074 -> scaled y = b * 2 ^ 1074 -> a * b < 2 ^ 53 ->
  normal (SFmul prec emax x y) (-52) 2 /\
  scaled (SFmul prec emax x y) = a * b * 2 ^ 1074.
Proof.
  intros Nx Ny Sx Sy Hab.
  destruct (normal_mantissa x a Nx Sx) as (mx & ex & -> & Hmx & Hex & Emx).
  destruct (normal_mantissa y b Ny Sy) as (my & ey & -> & Hmy & Hey & Emy).
  cbn [SFmul xorb]. rewrite Pos2Z.inj_mul.
  set (N := Z.pos mx * Z.pos my).
  set (t := - ex + - ey).
  assert (HNt : N = a * b * 2 ^ t).
  { unfold N, t. rewrite Emx, Emy, Z.pow_add_r by lia. ring. }
  assert (HN : 2 ^ 104 <= N < 2 ^ 106).
  { unfold N. change (2 ^ 104) with (2 ^ 52 * 2 ^ 52). change (2 ^ 106) with (2 ^ 53 * 2 ^ 53).
    split; nia. }
  assert (HNpos : exists pn, N = Z.pos pn) by (destruct N as [|pn|pn]; try lia; eauto).
  destruct HNpos as [pn EN].
  pose proof (Zdigits2_bounds pn) as Hd. rewrite <- EN in Hd.
  set (d := Zdigits2 N) in *.
  assert (Hdr : 105 <= d <= 106).
  { split.
    - destruct (Z_lt_le_dec d 105) as [Hlt|]; [|lia].
      assert (2 ^ d <= 2 ^ 104) by (apply Z.pow_le_mono_r; lia). lia.
    - destruct (Z_lt_le_dec 106 d) as [Hlt|]; [|lia].
      assert (2 ^ 106 <= 2 ^ (d - 1)) by (apply Z.pow_le_mono_r; lia). lia. }
  assert (Hdt : d - 53 <= t).
  { destruct (Z_lt_le_dec t (d - 53)) as [Hlt|]; [exfalso | lia].
    assert (Hpt : 0 < 2 ^ t) by (apply Z.pow_pos_nonneg; unfold t; lia).
    assert (HNlt : N < 2 ^ 53 * 2 ^ t) by (rewrite HNt; nia).
    rewrite <- Z.pow_add_r in HNlt by (unfold t; lia).
    assert (2 ^ (53 + t) <= 2 ^ (d - 1)) by (apply Z.pow_le_mono_r; lia). lia. }
  pose proof (binary_round_aux_correct false N 1 (ex + ey) ltac:(lia) ltac:(lia)) as Hc.
  cbv zeta in Hc. rewrite Z.div_1_r, Z.mod_1_r in Hc.
  change (loc_of 0 1) with loc_Exact in Hc. fold d in Hc.
  unfold prec, emax in *. change (SpecFloat.emin 53 1024) with (-1074) in Hc.
  destruct Hc as (m & e & Hr & Hm & He & Herr); [lia|lia|lia|].
  rewrite Hr.
  set (n := d - 53) in *. set (g := e - (ex + ey)) in *.
  assert (Hg : n <= g <= n + 1) by (unfold g; lia).
  assert (HV : Z.pos m * 2 ^ g = N).
  { apply (half_ulp_exact _ _ 1 n); [lia | unfold n; lia | | |].
    - apply pow2_divide. unfold n in *. lia.
    - rewrite HNt. apply pow2_divide. unfold n in *. lia.
    - replace (N * 1) with N by ring. exact Herr. }
  split.
  - exists m, e. split; [reflexivity|]. split; [exact Hm|]. unfold n, t in *. lia.
  - cbn [scaled]. rewrite Z.mul_1_l.
    replace (e + 1074) with (g + (1074 - t)) by (unfold g, t; lia).
    rewrite (Z.pow_add_r 2 g (1074 - t)) by (unfold n, t in *; lia).
    rewrite Z.mul_assoc, HV, HNt, <- Z.mul_assoc, <- Z.pow_add_r by (unfold t; lia).
    do 2 f_equal. lia.
Qed.

(** The height computed by [resize_image] when the target width is a
    whole multiple of the width. *)
Lemma resize_height_exact (W H k : Z) :
  1 <= W -> 1 <= H -> 1 <= k -> k * W < 2 ^ 53 -> k * H < 2 ^ 53 ->
  exists width_percent,
    (ival (k * W) / float_ (ival W))%py = Ok width_percent /\
    int (float_ (ival H) * float_ (Ok width_percent))%py = Ok (k * H).
Proof.
  intros HW HH Hk HkW HkH.
  destruct (float_of_int_exact W ltac:(nia)) as (xW & EW & NW & SW).
  destruct (float_of_int_exact (k * W) ltac:(nia)) as (xT & ET & NT & ST).
  destruct (float_of_int_exact H ltac:(nia)) as (xH & EH & NH & SH).
  set (xq := SFdiv prec emax xT xW).
  set (xp := SFmul prec emax xH xq).
  assert (HzW : is_zero xW = false) by (destruct NW as (m & e & -> & _); reflexivity).
  destruct (SFdiv_exact xT xW k NT NW ltac:(nia)) as [Nq Sq].
  { rewrite ST, SW. ring. }
  fold xq in Nq, Sq.
  destruct (SFmul_exact xH xq H k NH Nq SH Sq ltac:(nia)) as [Np Sp].
  fold xp in Np, Sp.
  exists (Float xq). split.
  - unfold Py.truediv, float_, lift2, ival. cbn [mbind result_bind to_float].
    rewrite EW. cbn [mbind result_bind truediv_num to_float]. rewrite ET.
    cbn [mbind result_bind]. rewrite HzW. reflexivity.
  - unfold Py.int, Py.mul, float_, lift2, ival. cbn [mbind result_bind to_float].
    rewrite EH. cbn [mbind result_bind mul_num arith to_float int_num].
    fold xp. rewrite (trunc_scaled xp (-52) 2 ltac:(lia) Np), Sp.
    rewrite Z.div_mul by (apply Z.pow_nonzero; lia). f_equal. ring.
Qed.

Section ResizeExact.
Context `{World}.

(** X13.  Scaling by a whole factor is exact: asked for [k] times the
    width, [resize_image] asks the resampling for [k] times the width and
    [k] times the height, with no height lost to rounding, and returns its
    image under that size and the mode of the source, or raises what the
    resampling raises and allocates nothing; asked for the width the image
    has, it returns the image itself, with no resampling. *)
Theorem resize_image_whole_factor (s : state) (r : loc) (img : Image) (k : Z) :
  heap s !! r = Some img ->
  1 <= xsize img -> 1 <= ysize img -> 1 <= k ->
  k * xsize img <= INT_MAX -> k * ysize img <= INT_MAX ->
  (k = 1 ->
   resize_image r (Some (xsize img)) s =
     (Ok (length (heap s)),
      {| heap := heap s ++ [img]; requests := requests s |})) /\
  (k <> 1 ->
   resize_image r (Some (k * xsize img)) s =
     match resample LANCZOS img (k * xsize img, k * ysize img) with
     | Ok st =>
         (Ok (length (heap s)),
          {| heap := heap s ++ [{| mode := mode img;
                                   size := (k * xsize img, k * ysize img);
                                   im := st |}];
             requests := requests s |})
     | Raise e => (Raise e, s)
     end).
Proof.
  intros Hr HW HH Hk HkW HkH. unfold INT_MAX in *.
  destruct (resize_height_exact (xsize img) (ysize img) k HW HH Hk ltac:(lia) ltac:(lia))
    as (wp & Hwp & Hth).
  split.
  - intros ->. rewrite !Z.mul_1_l in *.
    rewrite (run_resize_image s r img _ Hr), Hwp, Hth. unfold resize. cbn [fst snd].
    rewrite !Z.eqb_refl. reflexivity.
  - intros Hne.
    rewrite (run_resize_image s r img _ Hr), Hwp, Hth. unfold resize. cbn [fst snd].
    replace (k * xsize img =? xsize img) with false by (symmetry; apply Z.eqb_neq; nia).
    cbn [andb].
    rewrite (as_int_fits (k * xsize img)), (as_int_fits (k * ysize img)).
    + cbn [mbind result_bind].
      replace (k * xsize img <? 1) with false by (symmetry; apply Z.ltb_ge; nia).
      replace (k * ysize img <? 1) with false by (symmetry; apply Z.ltb_ge; nia).
      cbn [orb].
      destruct (resample LANCZOS img (k * xsize img, k * ysize img)); reflexivity.
    + unfold fits_int, INT_MIN, INT_MAX. apply andb_true_intro.
      split; apply Z.leb_le; nia.
    + unfold fits_int, INT_MIN, INT_MAX. apply andb_true_intro.
      split; apply Z.leb_le; nia.
Qed.

End ResizeExact.

Lemma resize_image_whole_factor_witness :
  @resize_image offline 0%nat (Some (3 * 8)) (holding grey_8x7) =
    (Ok 1%nat,
     {| heap := [grey_8x7; grey 24 21 (replicate 21 (replicate 24 0))];
        requests := [] |}).
Proof.
  destruct (@resize_image_whole_factor offline (holding grey_8x7) 0%nat grey_8x7 3)
    as [_ Hk].
  - reflexivity.
  - cbn. lia.
  - cbn. lia.
  - lia.
  - cbn. unfold INT_MAX. lia.
  - cbn. unfold INT_MAX. lia.
  - exact (Hk ltac:(lia)).
Defined.

(** ** The whole pipeline *)

Lemma runs_then {B : Type} (m : M loc) (k : loc -> M B) (s : state)
    (res : result Image) (f : Image -> result B) :
  runs m s res ->
  (forall r' s' g, heap s' !! r' = Some g ->
     fst (k r' s') = f g /\ requests (snd (k r' s')) = requests s') ->
  fst ((m ≫= k) s) = res ≫= f /\ requests (snd ((m ≫= k) s)) = requests s.
Proof.
  intros (s1 & [Hreq _] & Hm) Hk. destruct res as [g|e].
  - destruct Hm as (r' & Hm & Hr'). rewrite (run_bind_ok _ _ _ _ _ Hm).
    destruct (Hk r' s1 g Hr') as [Hfst Hsnd]. cbn [mbind result_bind].
    split; congruence.
  - rewrite (run_bind_raise _ _ _ _ _ Hm). split; [reflexivity | exact Hreq].
Qed.

Section Whole.
Context `{World}.

Lemma runs_resize_image (s : state) (r : loc) (img : Image) (target_width : option Z) :
  heap s !! r = Some img ->
  runs (resize_image r target_width) s (resized img (default 384 target_width)).
Proof.
  intros Hr.
  assert (Hrun : resize_image r target_width s =
                 (img' ← lift (resized img (default 384 target_width)); alloc img') s).
  { change (resize_image r target_width) with
      (resize_image r (Some (default 384 target_width))).
    rewrite (run_resize_image s r img _ Hr). unfold resized.
    destruct (ival (default 384 target_width) / float_ (ival (xsize img)))%py
      as [wp|e]; [|reflexivity].
    cbn [mbind result_bind].
    destruct (int (float_ (ival (ysize img)) * float_ (Ok wp)))%py as [th|e];
      [|reflexivity].
    cbn [mbind result_bind]. rewrite run_bind. unfold lift.
    destruct (resize resample img _ LANCZOS); reflexivity. }
  unfold runs. rewrite Hrun. apply runs_alloc.
Qed.

Lemma run_process_image (url : string) (algorithm : option string) (s : state)
    (out : bytes) :
  fst (process_image url algorithm s) = Ok out ->
  exists img0,
    fetched url 10 = Ok img0 /\
    rendered img0 (default "algo-steinberg"%string algorithm) = Ok out /\
    requests (snd (process_image url algorithm s)) = requests s ++ [(url, 10)].
Proof.
  unfold process_image. rewrite run_bind.
  destruct (startswith url "http") eqn:Hurl.
  2: { unfold download_image. rewrite Hurl. discriminate. }
  rewrite (run_download_image url None s Hurl).
  change (default 10 None) with 10.
  destruct (fetched url 10) as [img0|e]; [|destruct e; discriminate].
  set (s0 := requested s url 10 [img0]).
  assert (Hr0 : heap s0 !! length (heap s) = Some img0) by apply lookup_alloc.
  change (requests s ++ [(url, 10)]) with (requests s0).
  intros Hout. exists img0. split; [reflexivity|].
  assert (Hrun :
    fst ((resize_image (length (heap s)) None ≫= fun img =>
          to_grayscale img None None ≫= fun img =>
          (if String.eqb (default "algo-steinberg"%string algorithm) "algo-direct"
           then dither_direct img else dither_floyd_steinberg img) ≫= fun img =>
          pack_to_pbm img) s0) =
      rendered img0 (default "algo-steinberg"%string algorithm) /\
    requests (snd ((resize_image (length (heap s)) None ≫= fun img =>
          to_grayscale img None None ≫= fun img =>
          (if String.eqb (default "algo-steinberg"%string algorithm) "algo-direct"
           then dither_direct img else dither_floyd_steinberg img) ≫= fun img =>
          pack_to_pbm img) s0)) = requests s0).
  { unfold rendered.
    apply runs_then; [apply runs_resize_image, Hr0|].
    intros r1 s1 i1 Hr1.
    apply runs_then; [apply runs_to_grayscale, Hr1|].
    intros r2 s2 i2 Hr2.
    apply runs_then.
    { destruct (String.eqb _ "algo-direct"); apply runs_Image_convert, Hr2. }
    intros r3 s3 i3 Hr3.
    destruct (run_pack_to_pbm s3 r3 i3 Hr3) as (Hfst & Hreq & _). split; assumption. }
  destruct Hrun as [Hfst Hreq]. split; [|exact Hreq].
  rewrite <- Hfst. exact Hout.
Qed.

End Whole.

Lemma grayscale_of_size (img g : Image) (brightness : Z) (alpha_as_white : bool) :
  grayscale_of img brightness alpha_as_white = Ok g -> size g = size img.
Proof.
  unfold grayscale_of.
  destruct (convert img M_RGBA None) as [i1|e] eqn:H1; [|discriminate].
  destruct (convert_mode_size _ _ _ _ H1) as [_ Hs1]. cbn [mbind result_bind].
  assert (H2 : forall i2,
            (if alpha_as_white
             then background ← new M_RGBA (size i1) white; alpha_composite background i1
             else Ok i1) = Ok i2 -> size i2 = size i1).
  { intros i2. destruct alpha_as_white; [|intros [= <-]; reflexivity].
    unfold new. destruct (_ || _); [discriminate|]. cbn [mbind result_bind].
    unfold alpha_composite. cbn [mode im size].
    destruct (mode i1), (im i1); try discriminate.
    destruct (_ && _); [|discriminate]. intros [= <-]. reflexivity. }
  destruct (if alpha_as_white then _ else _) as [i2|e]; [|discriminate].
  specialize (H2 i2 eq_refl). cbn [mbind result_bind].
  destruct (convert i2 M_L None) as [i3|e] eqn:H3; [|discriminate].
  destruct (convert_mode_size _ _ _ _ H3) as [_ Hs3]. cbn [mbind result_bind].
  destruct (negb (brightness =? 128)).
  - unfold point. destruct (tabulate _ _); [|discriminate]. cbn [mbind result_bind].
    intros [= <-]. cbn [size]. congruence.
  - intros [= <-]. congruence.
Qed.

Lemma packed_bilevel (d : Image) (out : bytes) :
  mode d = M_1 -> packed d = Ok out ->
  exists data, tobytes_raw d "1;I" = Ok data /\
               out = pbm_header (xsize d) (ysize d) ++ data.
Proof.
  intros Hmode. unfold packed. rewrite Hmode. cbn [mode_eqb mbind result_bind].
  destruct (tobytes_raw d "1;I") as [data|e]; [|discriminate].
  cbn [mbind result_bind]. intros [= <-]. eauto.
Qed.

Lemma wf_bilevel (img : Image) :
  mode img = M_1 -> wf_image img ->
  exists rows, im img = image8 rows /\ shape_ok (size img) rows /\
               Forall (Forall byte_ok) rows.
Proof.
  unfold wf_image. intros ->. destruct (im img) as [rows|rows]; [|contradiction].
  intros [Hs Hb]. eauto.
Qed.

Section Output.
Context `{World}.

Lemma resized_size (img i1 : Image) (target_width : Z) :
  resized img target_width = Ok i1 -> xsize i1 = target_width.
Proof.
  unfold resized.
  destruct (ival target_width / float_ (ival (xsize img)))%py as [wp|e]; [|discriminate].
  cbn [mbind result_bind].
  destruct (int (float_ (ival (ysize img)) * float_ (Ok wp)))%py as [th|e];
    [|discriminate].
  cbn [mbind result_bind]. intros Hres.
  apply resize_ok in Hres as [[-> Hsz] | (_ & _ & st & _ & ->)].
  - unfold xsize. rewrite <- Hsz. reflexivity.
  - reflexivity.
Qed.

Lemma resized_wf (img i1 : Image) (target_width : Z) :
  World_wf -> wf_image img -> resized img target_width = Ok i1 -> wf_image i1.
Proof.
  intros [_ Hres] Hwf. unfold resized.
  destruct (ival target_width / float_ (ival (xsize img)))%py as [wp|e]; [|discriminate].
  cbn [mbind result_bind].
  destruct (int (float_ (ival (ysize img)) * float_ (Ok wp)))%py as [th|e];
    [|discriminate].
  cbn [mbind result_bind]. intros Hr.
  apply resize_ok in Hr as [[-> _] | (Hw & Hh & st & Hst & ->)]; [exact Hwf|].
  cbn [fst snd] in *. apply (Hres LANCZOS img (target_width, th) st);
    cbn [fst snd]; [exact Hwf | lia | lia | exact Hst].
Qed.

Lemma fetched_decoded (url : string) (timeout : Z) (img : Image) :
  fetched url timeout = Ok img -> exists data, Image_open data = Ok img.
Proof.
  unfold fetched.
  destruct (requests_get url timeout) as [response|e]; [|discriminate].
  cbn [mbind result_bind].
  destruct (raise_for_status response) as [[]|e]; [|discriminate].
  cbn [mbind result_bind].
  destruct (negb _); [discriminate|].
  destruct (match headers_get response "Content-Length" with
            | Some cl => if truthy cl then n ← int_of_str cl; Ok (MiB10 <? n) else Ok false
            | None => Ok false
            end) as [[|]|e]; try discriminate.
  cbn [mbind result_bind].
  destruct (content response) as [data|e]; [|discriminate].
  cbn [mbind result_bind].
  destruct (MiB10 <? _); [discriminate|]. eauto.
Qed.

(** X14.  Whatever [process_image] returns is a bitmap 384 pixels wide:
    the bytes of "P4", a newline and "384" followed by a space (80, 52,
    10, 51, 56, 52, 32), the decimal numeral of a height, a newline, and
    then, when the decoder and the resampling filter return well-formed
    images, exactly 48 bytes for each row.  It made one request, with
    timeout 10. *)
Theorem process_image_output (url : string) (algorithm : option string) (s : state)
    (out : bytes) :
  fst (process_image url algorithm s) = Ok out ->
  exists (h : Z) (data : bytes),
    out = [80; 52; 10; 51; 56; 52; 32] ++ decimal h ++ [10] ++ data /\
    requests (snd (process_image url algorithm s)) = requests s ++ [(url, 10)] /\
    (World_wf ->
     0 <= h /\ Z.of_nat (length data) = 48 * h /\ Forall byte_ok data).
Proof.
  intros Hout.
  destruct (run_process_image url algorithm s out Hout) as (img0 & Hfetch & Hrender & Hreq).
  unfold rendered in Hrender.
  destruct (resized img0 384) as [i1|e] eqn:H1; [|discriminate].
  cbn [mbind result_bind] in Hrender.
  destruct (grayscale_of i1 127 true) as [g|e] eqn:H2; [|discriminate].
  cbn [mbind result_bind] in Hrender.
  destruct (convert g M_1 _) as [d|e] eqn:H3; [|discriminate].
  cbn [mbind result_bind] in Hrender.
  pose proof (resized_size _ _ _ H1) as Hx1.
  pose proof (grayscale_of_size _ _ _ _ H2) as Hs2.
  destruct (convert_mode_size _ _ _ _ H3) as [Hmode Hs3].
  assert (Hxd : xsize d = 384) by (unfold xsize in *; congruence).
  destruct (packed_bilevel d out Hmode Hrender) as (data & Hdata & ->).
  exists (ysize d), data. rewrite Hxd. split.
  { unfold pbm_header. change (decimal 384) with [51; 56; 52]. cbn [app].
    rewrite <- !app_assoc. reflexivity. }
  split; [exact Hreq|].
  intros Hworld.
  destruct (fetched_decoded _ _ _ Hfetch) as [raw Hopen].
  assert (Hwf0 : wf_image img0) by (destruct Hworld as [Hw _]; exact (Hw raw img0 Hopen)).
  pose proof (resized_wf _ _ _ Hworld Hwf0 H1) as Hwf1.
  destruct (grayscale_of_wf i1 127 true Hwf1 ltac:(lia) ltac:(lia)) as (g' & H2' & _ & _ & Hwfg).
  assert (g' = g) as -> by congruence.
  destruct (convert_wf g M_1
              (Some (if String.eqb (default "algo-steinberg"%string algorithm) "algo-direct"
                     then NONE else FLOYDSTEINBERG)) Hwfg) as (d' & H3' & Hwfd).
  assert (d' = d) as -> by congruence.
  destruct (wf_bilevel d Hmode Hwfd) as (rows & Him & [Hrows Hcols] & Hbytes).
  fold (xsize d) in Hcols. fold (ysize d) in Hrows. rewrite Hxd in Hcols.
  split; [lia|].
  unfold tobytes_raw in Hdata. rewrite Hxd, Hmode, Him in Hdata.
  change (384 =? 0) with false in Hdata. cbn [orb] in Hdata.
  destruct (Z.eqb_spec (ysize d) 0) as [H0|Hne].
  - injection Hdata as <-. rewrite H0. split; [reflexivity | constructor].
  - change (String.eqb "1;I" "1;I") with true in Hdata. injection Hdata as <-. split.
    + rewrite (length_concat_uniform 48).
      * rewrite length_map. lia.
      * exact (packed_rows_uniform 384 rows Hcols).
    + apply Forall_concat, Forall_map, Forall_true. intros row. apply pack_row_bytes.
Qed.

End Output.

Lemma blank_wf (filter : Resampling) (img : Image) (sz : Z * Z) (st : storage) :
  wf_image img -> 0 <= fst sz -> 0 <= snd sz ->
  blank filter img sz = Ok st ->
  wf_image {| mode := mode img; size := sz; im := st |}.
Proof.
  intros Hwf Hx Hy. unfold wf_image, blank in *. cbn [mode im size].
  destruct (_ || _); [intros Hd; discriminate Hd|].
  assert (Hshape : forall (A : Type) (c : A),
            shape_ok sz (replicate (Z.to_nat (snd sz)) (replicate (Z.to_nat (fst sz)) c))).
  { intros A c. split.
    - rewrite length_replicate. lia.
    - apply Forall_replicate. rewrite length_replicate. lia. }
  destruct (mode img), (im img); try contradiction; intros [= <-];
    (split; [apply Hshape|]);
    apply Forall_replicate, Forall_replicate;
    first [ unfold byte_ok; lia | apply pixel32_ok_intro; unfold byte_ok; lia ].
Qed.

Lemma serving_wf (img : Image) : wf_image img -> @World_wf (serving img).
Proof.
  intros Hwf. split.
  - intros data img' [= <-]. exact Hwf.
  - intros filter img' sz st. apply blank_wf.
Qed.

Lemma process_image_output_witness :
  fst (@process_image (serving white_row) "http://example.com/cat.png" None
         {| heap := []; requests := [] |}) =
    Ok ([80; 52; 10; 51; 56; 52; 32; 49; 10] ++ replicate 48 0) /\
  exists (h : Z) (data : bytes),
    [80; 52; 10; 51; 56; 52; 32; 49; 10] ++ replicate 48 0 =
      [80; 52; 10; 51; 56; 52; 32] ++ decimal h ++ [10] ++ data /\
    requests (snd (@process_image (serving white_row) "http://example.com/cat.png" None
                     {| heap := []; requests := [] |})) =
      [("http://example.com/cat.png"%string, 10)] /\
    0 <= h /\ Z.of_nat (length data) = 48 * h /\ Forall byte_ok data.
Proof.
  assert (Hrun : fst (@process_image (serving white_row) "http://example.com/cat.png" None
                        {| heap := []; requests := [] |}) =
                 Ok ([80; 52; 10; 51; 56; 52; 32; 49; 10] ++ replicate 48 0))
    by (vm_compute; reflexivity).
  split; [exact Hrun|].
  destruct (@process_image_output (serving white_row) "http://example.com/cat.png" None
              {| heap := []; requests := [] |}
              ([80; 52; 10; 51; 56; 52; 32; 49; 10] ++ replicate 48 0) Hrun)
    as (h & data & Hout & Hreq & Hwf).
  - exists h, data. split; [exact Hout|]. split; [exact Hreq|].
    apply Hwf, serving_wf.
    split; [split; [reflexivity | constructor; [reflexivity | constructor]]|].
    constructor; [|constructor]. apply Forall_replicate. unfold byte_ok. lia.
Defined.

(** ** Black and white in, black and white out *)

Lemma grayscale_of_black_or_white (img : Image) (rows : list (list pixel32)) :
  mode img = M_RGB \/ mode img = M_RGBA -> im img = image32 rows -> wf_image img ->
  0 <= xsize img ->
  Forall (Forall black_or_white) rows ->
  grayscale_of img 127 true =
    Ok {| mode := M_L; size := size img;
          im := image8 (map (map (fun '(r, _, _, _) => if r =? 0 then 0 else 255)) rows) |}.
Proof.
  intros Hmode Him Hwf Hx Hbw.
  assert (H1 : convert img M_RGBA None =
               Ok {| mode := M_RGBA; size := size img; im := image32 rows |}).
  { destruct img as [md sz st]. cbn in *. subst st. destruct Hmode as [-> | ->].
    - cbv [convert ImagingConvert standard_convert mode_eqb mode im size
           default from_option id dither_flag andb mbind result_bind].
      do 3 f_equal. rewrite <- (map_id rows) at 2. apply map_ext_Forall.
      eapply Forall_impl; [exact Hbw|]. intros row Hrow. cbn beta. unfold rgb2rgba.
      rewrite <- (map_id row) at 2. apply map_ext_Forall.
      eapply Forall_impl; [exact Hrow|]. intros p [-> | ->]; reflexivity.
    - reflexivity. }
  set (i1 := {| mode := M_RGBA; size := size img; im := image32 rows |}) in *.
  assert (Hwf1 : wf_image i1).
  { destruct (convert_wf img M_RGBA None Hwf) as (i1' & H1' & Hwf1). congruence. }
  rewrite (grayscale_of_via_rgba _ _ _ _ H1).
  destruct (grayscale_of_rgba i1 rows 127 true eq_refl eq_refl Hwf1 Hx ltac:(lia))
    as (t & Hg & Ht).
  rewrite Hg. cbn [size i1]. do 3 f_equal.
  apply map_ext_Forall. eapply Forall_impl; [exact Hbw|]. intros row Hrow. cbn beta.
  apply map_ext_Forall. eapply Forall_impl; [exact Hrow|]. intros p Hp. cbn beta.
  destruct (adjust_endpoints 127 ltac:(lia)) as (H0 & H255 & _).
  destruct Hp as [-> | ->].
  - rewrite composite_white_opaque by (unfold byte_ok; lia).
    change (Z.shiftr (L24 (0, 0, 0, 255)) 16) with 0.
    destruct (Ht 0 ltac:(unfold byte_ok; lia)) as [E _]. cbn. congruence.
  - rewrite composite_white_opaque by (unfold byte_ok; lia).
    change (Z.shiftr (L24 (255, 255, 255, 255)) 16) with 255.
    destruct (Ht 255 ltac:(unfold byte_ok; lia)) as [E _]. cbn. congruence.
Qed.

(** X15.  A colour image drawn in pure black and pure white alone goes
    through [to_grayscale] and [pack_to_pbm] pixel for pixel, as the test
    of the repository has it for one row: each black pixel is a 1 bit and
    each white pixel a 0 bit of the raster, at the place the format gives
    the pixel; error diffusion moves nothing. *)
Theorem black_and_white_kept (s : state) (r : loc) (img : Image)
    (rows : list (list pixel32)) :
  heap s !! r = Some img ->
  mode img = M_RGB \/ mode img = M_RGBA -> im img = image32 rows -> wf_image img ->
  0 < xsize img -> 0 < ysize img ->
  Forall (Forall black_or_white) rows ->
  let w := xsize img in
  let row_bytes := Z.to_nat ((w + 7) / 8) in
  exists data,
    fst ((g ← to_grayscale r None None; pack_to_pbm g) s) =
      Ok (pbm_header w (ysize img) ++ data) /\
    forall (x y : nat) (row : list pixel32) (red green blue alpha : Z),
      rows !! y = Some row -> row !! x = Some (red, green, blue, alpha) ->
      exists byte,
        data !! (y * row_bytes + x / 8)%nat = Some byte /\
        Z.testbit byte (7 - Z.of_nat (x mod 8)) = (red =? 0).
Proof.
  intros Hr Hmode Him Hwf Hw Hh Hbw w row_bytes.
  set (f := fun p : pixel32 => let '(r, _, _, _) := p in if r =? 0 then 0 else 255).
  set (grows := map (map f) rows).
  set (g := {| mode := M_L; size := size img; im := image8 grows |}).
  assert (Hg : grayscale_of img 127 true = Ok g).
  { apply grayscale_of_black_or_white; try assumption. lia. }
  assert (Hshape : shape_ok (size img) rows).
  { unfold wf_image in Hwf. rewrite Him in Hwf.
    destruct Hmode as [Hm | Hm]; rewrite Hm in Hwf; apply Hwf. }
  assert (Hgshape : shape_ok (size img) grows) by apply shape_ok_map, Hshape.
  assert (Hlevels : Forall (Forall two_level) grows).
  { apply Forall_map, Forall_true. intros row. apply Forall_map, Forall_true.
    intros [[[red green] blue] alpha]. unfold f. destruct (red =? 0); [left | right]; reflexivity. }
  assert (Hpacked : packed g =
                    Ok (pbm_header w (ysize img) ++ concat (map pack1I grows))).
  { unfold packed. cbn [mode g mode_eqb].
    rewrite (convert_floyd_steinberg g grows eq_refl eq_refl
             : convert g M_1 None = _).
    cbn [mbind result_bind]. unfold tobytes_raw, xsize, ysize. cbn [size mode im g].
    fold (xsize img) (ysize img).
    replace (xsize img =? 0) with false by (symmetry; apply Z.eqb_neq; lia).
    replace (ysize img =? 0) with false by (symmetry; apply Z.eqb_neq; lia).
    cbn [orb]. change (String.eqb "1;I" "1;I") with true. cbv iota.
    cbn [mbind result_bind].
    rewrite (tobilevel_scan_two_level (xsize img) grows); [reflexivity | apply Hgshape | exact Hlevels]. }
  exists (concat (map pack1I grows)). split.
  - pose proof (runs_to_grayscale s r img None None Hr) as Hrun.
    change (default 127 None) with 127 in Hrun. change (default true None) with true in Hrun.
    rewrite Hg in Hrun.
    destruct (runs_then (to_grayscale r None None) pack_to_pbm s (Ok g) packed Hrun)
      as [Hfst _].
    { intros r' s' g' Hr'. destruct (run_pack_to_pbm s' r' g' Hr') as (H1 & H2 & _).
      split; assumption. }
    exact (eq_trans Hfst Hpacked).
  - intros x y row red green blue alpha Hy Hx.
    destruct Hgshape as [_ Hcols]. fold (xsize img) in Hcols. fold w in Hcols.
    pose proof (packed_rows_uniform w grows Hcols) as Hunif. fold row_bytes in Hunif.
    assert (Hgy : grows !! y = Some (map f row)).
    { unfold grows. change (map (map f) rows) with (map f <$> rows).
      rewrite list_lookup_fmap, Hy. reflexivity. }
    assert (Hgx : map f row !! x = Some (if red =? 0 then 0 else 255)).
    { change (map f row) with (f <$> row). rewrite list_lookup_fmap.
      exact (f_equal (fmap f) Hx). }
    assert (Hlen : Z.of_nat (length (map f row)) = w) by exact (Forall_lookup_1 _ _ _ _ Hcols Hgy).
    assert (Hxw : (x < length (map f row))%nat) by (eapply lookup_lt_Some; eauto).
    destruct (pack_row_bit (fun v => v =? 0) (map f row) x _ Hgx) as (byte & Hb & Ht).
    exists byte. split.
    + rewrite (lookup_concat_uniform row_bytes _ y (x / 8) (pack1I (map f row)) Hunif).
      * exact Hb.
      * change (map pack1I grows) with (pack1I <$> grows). rewrite list_lookup_fmap, Hgy.
        reflexivity.
      * unfold row_bytes. lia.
    + rewrite Ht. destruct (red =? 0); reflexivity.
Qed.

Lemma black_and_white_kept_witness :
  exists data,
    fst ((g ← to_grayscale 0%nat None None; pack_to_pbm g) (holding stripes)) =
      Ok (pbm_header 10 1 ++ data) /\
    forall (x y : nat) (row : list pixel32) (red green blue alpha : Z),
      [[(0, 0, 0, 255); (255, 255, 255, 255); (0, 0, 0, 255);
        (255, 255, 255, 255); (0, 0, 0, 255); (255, 255, 255, 255);
        (0, 0, 0, 255); (255, 255, 255, 255); (0, 0, 0, 255);
        (255, 255, 255, 255)]] !! y = Some row ->
      row !! x = Some (red, green, blue, alpha) ->
      exists byte,
        data !! (y * 2 + x / 8)%nat = Some byte /\
        Z.testbit byte (7 - Z.of_nat (x mod 8)) = (red =? 0).
Proof.
  apply (black_and_white_kept (holding stripes) 0%nat stripes
           [[(0, 0, 0, 255); (255, 255, 255, 255); (0, 0, 0, 255);
             (255, 255, 255, 255); (0, 0, 0, 255); (255, 255, 255, 255);
             (0, 0, 0, 255); (255, 255, 255, 255); (0, 0, 0, 255);
             (255, 255, 255, 255)]]).
  - reflexivity.
  - left. reflexivity.
  - reflexivity.
  - split; [split; [reflexivity|]|]; repeat constructor; unfold byte_ok; lia.
  - reflexivity.
  - reflexivity.
  - repeat first [ apply Forall_nil_2
                 | apply Forall_cons_2; [first [left; reflexivity | right; reflexivity]|]
                 | apply Forall_cons_2 ].
Defined.
